(** * jira.py: rendering Atlassian Document Format to Markdown

    A shallow embedding of [src/jira-read-ticket/scripts/jira.py].

    The renderer receives whatever [json.loads] produced, so the model works
    on dynamically typed Python values and keeps the exceptions Python would
    raise ([AttributeError] for [.get] on a non-dict, [TypeError] for joining
    a non-string, ...).  Scope of the model:

    - numbers are Python [int]s; JSON floats are not represented, nor is
      the interpreter's limit on the digits of a decimal conversion;
    - a character of a [string] stands for one code point below 256, and the
      whitespace and line-boundary tables are Python's, cut to that range;
    - a dict is an association list in insertion order, looked up by its
      first binding for a key;
    - recursion is bounded by a [fuel] counter, the remaining depth of the
      interpreter's call stack; running out of it is the separate outcome
      [OutOfFuel].

    The statements about results are made on this embedding, whose values
    are trees.  The statement about state is made on a second embedding,
    [Store], in which lists and dicts are objects of a store that the code
    reads and changes; the two are proved to agree. *)

From Stdlib Require Import ZArith List String Ascii Bool Lia DecimalString.
Import ListNotations.

Open Scope list_scope.
Open Scope string_scope.

(** ** Python values *)

#[warnings="-register-all"]
Inductive pyobj : Type :=
| VNone
| VBool (b : bool)
| VInt (z : Z)
| VStr (s : string)
| VList (l : list pyobj)
| VDict (d : list (string * pyobj)).

Inductive exn : Type :=
| AttributeError
| TypeError
| ValueError
| KeyError
| IndexError.

Inductive result (A : Type) : Type :=
| Ok (a : A)
| Raise (e : exn)
| OutOfFuel.

Arguments Ok {A} a.
Arguments Raise {A} e.
Arguments OutOfFuel {A}.

Definition bind {A B : Type} (m : result A) (k : A -> result B) : result B :=
  match m with
  | Ok a => k a
  | Raise e => Raise e
  | OutOfFuel => OutOfFuel
  end.

Notation "x <- m ;; k" := (bind m (fun x => k))
  (at level 61, m at next level, right associativity).

(** A comprehension or a [for] loop that collects: the items are evaluated
    left to right and the first exception ends the loop. *)
Fixpoint mapM {A B : Type} (f : A -> result B) (l : list A) : result (list B) :=
  match l with
  | [] => Ok []
  | a :: l' => b <- f a ;; bs <- mapM f l' ;; Ok (b :: bs)
  end.

(** ** Characters and strings *)

Definition chr (n : nat) : ascii := ascii_of_nat n.
Definition str1 (c : ascii) : string := String c EmptyString.

Definition LF : string := str1 (chr 10).
Definition backtick : ascii := chr 96.
Definition backslash : ascii := chr 92.

Definition is_empty (s : string) : bool :=
  match s with EmptyString => true | String _ _ => false end.

(** [str.isspace] on one character. *)
Definition isspace (c : ascii) : bool :=
  let n := nat_of_ascii c in
  ((9 <=? n) && (n <=? 13) || (28 <=? n) && (n <=? 32)
   || (n =? 133) || (n =? 160))%nat.

(** The line boundaries of [str.splitlines], apart from the pair CR LF. *)
Definition is_linebreak (c : ascii) : bool :=
  let n := nat_of_ascii c in
  ((10 <=? n) && (n <=? 13) || (28 <=? n) && (n <=? 30) || (n =? 133))%nat.

(** Dropping the characters of a class at either end. *)
Fixpoint lstrip_with (p : ascii -> bool) (s : string) : string :=
  match s with
  | EmptyString => EmptyString
  | String c s' => if p c then lstrip_with p s' else s
  end.

Fixpoint rstrip_with (p : ascii -> bool) (s : string) : string :=
  match s with
  | EmptyString => EmptyString
  | String c s' =>
      let r := rstrip_with p s' in
      if is_empty r && p c then EmptyString else String c r
  end.

(** [s.rstrip()] and [s.strip()] *)
Definition rstrip (s : string) : string := rstrip_with isspace s.

Definition strip (s : string) : string := rstrip (lstrip_with isspace s).

Fixpoint splitlines (s : string) : list string :=
  match s with
  | EmptyString => []
  | String c s' =>
      if Ascii.eqb c (chr 13) then
        match s' with
        | String c' s'' =>
            if Ascii.eqb c' (chr 10) then EmptyString :: splitlines s''
            else EmptyString :: splitlines s'
        | EmptyString => [EmptyString]
        end
      else if is_linebreak c then EmptyString :: splitlines s'
      else
        match splitlines s' with
        | [] => [str1 c]
        | l :: ls => String c l :: ls
        end
  end.

(** [s.replace(c, r)] for a one-character pattern [c]. *)
Fixpoint replace (c : ascii) (r : string) (s : string) : string :=
  match s with
  | EmptyString => EmptyString
  | String a s' =>
      if Ascii.eqb a c then r ++ replace c r s' else String a (replace c r s')
  end.

(** [s * n] *)
Fixpoint str_repeat (s : string) (n : nat) : string :=
  match n with
  | O => EmptyString
  | S n' => s ++ str_repeat s n'
  end.

Definition join (sep : string) (l : list string) : string := String.concat sep l.

Definition decimal (z : Z) : string := NilZero.string_of_int (Z.to_int z).

(** ** Builtins on values *)

Definition truthy (v : pyobj) : bool :=
  match v with
  | VNone => false
  | VBool b => b
  | VInt z => negb (z =? 0)%Z
  | VStr s => negb (is_empty s)
  | VList l => match l with [] => false | _ => true end
  | VDict d => match d with [] => false | _ => true end
  end.

(** [x or y] *)
Definition py_or (x y : pyobj) : pyobj := if truthy x then x else y.

Fixpoint lookup (k : string) (d : list (string * pyobj)) : option pyobj :=
  match d with
  | [] => None
  | (k', v) :: d' => if String.eqb k k' then Some v else lookup k d'
  end.

(** [d.get(k, default)] on the bindings of a dict *)
Definition field_or (d : list (string * pyobj)) (k : string) (default : pyobj) : pyobj :=
  match lookup k d with Some x => x | None => default end.

Definition field (d : list (string * pyobj)) (k : string) : pyobj :=
  field_or d k VNone.

(** [v.get(k, default)]; only a dict has the method. *)
Definition get_or (v : pyobj) (k : string) (default : pyobj) : result pyobj :=
  match v with
  | VDict d => Ok (field_or d k default)
  | _ => Raise AttributeError
  end.

(** [v.get(k)] *)
Definition get (v : pyobj) (k : string) : result pyobj := get_or v k VNone.

(** [v == "s"] for a string literal *)
Definition eq_str (v : pyobj) (s : string) : bool :=
  match v with
  | VStr t => String.eqb t s
  | _ => false
  end.

Definition is_dict (v : pyobj) : bool :=
  match v with VDict _ => true | _ => false end.

Definition is_list (v : pyobj) : bool :=
  match v with VList _ => true | _ => false end.

Fixpoint chars (s : string) : list pyobj :=
  match s with
  | EmptyString => []
  | String c s' => VStr (str1 c) :: chars s'
  end.

(** The items a [for] loop or a comprehension draws from [v]: the elements
    of a list, the characters of a string, the keys of a dict. *)
Definition iterate (v : pyobj) : result (list pyobj) :=
  match v with
  | VList l => Ok l
  | VStr s => Ok (chars s)
  | VDict d => Ok (map (fun kv => VStr (fst kv)) d)
  | VNone | VBool _ | VInt _ => Raise TypeError
  end.

(** [v[0]] *)
Definition index0 (v : pyobj) : result pyobj :=
  match v with
  | VList (x :: _) => Ok x
  | VStr (String c _) => Ok (VStr (str1 c))
  | VList [] | VStr EmptyString => Raise IndexError
  | VDict _ => Raise KeyError
  | VNone | VBool _ | VInt _ => Raise TypeError
  end.

(** The items of [v[1:]], reached only after [v[0]] succeeded. *)
Definition slice_from1 (v : pyobj) : result (list pyobj) :=
  match v with
  | VList l => Ok (tl l)
  | VStr s => Ok (tl (chars s))
  | _ => Raise TypeError
  end.

(** [x in {"a", "b"}] hashes [x] first; a list or a dict cannot be hashed. *)
Definition in_strs (v : pyobj) (l : list string) : result bool :=
  match v with
  | VList _ | VDict _ => Raise TypeError
  | VStr s => Ok (existsb (String.eqb s) l)
  | _ => Ok false
  end.

(** [sep.join(items)]: every item must be a string. *)
Fixpoint as_strs (l : list pyobj) : result (list string) :=
  match l with
  | [] => Ok []
  | VStr s :: l' => ss <- as_strs l' ;; Ok (s :: ss)
  | _ :: _ => Raise TypeError
  end.

Definition py_join (sep : string) (l : list pyobj) : result string :=
  ss <- as_strs l ;; Ok (join sep ss).

(** [s + v] with [s] a string. *)
Definition str_add (s : string) (v : pyobj) : result string :=
  match v with
  | VStr t => Ok (s ++ t)
  | _ => Raise TypeError
  end.

(** [int(v)]: an int is itself, a bool is 0 or 1, a string is read in base
    ten (surrounding whitespace, a sign, digits with single underscores
    between them); anything else is a [TypeError].  The whitespace [int]
    skips leaves out the separators 28 to 31 that [str.isspace] accepts. *)
Definition is_int_space (c : ascii) : bool :=
  let n := nat_of_ascii c in
  ((9 <=? n) && (n <=? 13) || (n =? 32) || (n =? 133) || (n =? 160))%nat.

Definition is_digit (c : ascii) : bool :=
  let n := nat_of_ascii c in ((48 <=? n) && (n <=? 57))%nat.

Fixpoint parse_digits (s : string) (acc : Z) (after_digit : bool) : option Z :=
  match s with
  | EmptyString => if after_digit then Some acc else None
  | String c s' =>
      if is_digit c then
        parse_digits s' (10 * acc + Z.of_nat (nat_of_ascii c - 48))%Z true
      else if Ascii.eqb c "_" then
        if after_digit then parse_digits s' acc false else None
      else None
  end.

Definition parse_int (s : string) : option Z :=
  match rstrip_with is_int_space (lstrip_with is_int_space s) with
  | String "-" s' => option_map Z.opp (parse_digits s' 0%Z false)
  | String "+" s' => parse_digits s' 0%Z false
  | s' => parse_digits s' 0%Z false
  end.

Definition py_int (v : pyobj) : result Z :=
  match v with
  | VInt z => Ok z
  | VBool b => Ok (if b then 1 else 0)%Z
  | VStr s => match parse_int s with Some z => Ok z | None => Raise ValueError end
  | VNone | VList _ | VDict _ => Raise TypeError
  end.

(** [str(v)], which is also what an f-string puts in place of [{v}].
    A string inside a list or a dict is shown by [repr]. *)
Definition hex_digit (n : nat) : ascii :=
  if (n <? 10)%nat then chr (48 + n) else chr (87 + n).

Definition hex_escape (c : ascii) : string :=
  let n := nat_of_ascii c in
  String backslash (String "x" (String (hex_digit (n / 16)) (str1 (hex_digit (n mod 16))))).

Definition repr_char (quote c : ascii) : string :=
  let n := nat_of_ascii c in
  if Ascii.eqb c quote || Ascii.eqb c backslash then String backslash (str1 c)
  else if (n =? 9)%nat then String backslash "t"
  else if (n =? 10)%nat then String backslash "n"
  else if (n =? 13)%nat then String backslash "r"
  else if ((n <? 32) || (n =? 127))%nat then hex_escape c
  else if (n <? 127)%nat then str1 c
  else if ((n <=? 160) || (n =? 173))%nat then hex_escape c
  else str1 c.

Fixpoint has_char (c : ascii) (s : string) : bool :=
  match s with
  | EmptyString => false
  | String a s' => Ascii.eqb a c || has_char c s'
  end.

Fixpoint repr_chars (quote : ascii) (s : string) : string :=
  match s with
  | EmptyString => EmptyString
  | String c s' => repr_char quote c ++ repr_chars quote s'
  end.

Definition repr_str (s : string) : string :=
  let quote := if has_char "'" s && negb (has_char (chr 34) s) then chr 34 else "'"%char in
  String quote (repr_chars quote s ++ str1 quote).

Fixpoint repr (v : pyobj) : string :=
  match v with
  | VNone => "None"
  | VBool true => "True"
  | VBool false => "False"
  | VInt z => decimal z
  | VStr s => repr_str s
  | VList l => "[" ++ join ", " (map repr l) ++ "]"
  | VDict d =>
      "{" ++ join ", " (map (fun kv => let '(k, x) := kv in repr_str k ++ ": " ++ repr x) d) ++ "}"
  end.

Definition py_str (v : pyobj) : string :=
  match v with
  | VStr s => s
  | _ => repr v
  end.

(** ** Escaping and marks *)

Definition INDENT : string := "  ".

(** The replacements of [_escape_markdown] on a string: the backslash
    first, then each of the six characters in turn. *)
Definition escape_str (text : string) : string :=
  fold_left (fun escaped c => replace c (String backslash (str1 c)) escaped)
    [backtick; "*"; "_"; "~"; "["; "]"]%char
    (replace backslash (String backslash (str1 backslash)) text).

(** [text.replace] exists on strings only. *)
Definition _escape_markdown (text : pyobj) : result string :=
  match text with
  | VStr s => Ok (escape_str s)
  | _ => Raise AttributeError
  end.

(** [any(mark.get("type") == "code" for mark in marks)] *)
Fixpoint any_code_mark (marks : list pyobj) : result bool :=
  match marks with
  | [] => Ok false
  | mark :: marks' =>
      mark_type <- get mark "type" ;;
      if eq_str mark_type "code" then Ok true else any_code_mark marks'
  end.

(** One round of the loop [for mark in marks] of [_apply_marks]. *)
Definition wrap_mark (value : string) (mark_type : pyobj) : string :=
  if eq_str mark_type "strong" then "**" ++ value ++ "**"
  else if eq_str mark_type "em" then "*" ++ value ++ "*"
  else if eq_str mark_type "strike" then "~~" ++ value ++ "~~"
  else if eq_str mark_type "underline" then "<u>" ++ value ++ "</u>"
  else value.

Fixpoint wrap_marks (marks : list pyobj) (value : string) : result string :=
  match marks with
  | [] => Ok value
  | mark :: marks' =>
      mark_type <- get mark "type" ;;
      wrap_marks marks' (wrap_mark value mark_type)
  end.

(** [next((mark for mark in marks if mark.get("type") == "link"), None)] *)
Fixpoint first_link (marks : list pyobj) : result pyobj :=
  match marks with
  | [] => Ok VNone
  | mark :: marks' =>
      mark_type <- get mark "type" ;;
      if eq_str mark_type "link" then Ok mark else first_link marks'
  end.

(** The last step of [_apply_marks]: the first link mark wraps the whole
    value when it carries an href. *)
Definition apply_link (marks : list pyobj) (value : string) : result string :=
  link <- first_link marks ;;
  if truthy link then
    attrs <- get link "attrs" ;;
    href <- get (py_or attrs (VDict [])) "href" ;;
    if truthy href then Ok ("[" ++ value ++ "](" ++ py_str href ++ ")")
    else Ok value
  else Ok value.

Definition _apply_marks (text marks : pyobj) : result string :=
  if negb (truthy marks) then _escape_markdown text
  else
    ms <- iterate marks ;;
    code <- any_code_mark ms ;;
    if code then
      match text with
      | VStr s =>
          let escaped := replace backtick (String backslash (str1 backtick)) s in
          Ok (str1 backtick ++ escaped ++ str1 backtick)
      | _ => Raise AttributeError
      end
    else
      value <- _escape_markdown text ;;
      value <- wrap_marks ms value ;;
      apply_link ms value.

(** ** The renderer

    The methods of [_MarkdownRenderer] call each other through [self], and
    [_collect_text] calls itself.  The section stands for one renderer
    object: [self_render_block] and [self_render_inline] are its recursive
    methods and [collect_text] is the recursive [_collect_text]; all three
    are tied to the fuel below the section. *)

Definition last_line (lines : list string) : string := last lines "".

Definition set_last_line (lines : list string) (s : string) : list string :=
  (removelast lines ++ [s])%list.

(** [max(len(row) for row in rendered_rows)] *)
Definition max_len (rows : list (list string)) : nat :=
  fold_right (fun row m => Nat.max (List.length row) m) 0%nat rows.

Section Renderer.

Variable self_render_block : pyobj -> nat -> result (list pyobj).
Variable self_render_inline : pyobj -> result pyobj.
Variable collect_text : pyobj -> result pyobj.

(** The body of [_collect_text]. *)
Definition collect_text_body (node : pyobj) : result pyobj :=
  if negb (is_dict node) then Ok (VStr "")
  else
    node_type <- get node "type" ;;
    if eq_str node_type "text" then
      text <- get node "text" ;;
      Ok (py_or text (VStr ""))
    else if eq_str node_type "hardBreak" then Ok (VStr LF)
    else
      leaf <- in_strs node_type ["emoji"; "mention"] ;;
      if leaf then
        a <- get node "attrs" ;;
        let attrs := py_or a (VDict []) in
        text <- get attrs "text" ;;
        short_name <- get attrs "shortName" ;;
        Ok (py_or text (py_or short_name (VStr "")))
      else
        content <- get node "content" ;;
        match content with
        | VList children =>
            parts <- mapM collect_text children ;;
            text <- py_join "" parts ;;
            Ok (VStr text)
        | _ => Ok (VStr "")
        end.

(** The body of [_render_inline]. *)
Definition render_inline_body (node : pyobj) : result pyobj :=
  node_type <- get node "type" ;;
  if eq_str node_type "text" then
    text <- get node "text" ;;
    marks <- get node "marks" ;;
    s <- _apply_marks (py_or text (VStr "")) (py_or marks (VList [])) ;;
    Ok (VStr s)
  else if eq_str node_type "emoji" then
    a <- get node "attrs" ;;
    let attrs := py_or a (VDict []) in
    text <- get attrs "text" ;;
    short_name <- get attrs "shortName" ;;
    Ok (py_or text (py_or short_name (VStr "")))
  else if eq_str node_type "mention" then
    a <- get node "attrs" ;;
    let attrs := py_or a (VDict []) in
    text <- get attrs "text" ;;
    display_name <- get attrs "displayName" ;;
    id <- get attrs "id" ;;
    let text := py_or text (py_or display_name (py_or id (VStr ""))) in
    Ok (VStr (if truthy text then "@" ++ py_str text else ""))
  else if eq_str node_type "inlineCard" then
    a <- get node "attrs" ;;
    u <- get (py_or a (VDict [])) "url" ;;
    let url := py_or u (VStr "") in
    Ok (VStr (if truthy url then "<" ++ py_str url ++ ">" else ""))
  else if eq_str node_type "status" then
    a <- get node "attrs" ;;
    t <- get (py_or a (VDict [])) "text" ;;
    let text := py_or t (VStr "") in
    if truthy text then
      escaped <- _escape_markdown text ;;
      Ok (VStr (str1 backtick ++ escaped ++ str1 backtick))
    else Ok (VStr "")
  else if eq_str node_type "date" then
    a <- get node "attrs" ;;
    let attrs := py_or a (VDict []) in
    text <- get attrs "text" ;;
    timestamp <- get attrs "timestamp" ;;
    Ok (py_or text (py_or timestamp (VStr "")))
  else if eq_str node_type "hardBreak" then Ok (VStr "")
  else
    content <- get node "content" ;;
    match content with
    | VList children =>
        parts <- mapM self_render_inline children ;;
        text <- py_join "" parts ;;
        Ok (VStr text)
    | _ =>
        text <- get node "text" ;;
        if truthy text then Ok (VStr (escape_str (py_str text)))
        else
          a <- get node "attrs" ;;
          url <- get (py_or a (VDict [])) "url" ;;
          if truthy url then Ok (VStr ("<" ++ py_str url ++ ">"))
          else Ok (VStr "")
    end.

(** The loop of [_render_paragraph_lines] over the children, [lines]
    being the list built so far. *)
Fixpoint paragraph_loop (children : list pyobj) (lines : list string)
  : result (list string) :=
  match children with
  | [] => Ok lines
  | child :: children' =>
      child_type <- get child "type" ;;
      if eq_str child_type "hardBreak" then
        let lines := set_last_line lines (rstrip (last_line lines) ++ "  ") in
        paragraph_loop children' (lines ++ [""])%list
      else
        piece <- self_render_inline child ;;
        line <- str_add (last_line lines) piece ;;
        paragraph_loop children' (set_last_line lines line)
  end.

Definition _render_paragraph_lines (node : pyobj) : result (list string) :=
  content <- get node "content" ;;
  children <- iterate (py_or content (VList [])) ;;
  paragraph_loop children [""].

Definition _render_paragraph (node : pyobj) : result (list string) :=
  _render_paragraph_lines node.

Definition _render_heading (node : pyobj) : result string :=
  attrs <- get_or node "attrs" (VDict []) ;;
  level <- get_or attrs "level" (VInt 1) ;;
  level <- py_int level ;;
  let level := Z.max 1 (Z.min 6 level) in
  content <- get node "content" ;;
  children <- iterate (py_or content (VList [])) ;;
  parts <- mapM self_render_inline children ;;
  text <- py_join "" parts ;;
  Ok (rstrip (str_repeat "#" (Z.to_nat level) ++ " " ++ text)).

Definition _render_block_in_list
  (node : pyobj) (list_level : nat) (continuation_prefix : string)
  : result (list pyobj) :=
  node_type <- get node "type" ;;
  nested <- in_strs node_type ["bulletList"; "orderedList"] ;;
  if nested then self_render_block node (S list_level)
  else
    block_lines <- self_render_block node list_level ;;
    mapM (fun line => s <- str_add continuation_prefix line ;; Ok (VStr s))
      block_lines.

(** [for block in ...: lines.extend(self._render_block_in_list(block, ...))] *)
Fixpoint blocks_in_list
  (blocks : list pyobj) (list_level : nat) (continuation_prefix : string)
  : result (list pyobj) :=
  match blocks with
  | [] => Ok []
  | block :: blocks' =>
      lines <- _render_block_in_list block list_level continuation_prefix ;;
      more <- blocks_in_list blocks' list_level continuation_prefix ;;
      Ok (lines ++ more)%list
  end.

Definition _render_list_item
  (node : pyobj) (list_level : nat) (ordered : bool) (index : Z)
  : result (list pyobj) :=
  let indent := str_repeat INDENT list_level in
  let bullet := if ordered then decimal index ++ "." else "-" in
  let bullet_prefix := indent ++ bullet ++ " " in
  let continuation_prefix := str_repeat " " (String.length bullet_prefix) in
  c <- get node "content" ;;
  let content := py_or c (VList []) in
  if negb (truthy content) then Ok [VStr (rstrip bullet_prefix)]
  else
    first <- index0 content ;;
    first_type <- get first "type" ;;
    lines <-
      (if eq_str first_type "paragraph" then
         paragraph_lines <- _render_paragraph_lines first ;;
         match paragraph_lines with
         | line0 :: rest =>
             Ok (VStr (bullet_prefix ++ line0)
                   :: map (fun line => VStr (continuation_prefix ++ line)) rest)
         | [] => Ok [VStr (rstrip bullet_prefix)]
         end
       else
         more <- _render_block_in_list first list_level continuation_prefix ;;
         Ok (VStr (rstrip bullet_prefix) :: more)) ;;
    rest <- slice_from1 content ;;
    more <- blocks_in_list rest list_level continuation_prefix ;;
    Ok (lines ++ more)%list.

(** The loop of [_render_list] over the items, [index] being the number of
    the next item. *)
Fixpoint list_items
  (items : list pyobj) (list_level : nat) (ordered : bool) (index : Z)
  : result (list pyobj) :=
  match items with
  | [] => Ok []
  | item :: items' =>
      lines <- _render_list_item item list_level ordered index ;;
      more <- list_items items' list_level ordered
                (if ordered then index + 1 else index)%Z ;;
      Ok (lines ++ more)%list
  end.

Definition _render_list (node : pyobj) (list_level : nat) (ordered : bool)
  : result (list pyobj) :=
  attrs <- get_or node "attrs" (VDict []) ;;
  start <- get_or attrs "order" (VInt 1) ;;
  index <- (if ordered then py_int start else Ok 1%Z) ;;
  content <- get node "content" ;;
  items <- iterate (py_or content (VList [])) ;;
  list_items items list_level ordered index.

(** The loop shared by [render] and [_render_inner_blocks]: render each
    node, skip it when it gave no lines, else join its lines by a newline. *)
Fixpoint block_strings (nodes : list pyobj) (list_level : nat)
  : result (list string) :=
  match nodes with
  | [] => Ok []
  | node :: nodes' =>
      lines <- self_render_block node list_level ;;
      match lines with
      | [] => block_strings nodes' list_level
      | _ =>
          block <- py_join LF lines ;;
          blocks <- block_strings nodes' list_level ;;
          Ok (block :: blocks)
      end
  end.

Definition _render_inner_blocks (nodes : pyobj) (list_level : nat) (tight : bool)
  : result (list string) :=
  ns <- iterate nodes ;;
  blocks <- block_strings ns list_level ;;
  match blocks with
  | [] => Ok []
  | _ => Ok (splitlines (join (if tight then LF else LF ++ LF) blocks))
  end.

Definition quote_line (line : string) : string := rstrip ("> " ++ line).

Definition _render_blockquote (node : pyobj) (list_level : nat)
  : result (list string) :=
  content <- get node "content" ;;
  inner <- _render_inner_blocks (py_or content (VList [])) list_level false ;;
  match inner with
  | [] => Ok [">"]
  | _ => Ok (map quote_line inner)
  end.

Definition _render_panel (node : pyobj) (list_level : nat)
  : result (list string) :=
  a <- get node "attrs" ;;
  let attrs := py_or a (VDict []) in
  t <- get attrs "title" ;;
  let title :=
    if truthy t then "**" ++ escape_str (py_str t) ++ "** " else "" in
  content <- get node "content" ;;
  inner <- _render_inner_blocks (py_or content (VList [])) list_level false ;;
  match inner with
  | [] => Ok [rstrip ("> " ++ title)]
  | line0 :: rest =>
      let first :=
        if negb (is_empty title) then rstrip ("> " ++ title ++ line0)
        else rstrip ("> " ++ line0) in
      Ok (first :: map quote_line rest)
  end.

Definition _render_code_block (node : pyobj) : result (list string) :=
  a <- get node "attrs" ;;
  let attrs := py_or a (VDict []) in
  l <- get attrs "language" ;;
  let language := py_or l (VStr "") in
  code <- collect_text node ;;
  let fence := if truthy language then "```" ++ py_str language else "```" in
  match code with
  | VStr s =>
      let lines := match splitlines s with [] => [""] | ls => ls end in
      Ok (fence :: lines ++ ["```"])%list
  | _ => Raise AttributeError
  end.

Definition _render_cell (node : pyobj) : result (list string) :=
  content <- get node "content" ;;
  _render_inner_blocks (py_or content (VList [])) 0 true.

(** The inner loop of [_render_table] over the cells of one row; the
    boolean is [header_row]. *)
Fixpoint table_cells (cells : list pyobj) (header_row : bool)
  : result (list string * bool) :=
  match cells with
  | [] => Ok ([], header_row)
  | cell :: cells' =>
      cell_type <- get cell "type" ;;
      let header_row := eq_str cell_type "tableHeader" || header_row in
      cell_lines <- _render_cell cell ;;
      let rendered := strip (join "<br>" cell_lines) in
      rc <- table_cells cells' header_row ;;
      Ok (rendered :: fst rc, snd rc)
  end.

(** The outer loop of [_render_table] over the rows. *)
Fixpoint table_rows (rows : list pyobj) (header_row : bool)
  : result (list (list string) * bool) :=
  match rows with
  | [] => Ok ([], header_row)
  | row :: rows' =>
      c <- get row "content" ;;
      cells <- iterate (py_or c (VList [])) ;;
      rc <- table_cells cells header_row ;;
      rr <- table_rows rows' (snd rc) ;;
      Ok (fst rc :: fst rr, snd rr)
  end.

Definition pipe_line (cells : list string) : string :=
  "| " ++ join " | " cells ++ " |".

Definition pad_row (col_count : nat) (row : list string) : list string :=
  (row ++ repeat "" (col_count - List.length row))%list.

Definition _render_table (node : pyobj) : result (list string) :=
  c <- get node "content" ;;
  let rows := py_or c (VList []) in
  if negb (truthy rows) then Ok []
  else
    row_nodes <- iterate rows ;;
    rr <- table_rows row_nodes false ;;
    let '(rendered_rows, header_row) := rr in
    match rendered_rows with
    | [] => Ok []
    | first_row :: _ =>
        let col_count := max_len rendered_rows in
        let lines := [pipe_line (pad_row col_count first_row)] in
        let lines :=
          if header_row then (lines ++ [pipe_line (repeat "---" col_count)])%list
          else lines in
        Ok (lines ++ map (fun row => pipe_line (pad_row col_count row))
                       (if header_row then tl rendered_rows else rendered_rows))%list
    end.

(** The body of [_render_block]. *)
Definition render_block_body (node : pyobj) (list_level : nat)
  : result (list pyobj) :=
  node_type <- get node "type" ;;
  if eq_str node_type "paragraph" then
    lines <- _render_paragraph node ;; Ok (map VStr lines)
  else if eq_str node_type "heading" then
    line <- _render_heading node ;; Ok [VStr line]
  else if eq_str node_type "bulletList" then _render_list node list_level false
  else if eq_str node_type "orderedList" then _render_list node list_level true
  else if eq_str node_type "blockquote" then
    lines <- _render_blockquote node list_level ;; Ok (map VStr lines)
  else if eq_str node_type "panel" then
    lines <- _render_panel node list_level ;; Ok (map VStr lines)
  else if eq_str node_type "codeBlock" then
    lines <- _render_code_block node ;; Ok (map VStr lines)
  else if eq_str node_type "rule" then Ok [VStr "---"]
  else if eq_str node_type "table" then
    lines <- _render_table node ;; Ok (map VStr lines)
  else
    text <- collect_text node ;;
    Ok (if truthy text then [text] else []).

End Renderer.

(** One unit of fuel for each nested call of [_collect_text],
    [self._render_inline] and [self._render_block]. *)
Fixpoint _collect_text (fuel : nat) (node : pyobj) : result pyobj :=
  match fuel with
  | O => OutOfFuel
  | S fuel' => collect_text_body (_collect_text fuel') node
  end.

Fixpoint _render_inline (fuel : nat) (node : pyobj) : result pyobj :=
  match fuel with
  | O => OutOfFuel
  | S fuel' => render_inline_body (_render_inline fuel') node
  end.

Fixpoint _render_block (fuel : nat) (node : pyobj) (list_level : nat)
  : result (list pyobj) :=
  match fuel with
  | O => OutOfFuel
  | S fuel' =>
      render_block_body (_render_block fuel') (_render_inline fuel')
        (_collect_text fuel') node list_level
  end.

(** ** The entry point *)

Definition render (fuel : nat) (doc : pyobj) : result string :=
  content <- get doc "content" ;;
  nodes <- iterate (py_or content (VList [])) ;;
  blocks <- block_strings (_render_block fuel) nodes 0 ;;
  Ok (join (LF ++ LF) blocks).

(** [None] is [VNone]. *)
Definition _extract_doc (value : pyobj) : result pyobj :=
  if negb (is_dict value) then Ok VNone
  else
    value_type <- get value "type" ;;
    if eq_str value_type "doc" then Ok value
    else
      body <- get value "body" ;;
      body_doc <-
        (if is_dict body then t <- get body "type" ;; Ok (eq_str t "doc")
         else Ok false) ;;
      if body_doc then Ok body
      else
        description <- get value "description" ;;
        description_doc <-
          (if is_dict description then
             t <- get description "type" ;; Ok (eq_str t "doc")
           else Ok false) ;;
        if description_doc then Ok description
        else
          content <- get value "content" ;;
          versioned <-
            (if is_list content then
               version <- get value "version" ;;
               Ok (match version with VNone => false | _ => true end)
             else Ok false) ;;
          if versioned then Ok value else Ok VNone.

Definition render_markdown (fuel : nat) (value : pyobj) : result string :=
  doc <- _extract_doc value ;;
  if negb (truthy doc) then Ok "" else render fuel doc.

(** * Vocabulary of the statements *)

(** The type of a mark record and the two marks [_apply_marks] singles out. *)
Definition mark_type (mark : list (string * pyobj)) : pyobj := field mark "type".

Definition is_code_mark (mark : list (string * pyobj)) : bool :=
  eq_str (mark_type mark) "code".

Definition is_link_mark (mark : list (string * pyobj)) : bool :=
  eq_str (mark_type mark) "link".

(** Builders for the documents of the examples. *)
Definition a_node (type : string) (fields : list (string * pyobj)) : pyobj :=
  VDict (("type", VStr type) :: fields).

Definition a_mark (type : string) : pyobj := a_node type [].

Definition a_text (text : string) (marks : list pyobj) : pyobj :=
  a_node "text" [("text", VStr text); ("marks", VList marks)].

Definition with_content (type : string) (children : list pyobj) : pyobj :=
  a_node type [("content", VList children)].

(** The resolution order of document unwrapping, written after the spec's
    words (its section 4.1): a field of a value that is no record, or that
    lacks it, reads as [VNone]. *)
Definition member (v : pyobj) (k : string) : pyobj :=
  match v with VDict d => field d k | _ => VNone end.

Definition is_doc_node (v : pyobj) : bool :=
  is_dict v && eq_str (member v "type") "doc".

Definition is_none (v : pyobj) : bool :=
  match v with VNone => true | _ => false end.

Definition spec_unwrap (v : pyobj) : option pyobj :=
  if is_doc_node v then Some v
  else if is_doc_node (member v "body") then Some (member v "body")
  else if is_doc_node (member v "description") then Some (member v "description")
  else if is_list (member v "content") && negb (is_none (member v "version"))
  then Some v
  else None.

(** An inline child that is no hard break and renders to the string [s]. *)
Definition renders_inline_as (fuel : nat) (child : pyobj) (s : string) : Prop :=
  exists t, get child "type" = Ok t
            /\ eq_str t "hardBreak" = false
            /\ _render_inline fuel child = Ok (VStr s).

(** A paragraph that contributes no text: it has no content, or its children
    are no hard breaks and all render to the empty string. *)
Definition empty_paragraph (fuel : nat) (node : pyobj) : Prop :=
  exists d children,
    node = VDict d
    /\ field d "type" = VStr "paragraph"
    /\ py_or (field d "content") (VList []) = VList children
    /\ Forall (fun child => renders_inline_as fuel child "") children.

(** The items of a list with their numbers: [start] for the first one and
    one more for each successive item. *)
Fixpoint numbered (start : Z) (items : list pyobj) : list (Z * pyobj) :=
  match items with
  | [] => []
  | item :: items' => (start, item) :: numbered (start + 1) items'
  end.

Definition starts_with (prefix line : string) : Prop :=
  exists rest, line = prefix ++ rest.

(** Tables: what the statements say of cells and rows. *)
Definition is_header_cell (cell : pyobj) : bool :=
  eq_str (member cell "type") "tableHeader".

(** The cell renders, and [text] is what the table shows for it. *)
Definition renders_cell_as (fuel : nat) (cell : pyobj) (text : string) : Prop :=
  exists lines,
    _render_cell (_render_block fuel) cell = Ok lines
    /\ text = strip (join "<br>" lines).

Definition row_has_cells (row : pyobj) (cells : list pyobj) : Prop :=
  exists d, row = VDict d
            /\ iterate (py_or (field d "content") (VList [])) = Ok cells.

(** A row with its cells and their texts. *)
Definition renders_row_as (fuel : nat) (row : pyobj)
  (cells_texts : list pyobj * list string) : Prop :=
  row_has_cells row (fst cells_texts)
  /\ Forall2 (renders_cell_as fuel) (fst cells_texts) (snd cells_texts).

Definition has_header_cell (rows : list (list pyobj * list string)) : bool :=
  existsb (fun cells_texts => existsb is_header_cell (fst cells_texts)) rows.

(** Builders for the tables of the examples. *)
Definition a_cell (type text : string) : pyobj :=
  with_content type [with_content "paragraph" [a_text text []]].

Definition a_row (cells : list pyobj) : pyobj := with_content "tableRow" cells.

(** [r'] is [r] once [r] has not run out of fuel. *)
Definition refines {A : Type} (r r' : result A) : Prop :=
  r = OutOfFuel \/ r = r'.

(** The call has an outcome: a value or an exception. *)
Definition settled {A : Type} (r : result A) : Prop := r <> OutOfFuel.

(** The nesting depth of a value. *)
Fixpoint depth (v : pyobj) : nat :=
  match v with
  | VList l => S (fold_right (fun x m => Nat.max (depth x) m) 0%nat l)
  | VDict d => S (fold_right (fun kv m => Nat.max (depth (snd kv)) m) 0%nat d)
  | _ => 0%nat
  end.

(** Escaping, read character by character. *)
Definition is_markdown_special (c : ascii) : bool :=
  existsb (Ascii.eqb c) [backslash; backtick; "*"; "_"; "~"; "["; "]"]%char.

Definition escape_char (c : ascii) : string :=
  if is_markdown_special c then String backslash (str1 c) else str1 c.

Fixpoint flat_map_chars (f : ascii -> string) (s : string) : string :=
  match s with
  | EmptyString => EmptyString
  | String c s' => f c ++ flat_map_chars f s'
  end.

(** Reading escaped text back, as Markdown does: a backslash makes the next
    character literal; a special character without one, or a backslash at
    the end, is not plain text. *)
Fixpoint read_escaped (s : string) : option string :=
  match s with
  | EmptyString => Some EmptyString
  | String c rest =>
      if Ascii.eqb c backslash then
        match rest with
        | String d rest' => option_map (String d) (read_escaped rest')
        | EmptyString => None
        end
      else if is_markdown_special c then None
      else option_map (String c) (read_escaped rest)
  end.

(** A string without any line boundary of [str.splitlines]. *)
Fixpoint single_line (s : string) : bool :=
  match s with
  | EmptyString => true
  | String c s' => negb (is_linebreak c) && single_line s'
  end.

(** A line that starts with the quote sign and ends in no whitespace. *)
Definition quote_start (line : pyobj) : Prop :=
  exists s, line = VStr (">" ++ s) /\ rstrip (">" ++ s) = ">" ++ s.

(** A quoted line: a quote start that holds no line boundary. *)
Definition quoted_line (line : pyobj) : Prop :=
  exists s, line = VStr (">" ++ s)
            /\ rstrip (">" ++ s) = ">" ++ s
            /\ single_line (">" ++ s) = true.

(** What [_collect_text] takes from a child of a code block: the text of a
    text node as it is, a newline for a hard break. *)
Definition collects_as (child : pyobj) (text : string) : Prop :=
  exists d,
    child = VDict d
    /\ ((field d "type" = VStr "text" /\ py_or (field d "text") (VStr "") = VStr text)
        \/ (field d "type" = VStr "hardBreak" /\ text = LF)).

(** The two list types, and a line indented for a nesting level. *)
Definition is_list_type (t : pyobj) : bool :=
  eq_str t "bulletList" || eq_str t "orderedList".

Definition indented (list_level : nat) (line : pyobj) : Prop :=
  exists s, line = VStr (str_repeat INDENT list_level ++ s).

(** Hard breaks among the children of a paragraph, and a line that one of
    them ended: text without trailing whitespace, then the two spaces. *)
Definition is_hard_break (child : pyobj) : bool :=
  eq_str (member child "type") "hardBreak".

Definition broken_line (line : string) : Prop :=
  exists s, line = s ++ "  " /\ rstrip s = s.

(** * The callers: fetch_comments.py

    [fetch_comments] pages through the comments of an issue and renders
    the body of each one.  The network is a parameter: [request_json n url]
    stands for the [n]-th call [_request_json("GET", url, auth_header)] of a
    run, which returns the decoded JSON value or raises [RuntimeError];
    [quote] stands for [urllib.parse.quote]. *)

Inductive failure : Type :=
| Raised (e : exn)
| RuntimeError (message : string).

(** The outcome of a caller: a value, a failure, or a loop still running
    when the fuel is spent. *)
Inductive outcome (A : Type) : Type :=
| Returned (a : A)
| Failed (f : failure)
| Unfinished.

Arguments Returned {A} a.
Arguments Failed {A} f.
Arguments Unfinished {A}.

Definition and_then {A B : Type} (m : outcome A) (k : A -> outcome B) : outcome B :=
  match m with
  | Returned a => k a
  | Failed f => Failed f
  | Unfinished => Unfinished
  end.

Definition lift {A : Type} (r : result A) : outcome A :=
  match r with
  | Ok a => Returned a
  | Raise e => Failed (Raised e)
  | OutOfFuel => Unfinished
  end.

Notation "x <~ m ;; k" := (and_then m (fun x => k))
  (at level 61, m at next level, right associativity).

(** [a == b] *)
Fixpoint py_eq (a b : pyobj) : bool :=
  match a, b with
  | VNone, VNone => true
  | VBool x, VBool y => Bool.eqb x y
  | VBool x, VInt y => ((if x then 1 else 0) =? y)%Z
  | VInt x, VBool y => (x =? (if y then 1 else 0))%Z
  | VInt x, VInt y => (x =? y)%Z
  | VStr s, VStr t => String.eqb s t
  | VList la, VList lb =>
      (fix all_eq (la lb : list pyobj) : bool :=
         match la, lb with
         | [], [] => true
         | x :: la', y :: lb' => py_eq x y && all_eq la' lb'
         | _, _ => false
         end) la lb
  | VDict da, VDict db =>
      (List.length da =? List.length db)%nat
      && forallb (fun kv => match lookup (fst kv) db with
                            | Some w => py_eq (snd kv) w
                            | None => false
                            end) da
  | _, _ => false
  end.

(** The number a bool or an int stands for in arithmetic. *)
Definition as_number (v : pyobj) : option Z :=
  match v with
  | VInt z => Some z
  | VBool b => Some (if b then 1 else 0)%Z
  | _ => None
  end.

(** [a + b] *)
Definition py_add (a b : pyobj) : result pyobj :=
  match as_number a, as_number b with
  | Some x, Some y => Ok (VInt (x + y))
  | _, _ =>
      match a, b with
      | VStr s, VStr t => Ok (VStr (s ++ t))
      | VList la, VList lb => Ok (VList (la ++ lb))
      | _, _ => Raise TypeError
      end
  end.

(** [a += b]: as [a + b], except that a list is extended by the items of
    any iterable. *)
Definition py_iadd (a b : pyobj) : result pyobj :=
  match a with
  | VList la => items <- iterate b ;; Ok (VList (la ++ items))
  | _ => py_add a b
  end.

(** [s >= t] on strings, by code points. *)
Fixpoint str_ge (s t : string) : bool :=
  match s, t with
  | _, EmptyString => true
  | EmptyString, String _ _ => false
  | String a s', String b t' =>
      if Ascii.eqb a b then str_ge s' t'
      else (nat_of_ascii b <? nat_of_ascii a)%nat
  end.

(** [a >= b] *)
Fixpoint py_ge (a b : pyobj) : result bool :=
  match as_number a, as_number b with
  | Some x, Some y => Ok (y <=? x)%Z
  | _, _ =>
      match a, b with
      | VStr s, VStr t => Ok (str_ge s t)
      | VList la, VList lb =>
          (fix list_ge (la lb : list pyobj) : result bool :=
             match la, lb with
             | _, [] => Ok true
             | [], _ :: _ => Ok false
             | x :: la', y :: lb' =>
                 if py_eq x y then list_ge la' lb' else py_ge x y
             end) la lb
      | _, _ => Raise TypeError
      end
  end.

Section FetchComments.

Variable request_json : nat -> string -> outcome pyobj.
Variable quote : string -> string.

(** The dict [fetch_comments] appends for one comment. *)
Definition comment_record (render_fuel : nat) (comment : pyobj) : result pyobj :=
  a <- get comment "author" ;;
  let author := py_or a (VDict []) in
  id <- get comment "id" ;;
  display_name <- get author "displayName" ;;
  account_id <- get author "accountId" ;;
  created <- get comment "created" ;;
  updated <- get comment "updated" ;;
  body <- get comment "body" ;;
  body_markdown <- render_markdown render_fuel body ;;
  Ok (VDict [("id", id);
             ("author", VDict [("displayName", display_name);
                               ("accountId", account_id)]);
             ("created", created);
             ("updated", updated);
             ("body_markdown", VStr body_markdown)]).

(** [for comment in data.get("comments") or []: comments.append(...)] *)
Definition page_records (render_fuel : nat) (data : pyobj) : result (list pyobj) :=
  c <- get data "comments" ;;
  page <- iterate (py_or c (VList [])) ;;
  mapM (comment_record render_fuel) page.

(** The [while True] loop of [fetch_comments]; [served] counts the requests
    made so far. *)
Fixpoint fetch_comments_loop
  (fuel render_fuel : nat) (base_url encoded_key : string)
  (served : nat) (comments : list pyobj) (start_at max_results : pyobj)
  : outcome (list pyobj) :=
  match fuel with
  | O => Unfinished
  | S fuel' =>
      let url :=
        base_url ++ "/rest/api/3/issue/" ++ encoded_key ++ "/comment"
        ++ "?startAt=" ++ py_str start_at
        ++ "&maxResults=" ++ py_str max_results in
      data <~ request_json served url ;;
      records <~ lift (page_records render_fuel data) ;;
      let comments := (comments ++ records)%list in
      total <~ lift (get data "total") ;;
      start_at <~ lift (get_or data "startAt" start_at) ;;
      max_results <~ lift (get_or data "maxResults" max_results) ;;
      if is_none total then Returned comments
      else
        reach <~ lift (py_add start_at max_results) ;;
        last_page <~ lift (py_ge reach total) ;;
        if last_page then Returned comments
        else
          start_at <~ lift (py_iadd start_at max_results) ;;
          fetch_comments_loop fuel' render_fuel base_url encoded_key
            (S served) comments start_at max_results
  end.

Definition fetch_comments
  (fuel render_fuel : nat) (base_url issue_key : string) : outcome (list pyobj) :=
  fetch_comments_loop fuel render_fuel base_url (quote issue_key)
    0 [] (VInt 0) (VInt 100).

End FetchComments.

(** The URL of one page of comments, and a response that serves a page:
    its comments, the total, and the window it covers. *)
Definition comments_url
  (base_url encoded_key : string) (start_at max_results : Z) : string :=
  base_url ++ "/rest/api/3/issue/" ++ encoded_key ++ "/comment"
  ++ "?startAt=" ++ decimal start_at ++ "&maxResults=" ++ decimal max_results.

Definition serves_page
  (data : pyobj) (page : list pyobj) (total start_at max_results : Z) : Prop :=
  exists d,
    data = VDict d
    /\ field d "comments" = VList page
    /\ field d "total" = VInt total
    /\ field d "startAt" = VInt start_at
    /\ field d "maxResults" = VInt max_results.

(** The page size [fetch_comments] asks for: 100 at first, then what the
    server answered. *)
Definition asked (page_size : Z) (served : nat) : Z :=
  match served with O => 100%Z | S _ => page_size end.

(** A small server for the examples: three comments in pages of two. *)
Definition a_comment (id : string) (body : pyobj) : pyobj :=
  VDict [("id", VStr id);
         ("author", VDict [("displayName", VStr "Ada"); ("accountId", VStr "a1")]);
         ("created", VStr "2024-01-01"); ("updated", VStr "2024-01-02");
         ("body", body)].

Definition a_record (id body_markdown : string) : pyobj :=
  VDict [("id", VStr id);
         ("author", VDict [("displayName", VStr "Ada"); ("accountId", VStr "a1")]);
         ("created", VStr "2024-01-01"); ("updated", VStr "2024-01-02");
         ("body_markdown", VStr body_markdown)].

Definition a_page (page : list pyobj) (total start_at max_results : Z) : pyobj :=
  VDict [("startAt", VInt start_at); ("maxResults", VInt max_results);
         ("total", VInt total); ("comments", VList page)].

Definition a_body (text : string) : pyobj :=
  with_content "doc" [with_content "paragraph" [a_text text []]].

Definition example_pages : list (list pyobj) :=
  [[a_comment "1" (a_body "one"); a_comment "2" VNone];
   [a_comment "3" (a_body "three")]].

Definition example_server (pages : list (list pyobj)) (served : nat) (url : string)
  : outcome pyobj :=
  match nth_error pages served with
  | Some page =>
      if String.eqb url
           (comments_url "https://jira.test" "ABC-1" (Z.of_nat served * 2)
              (asked 2 served))
      then Returned (a_page page 3 (Z.of_nat served * 2) 2)
      else Failed (RuntimeError "HTTP 404")
  | None => Failed (RuntimeError "HTTP 404")
  end.

(** A page with a comment whose body cannot be rendered, and a server that
    reports the same window whatever it is asked. *)
Definition a_broken_body : pyobj :=
  with_content "doc" [a_node "heading" [("attrs", VNone)]].

Definition broken_pages : list (list pyobj) :=
  [[a_comment "1" (a_body "one"); a_comment "2" VNone];
   [a_comment "3" a_broken_body]].

Definition stuck_server (served : nat) (url : string) : outcome pyobj :=
  Returned (a_page [a_comment "1" (a_body "one")] 3 0 1).

(** * The renderer with the store explicit

    A second embedding of [jira.py], for the statements about state.  The
    values are Python's: a list or a dict is an object in a store and a value
    only refers to it, so two values can share an object and a change made
    through one is seen through the other.  Every list and dict the code
    creates ([[]], [{}], a comprehension, a slice, [a + b], [splitlines()])
    is a new object of the store, [append], [extend], [lines[-1] = ...] and
    [+=] on a list change an object in place, and [_MarkdownRenderer()]
    creates a renderer with its own, empty, attributes.  The functions are
    those of the first embedding, statement by statement, with the store
    threaded through them; strings and numbers are immutable and stay
    values.  The code of the module and its constant [INDENT] are not part
    of the store: nothing in the repository assigns them.

    A [for] loop or a comprehension reads the items of its list when it
    starts; Python reads them one at a time, which differs only when the
    body changes the list it runs over. *)

Module Store.

Inductive val : Type :=
| HNone
| HBool (b : bool)
| HInt (z : Z)
| HStr (s : string)
| HRef (a : nat).

Inductive obj : Type :=
| OList (items : list val)
| ODict (bindings : list (string * val)).

(** The objects by address, and the attributes of each renderer created. *)
Record store : Type := {
  objects : list obj;
  renderers : list (list (string * val))
}.

(** A statement: it runs in a store and leaves a store, also when it
    raises. *)
Definition M (A : Type) : Type := store -> result A * store.

Definition ret {A : Type} (a : A) : M A := fun s => (Ok a, s).

Definition bind {A B : Type} (m : M A) (k : A -> M B) : M B :=
  fun s =>
    match m s with
    | (Ok a, s') => k a s'
    | (Raise e, s') => (Raise e, s')
    | (OutOfFuel, s') => (OutOfFuel, s')
    end.

Notation "x <-- m ;; k" := (bind m (fun x => k))
  (at level 61, m at next level, right associativity).

(** A step that looks at the objects and changes nothing. *)
Definition reading {A : Type} (f : list obj -> result A) : M A :=
  fun s => (f (objects s), s).

(** A step that does not depend on the store. *)
Definition pure {A : Type} (r : result A) : M A := fun s => (r, s).

(** A new object, at the next free address. *)
Definition new (o : obj) : M val :=
  fun s =>
    (Ok (HRef (List.length (objects s))),
     {| objects := objects s ++ [o]; renderers := renderers s |}).

Fixpoint update (a : nat) (o : obj) (h : list obj) : list obj :=
  match h, a with
  | [], _ => []
  | _ :: h', O => o :: h'
  | x :: h', S a' => x :: update a' o h'
  end.

(** The object at [a] changed in place. *)
Definition write (a : nat) (o : obj) : M unit :=
  fun s =>
    (Ok tt, {| objects := update a o (objects s); renderers := renderers s |}).

(** [_MarkdownRenderer()]: the class defines no [__init__], so the new
    renderer has no attributes. *)
Definition new_renderer : M nat :=
  fun s =>
    (Ok (List.length (renderers s)),
     {| objects := objects s; renderers := renderers s ++ [[]] |}).

(** ** Builtins on values in a store

    A reference to an address the store does not hold cannot arise in
    Python; the operations treat it as an object without methods. *)

Definition list_at (h : list obj) (v : val) : option (list val) :=
  match v with
  | HRef a => match nth_error h a with Some (OList items) => Some items | _ => None end
  | _ => None
  end.

Definition dict_at (h : list obj) (v : val) : option (list (string * val)) :=
  match v with
  | HRef a => match nth_error h a with Some (ODict d) => Some d | _ => None end
  | _ => None
  end.

Definition truthy_in (h : list obj) (v : val) : bool :=
  match v with
  | HNone => false
  | HBool b => b
  | HInt z => negb (z =? 0)%Z
  | HStr s => negb (is_empty s)
  | HRef a =>
      match nth_error h a with
      | Some (OList []) | Some (ODict []) => false
      | _ => true
      end
  end.

Definition truthy (v : val) : M bool := reading (fun h => Ok (truthy_in h v)).

(** [x or y] with [y] a value. *)
Definition or_val (x y : val) : M val :=
  reading (fun h => Ok (if truthy_in h x then x else y)).

(** [x or []] and [x or {}]: the new object is created only when [x] is
    falsy. *)
Definition or_new (x : val) (o : obj) : M val :=
  fun s => if truthy_in (objects s) x then (Ok x, s) else new o s.

Fixpoint lookup (k : string) (d : list (string * val)) : option val :=
  match d with
  | [] => None
  | (k', v) :: d' => if String.eqb k k' then Some v else lookup k d'
  end.

Definition field_or (d : list (string * val)) (k : string) (default : val) : val :=
  match lookup k d with Some x => x | None => default end.

Definition get_or_in (h : list obj) (v : val) (k : string) (default : val)
  : result val :=
  match dict_at h v with
  | Some d => Ok (field_or d k default)
  | None => Raise AttributeError
  end.

(** [v.get(k, default)] and [v.get(k)] *)
Definition get_or (v : val) (k : string) (default : val) : M val :=
  reading (fun h => get_or_in h v k default).

Definition get (v : val) (k : string) : M val := get_or v k HNone.

(** [v.get(k, {})]: the method is looked up before the argument [{}] is
    created. *)
Definition get_or_new (v : val) (k : string) (o : obj) : M val :=
  _ <-- get v k ;;
  default <-- new o ;;
  get_or v k default.

Definition eq_str (v : val) (s : string) : bool :=
  match v with
  | HStr t => String.eqb t s
  | _ => false
  end.

Definition is_dict (v : val) : M bool :=
  reading (fun h => Ok (match dict_at h v with Some _ => true | None => false end)).

Definition is_list (v : val) : M bool :=
  reading (fun h => Ok (match list_at h v with Some _ => true | None => false end)).

Fixpoint chars (s : string) : list val :=
  match s with
  | EmptyString => []
  | String c s' => HStr (str1 c) :: chars s'
  end.

Definition iterate_in (h : list obj) (v : val) : result (list val) :=
  match v with
  | HStr s => Ok (chars s)
  | HRef a =>
      match nth_error h a with
      | Some (OList items) => Ok items
      | Some (ODict d) => Ok (map (fun kv => HStr (fst kv)) d)
      | None => Raise TypeError
      end
  | HNone | HBool _ | HInt _ => Raise TypeError
  end.

Definition iterate (v : val) : M (list val) := reading (fun h => iterate_in h v).

(** [v[0]] *)
Definition index0 (v : val) : M val :=
  reading (fun h =>
    match v with
    | HStr (String c _) => Ok (HStr (str1 c))
    | HStr EmptyString => Raise IndexError
    | HRef a =>
        match nth_error h a with
        | Some (OList (x :: _)) => Ok x
        | Some (OList []) => Raise IndexError
        | Some (ODict _) => Raise KeyError
        | None => Raise TypeError
        end
    | HNone | HBool _ | HInt _ => Raise TypeError
    end).

Definition tail (s : string) : string :=
  match s with EmptyString => EmptyString | String _ s' => s' end.

(** [v[n:]]: a slice of a list is a new list. *)
Definition slice_from (n : nat) (v : val) : M val :=
  fun s =>
    match v with
    | HStr t => (Ok (HStr (Nat.iter n tail t)), s)
    | _ =>
        match list_at (objects s) v with
        | Some items => new (OList (skipn n items)) s
        | None => (Raise TypeError, s)
        end
    end.

(** [x in {"a", "b"}] hashes [x] first; a list or a dict cannot be hashed. *)
Definition in_strs (v : val) (l : list string) : M bool :=
  reading (fun h =>
    match v with
    | HStr s => Ok (existsb (String.eqb s) l)
    | HRef a => match nth_error h a with Some _ => Raise TypeError | None => Ok false end
    | _ => Ok false
    end).

(** [len(v)] *)
Definition py_len (v : val) : M nat :=
  reading (fun h =>
    match v with
    | HStr s => Ok (String.length s)
    | HRef a =>
        match nth_error h a with
        | Some (OList items) => Ok (List.length items)
        | Some (ODict d) => Ok (List.length d)
        | None => Raise TypeError
        end
    | HNone | HBool _ | HInt _ => Raise TypeError
    end).

(** [sep.join(...)]: every item must be a string. *)
Fixpoint as_strs (l : list val) : result (list string) :=
  match l with
  | [] => Ok []
  | HStr s :: l' => ss <- as_strs l' ;; Ok (s :: ss)
  | _ :: _ => Raise TypeError
  end.

(** [sep.join(parts)] for the items a generator gave. *)
Definition join_parts (sep : string) (parts : list val) : result string :=
  ss <- as_strs parts ;; Ok (join sep ss).

(** [sep.join(v)] *)
Definition py_join (sep : string) (v : val) : M string :=
  reading (fun h => items <- iterate_in h v ;; join_parts sep items).

(** [s + v] with [s] a string. *)
Definition str_add (s : string) (v : val) : result string :=
  match v with
  | HStr t => Ok (s ++ t)
  | _ => Raise TypeError
  end.

(** [int(v)] *)
Definition py_int (v : val) : result Z :=
  match v with
  | HInt z => Ok z
  | HBool b => Ok (if b then 1 else 0)%Z
  | HStr s => match parse_int s with Some z => Ok z | None => Raise ValueError end
  | HNone | HRef _ => Raise TypeError
  end.

(** [a + b] on two lists: a new list. *)
Definition list_add (a b : val) : M val :=
  fun s =>
    match list_at (objects s) a, list_at (objects s) b with
    | Some xs, Some ys => new (OList (xs ++ ys)) s
    | _, _ => (Raise TypeError, s)
    end.

(** [[x] * n] *)
Definition list_repeat (x : val) (n : nat) : M val := new (OList (repeat x n)).

(** [l.append(x)] *)
Definition append (l x : val) : M unit :=
  fun s =>
    match l with
    | HRef a =>
        match nth_error (objects s) a with
        | Some (OList items) => write a (OList (items ++ [x])) s
        | _ => (Raise AttributeError, s)
        end
    | _ => (Raise AttributeError, s)
    end.

(** [l.extend(v)] *)
Definition extend (l v : val) : M unit :=
  fun s =>
    match l with
    | HRef a =>
        match nth_error (objects s) a with
        | Some (OList items) =>
            match iterate_in (objects s) v with
            | Ok more => write a (OList (items ++ more)) s
            | Raise e => (Raise e, s)
            | OutOfFuel => (OutOfFuel, s)
            end
        | _ => (Raise AttributeError, s)
        end
    | _ => (Raise AttributeError, s)
    end.

(** [l[-1]] *)
Definition last_item (l : val) : M val :=
  reading (fun h =>
    match l with
    | HStr s =>
        match s with
        | EmptyString => Raise IndexError
        | _ => Ok (HStr (Nat.iter (String.length s - 1) tail s))
        end
    | HRef a =>
        match nth_error h a with
        | Some (OList items) =>
            match items with
            | [] => Raise IndexError
            | x :: _ => Ok (last items x)
            end
        | Some (ODict _) => Raise KeyError
        | None => Raise TypeError
        end
    | HNone | HBool _ | HInt _ => Raise TypeError
    end).

(** [l[-1] = x] *)
Definition set_last (l x : val) : M unit :=
  fun s =>
    match l with
    | HRef a =>
        match nth_error (objects s) a with
        | Some (OList items) =>
            match items with
            | [] => (Raise IndexError, s)
            | _ => write a (OList (removelast items ++ [x])) s
            end
        | Some (ODict d) => (Raise TypeError, s)
        | None => (Raise TypeError, s)
        end
    | _ => (Raise TypeError, s)
    end.

(** [a += b]: a string or a number gives a new value, a list is extended in
    place by the items of [b]. *)
Definition iadd (a b : val) : M val :=
  match a with
  | HStr s => pure (t <- str_add s b ;; Ok (HStr t))
  | HInt _ | HBool _ =>
      let number v :=
        match v with
        | HInt z => Some z
        | HBool c => Some (if c then 1 else 0)%Z
        | _ => None
        end in
      match number a, number b with
      | Some x, Some y => ret (HInt (x + y))
      | _, _ => pure (Raise TypeError)
      end
  | HNone => pure (Raise TypeError)
  | HRef _ =>
      l <-- is_list a ;;
      if l then _ <-- extend a b ;; ret a else pure (Raise TypeError)
  end.

(** [s.rstrip()] and [s.splitlines()] exist on strings only; the list of
    lines is a new list. *)
Definition rstrip_of (v : val) : result string :=
  match v with
  | HStr s => Ok (rstrip s)
  | _ => Raise AttributeError
  end.

Definition splitlines_of (v : val) : M val :=
  match v with
  | HStr s => new (OList (map HStr (splitlines s)))
  | _ => pure (Raise AttributeError)
  end.

(** [repr(v)]: a list or a dict that contains itself is shown as [[...]]
    or [{...}]; [active] are the objects being shown.  The walk cannot be
    deeper than the store has objects, which is the fuel [py_str] gives
    it. *)
Fixpoint repr_in (fuel : nat) (h : list obj) (active : list nat) (v : val)
  : result string :=
  match v with
  | HNone => Ok "None"
  | HBool true => Ok "True"
  | HBool false => Ok "False"
  | HInt z => Ok (decimal z)
  | HStr s => Ok (repr_str s)
  | HRef a =>
      match nth_error h a with
      | Some (OList items) =>
          if existsb (Nat.eqb a) active then Ok "[...]"
          else
            match fuel with
            | O => OutOfFuel
            | S fuel' =>
                parts <- mapM (repr_in fuel' h (a :: active)) items ;;
                Ok ("[" ++ join ", " parts ++ "]")
            end
      | Some (ODict d) =>
          if existsb (Nat.eqb a) active then Ok "{...}"
          else
            match fuel with
            | O => OutOfFuel
            | S fuel' =>
                parts <-
                  mapM (fun kv =>
                          x <- repr_in fuel' h (a :: active) (snd kv) ;;
                          Ok (repr_str (fst kv) ++ ": " ++ x)) d ;;
                Ok ("{" ++ join ", " parts ++ "}")
            end
      | None => Raise TypeError
      end
  end.

(** [str(v)], which is also what an f-string puts in place of [{v}]. *)
Definition py_str (v : val) : M string :=
  reading (fun h =>
    match v with
    | HStr s => Ok s
    | _ => repr_in (List.length h) h [] v
    end).

Fixpoint map_m {A B : Type} (f : A -> M B) (l : list A) : M (list B) :=
  match l with
  | [] => ret []
  | a :: l' => b <-- f a ;; bs <-- map_m f l' ;; ret (b :: bs)
  end.

(** A [for] loop over the items read from its list. *)
Fixpoint for_each {A : Type} (l : list A) (body : A -> M unit) : M unit :=
  match l with
  | [] => ret tt
  | a :: l' => _ <-- body a ;; for_each l' body
  end.

(** ** Escaping and marks *)

Definition _escape_markdown (text : val) : result string :=
  match text with
  | HStr s => Ok (escape_str s)
  | _ => Raise AttributeError
  end.

Fixpoint any_code_mark (marks : list val) : M bool :=
  match marks with
  | [] => ret false
  | mark :: marks' =>
      mark_type <-- get mark "type" ;;
      if eq_str mark_type "code" then ret true else any_code_mark marks'
  end.

Definition wrap_mark (value : string) (mark_type : val) : string :=
  if eq_str mark_type "strong" then "**" ++ value ++ "**"
  else if eq_str mark_type "em" then "*" ++ value ++ "*"
  else if eq_str mark_type "strike" then "~~" ++ value ++ "~~"
  else if eq_str mark_type "underline" then "<u>" ++ value ++ "</u>"
  else value.

Fixpoint wrap_marks (marks : list val) (value : string) : M string :=
  match marks with
  | [] => ret value
  | mark :: marks' =>
      mark_type <-- get mark "type" ;;
      wrap_marks marks' (wrap_mark value mark_type)
  end.

Fixpoint first_link (marks : list val) : M val :=
  match marks with
  | [] => ret HNone
  | mark :: marks' =>
      mark_type <-- get mark "type" ;;
      if eq_str mark_type "link" then ret mark else first_link marks'
  end.

Definition apply_link (marks : list val) (value : string) : M string :=
  link <-- first_link marks ;;
  is_link <-- truthy link ;;
  if is_link then
    a <-- get link "attrs" ;;
    attrs <-- or_new a (ODict []) ;;
    href <-- get attrs "href" ;;
    has_href <-- truthy href ;;
    if has_href then
      target <-- py_str href ;;
      ret ("[" ++ value ++ "](" ++ target ++ ")")
    else ret value
  else ret value.

Definition _apply_marks (text marks : val) : M string :=
  some <-- truthy marks ;;
  if negb some then pure (_escape_markdown text)
  else
    ms <-- iterate marks ;;
    code <-- any_code_mark ms ;;
    if code then
      match text with
      | HStr s =>
          let escaped := replace backtick (String backslash (str1 backtick)) s in
          ret (str1 backtick ++ escaped ++ str1 backtick)
      | _ => pure (Raise AttributeError)
      end
    else
      value <-- pure (_escape_markdown text) ;;
      value <-- wrap_marks ms value ;;
      apply_link ms value.

(** ** The renderer

    [self] is the renderer the methods are called on; as in the first
    embedding the recursive methods and [_collect_text] are variables of
    the section, tied to the fuel below it. *)

Section Renderer.

Variable self : nat.
Variable self_render_block : val -> nat -> M val.
Variable self_render_inline : val -> M val.
Variable collect_text : val -> M val.

Definition collect_text_body (node : val) : M val :=
  d <-- is_dict node ;;
  if negb d then ret (HStr "")
  else
    node_type <-- get node "type" ;;
    if eq_str node_type "text" then
      text <-- get node "text" ;;
      or_val text (HStr "")
    else if eq_str node_type "hardBreak" then ret (HStr LF)
    else
      leaf <-- in_strs node_type ["emoji"; "mention"] ;;
      if leaf then
        a <-- get node "attrs" ;;
        attrs <-- or_new a (ODict []) ;;
        text <-- get attrs "text" ;;
        short_name <-- get attrs "shortName" ;;
        rest <-- or_val short_name (HStr "") ;;
        or_val text rest
      else
        content <-- get node "content" ;;
        l <-- is_list content ;;
        if l then
          children <-- iterate content ;;
          parts <-- map_m collect_text children ;;
          text <-- pure (join_parts "" parts) ;;
          ret (HStr text)
        else ret (HStr "").

Definition render_inline_body (node : val) : M val :=
  node_type <-- get node "type" ;;
  if eq_str node_type "text" then
    t <-- get node "text" ;;
    text <-- or_val t (HStr "") ;;
    m <-- get node "marks" ;;
    marks <-- or_new m (OList []) ;;
    s <-- _apply_marks text marks ;;
    ret (HStr s)
  else if eq_str node_type "emoji" then
    a <-- get node "attrs" ;;
    attrs <-- or_new a (ODict []) ;;
    text <-- get attrs "text" ;;
    short_name <-- get attrs "shortName" ;;
    rest <-- or_val short_name (HStr "") ;;
    or_val text rest
  else if eq_str node_type "mention" then
    a <-- get node "attrs" ;;
    attrs <-- or_new a (ODict []) ;;
    text <-- get attrs "text" ;;
    display_name <-- get attrs "displayName" ;;
    id <-- get attrs "id" ;;
    rest <-- or_val id (HStr "") ;;
    rest <-- or_val display_name rest ;;
    text <-- or_val text rest ;;
    named <-- truthy text ;;
    if named then shown <-- py_str text ;; ret (HStr ("@" ++ shown))
    else ret (HStr "")
  else if eq_str node_type "inlineCard" then
    a <-- get node "attrs" ;;
    attrs <-- or_new a (ODict []) ;;
    u <-- get attrs "url" ;;
    url <-- or_val u (HStr "") ;;
    linked <-- truthy url ;;
    if linked then shown <-- py_str url ;; ret (HStr ("<" ++ shown ++ ">"))
    else ret (HStr "")
  else if eq_str node_type "status" then
    a <-- get node "attrs" ;;
    attrs <-- or_new a (ODict []) ;;
    t <-- get attrs "text" ;;
    text <-- or_val t (HStr "") ;;
    labelled <-- truthy text ;;
    if labelled then
      escaped <-- pure (_escape_markdown text) ;;
      ret (HStr (str1 backtick ++ escaped ++ str1 backtick))
    else ret (HStr "")
  else if eq_str node_type "date" then
    a <-- get node "attrs" ;;
    attrs <-- or_new a (ODict []) ;;
    text <-- get attrs "text" ;;
    timestamp <-- get attrs "timestamp" ;;
    rest <-- or_val timestamp (HStr "") ;;
    or_val text rest
  else if eq_str node_type "hardBreak" then ret (HStr "")
  else
    content <-- get node "content" ;;
    l <-- is_list content ;;
    if l then
      children <-- iterate content ;;
      parts <-- map_m self_render_inline children ;;
      text <-- pure (join_parts "" parts) ;;
      ret (HStr text)
    else
      text <-- get node "text" ;;
      has_text <-- truthy text ;;
      if has_text then shown <-- py_str text ;; ret (HStr (escape_str shown))
      else
        a <-- get node "attrs" ;;
        attrs <-- or_new a (ODict []) ;;
        url <-- get attrs "url" ;;
        has_url <-- truthy url ;;
        if has_url then shown <-- py_str url ;; ret (HStr ("<" ++ shown ++ ">"))
        else ret (HStr "").

(** One round of the loop of [_render_paragraph_lines]; in
    [lines[-1] += ...] the item is read before the call. *)
Definition paragraph_step (lines child : val) : M unit :=
  child_type <-- get child "type" ;;
  if eq_str child_type "hardBreak" then
    cur <-- last_item lines ;;
    stripped <-- pure (rstrip_of cur) ;;
    _ <-- set_last lines (HStr (stripped ++ "  ")) ;;
    append lines (HStr "")
  else
    cur <-- last_item lines ;;
    piece <-- self_render_inline child ;;
    line <-- iadd cur piece ;;
    set_last lines line.

Definition _render_paragraph_lines (node : val) : M val :=
  lines <-- new (OList [HStr ""]) ;;
  c <-- get node "content" ;;
  content <-- or_new c (OList []) ;;
  children <-- iterate content ;;
  _ <-- for_each children (paragraph_step lines) ;;
  ret lines.

Definition _render_paragraph (node : val) : M val :=
  _render_paragraph_lines node.

Definition _render_heading (node : val) : M string :=
  attrs <-- get_or_new node "attrs" (ODict []) ;;
  level <-- get_or attrs "level" (HInt 1) ;;
  level <-- pure (py_int level) ;;
  let level := Z.max 1 (Z.min 6 level) in
  c <-- get node "content" ;;
  content <-- or_new c (OList []) ;;
  children <-- iterate content ;;
  parts <-- map_m self_render_inline children ;;
  text <-- pure (join_parts "" parts) ;;
  ret (rstrip (str_repeat "#" (Z.to_nat level) ++ " " ++ text)).

Definition _render_block_in_list
  (node : val) (list_level : nat) (continuation_prefix : string) : M val :=
  node_type <-- get node "type" ;;
  nested <-- in_strs node_type ["bulletList"; "orderedList"] ;;
  if nested then self_render_block node (S list_level)
  else
    block_lines <-- self_render_block node list_level ;;
    items <-- iterate block_lines ;;
    prefixed <--
      pure (mapM
              (fun line => s <- str_add continuation_prefix line ;; Ok (HStr s))
              items) ;;
    new (OList prefixed).

Definition _render_list_item
  (node : val) (list_level : nat) (ordered : bool) (index : Z) : M val :=
  let indent := str_repeat INDENT list_level in
  let bullet := if ordered then decimal index ++ "." else "-" in
  let bullet_prefix := indent ++ bullet ++ " " in
  let continuation_prefix := str_repeat " " (String.length bullet_prefix) in
  c <-- get node "content" ;;
  content <-- or_new c (OList []) ;;
  some <-- truthy content ;;
  if negb some then new (OList [HStr (rstrip bullet_prefix)])
  else
    lines <-- new (OList []) ;;
    first <-- index0 content ;;
    first_type <-- get first "type" ;;
    _ <--
      (if eq_str first_type "paragraph" then
         paragraph_lines <-- _render_paragraph_lines first ;;
         any <-- truthy paragraph_lines ;;
         if any then
           line0 <-- index0 paragraph_lines ;;
           s <-- pure (str_add bullet_prefix line0) ;;
           _ <-- append lines (HStr s) ;;
           rest <-- slice_from 1 paragraph_lines ;;
           more <-- iterate rest ;;
           for_each more (fun line =>
             s <-- pure (str_add continuation_prefix line) ;;
             append lines (HStr s))
         else append lines (HStr (rstrip bullet_prefix))
       else
         _ <-- append lines (HStr (rstrip bullet_prefix)) ;;
         block_lines <-- _render_block_in_list first list_level continuation_prefix ;;
         extend lines block_lines) ;;
    rest <-- slice_from 1 content ;;
    blocks <-- iterate rest ;;
    _ <-- for_each blocks (fun block =>
            block_lines <-- _render_block_in_list block list_level continuation_prefix ;;
            extend lines block_lines) ;;
    ret lines.

(** The loop of [_render_list], [index] being the number of the next
    item. *)
Fixpoint list_items
  (lines : val) (items : list val) (list_level : nat) (ordered : bool) (index : Z)
  : M unit :=
  match items with
  | [] => ret tt
  | item :: items' =>
      item_lines <-- _render_list_item item list_level ordered index ;;
      _ <-- extend lines item_lines ;;
      list_items lines items' list_level ordered
        (if ordered then index + 1 else index)%Z
  end.

Definition _render_list (node : val) (list_level : nat) (ordered : bool) : M val :=
  lines <-- new (OList []) ;;
  attrs <-- get_or_new node "attrs" (ODict []) ;;
  start <-- get_or attrs "order" (HInt 1) ;;
  index <-- pure (if ordered then py_int start else Ok 1%Z) ;;
  c <-- get node "content" ;;
  content <-- or_new c (OList []) ;;
  items <-- iterate content ;;
  _ <-- list_items lines items list_level ordered index ;;
  ret lines.

(** One round of the loop shared by [render] and [_render_inner_blocks]. *)
Definition block_step (blocks : val) (list_level : nat) (node : val) : M unit :=
  lines <-- self_render_block node list_level ;;
  any <-- truthy lines ;;
  if negb any then ret tt
  else
    block <-- py_join LF lines ;;
    append blocks (HStr block).

Definition _render_inner_blocks (nodes : val) (list_level : nat) (tight : bool)
  : M val :=
  blocks <-- new (OList []) ;;
  ns <-- iterate nodes ;;
  _ <-- for_each ns (block_step blocks list_level) ;;
  any <-- truthy blocks ;;
  if negb any then new (OList [])
  else
    joined <-- py_join (if tight then LF else LF ++ LF) blocks ;;
    splitlines_of (HStr joined).

(** [f"> {line}".rstrip()] *)
Definition quote_item (line : val) : M val :=
  shown <-- py_str line ;;
  ret (HStr (rstrip ("> " ++ shown))).

Definition _render_blockquote (node : val) (list_level : nat) : M val :=
  c <-- get node "content" ;;
  content <-- or_new c (OList []) ;;
  inner <-- _render_inner_blocks content list_level false ;;
  any <-- truthy inner ;;
  if negb any then new (OList [HStr ">"])
  else
    lines <-- iterate inner ;;
    quoted <-- map_m quote_item lines ;;
    new (OList quoted).

Definition _render_panel (node : val) (list_level : nat) : M val :=
  a <-- get node "attrs" ;;
  attrs <-- or_new a (ODict []) ;;
  t <-- get attrs "title" ;;
  titled <-- truthy t ;;
  title <--
    (if titled then
       shown <-- py_str t ;;
       ret ("**" ++ escape_str shown ++ "** ")
     else ret "") ;;
  c <-- get node "content" ;;
  content <-- or_new c (OList []) ;;
  inner <-- _render_inner_blocks content list_level false ;;
  any <-- truthy inner ;;
  if negb any then new (OList [HStr (rstrip ("> " ++ title))])
  else
    line0 <-- index0 inner ;;
    shown <-- py_str line0 ;;
    first <--
      new (OList [HStr (if negb (is_empty title)
                        then rstrip ("> " ++ title ++ shown)
                        else rstrip ("> " ++ shown))]) ;;
    tail_lines <-- slice_from 1 inner ;;
    lines <-- iterate tail_lines ;;
    quoted <-- map_m quote_item lines ;;
    rest <-- new (OList quoted) ;;
    list_add first rest.

Definition _render_code_block (node : val) : M val :=
  a <-- get node "attrs" ;;
  attrs <-- or_new a (ODict []) ;;
  l <-- get attrs "language" ;;
  language <-- or_val l (HStr "") ;;
  code <-- collect_text node ;;
  named <-- truthy language ;;
  fence <--
    (if named then shown <-- py_str language ;; ret ("```" ++ shown)
     else ret "```") ;;
  split <-- splitlines_of code ;;
  lines <-- or_new split (OList [HStr ""]) ;;
  items <-- iterate lines ;;
  new (OList (HStr fence :: items ++ [HStr "```"])).

Definition _render_cell (node : val) : M val :=
  c <-- get node "content" ;;
  content <-- or_new c (OList []) ;;
  _render_inner_blocks content 0 true.

(** The inner loop of [_render_table] over the cells of one row; the
    boolean is [header_row]. *)
Fixpoint table_cells (rendered_cells : val) (cells : list val) (header_row : bool)
  : M bool :=
  match cells with
  | [] => ret header_row
  | cell :: cells' =>
      cell_type <-- get cell "type" ;;
      let header_row := eq_str cell_type "tableHeader" || header_row in
      cell_lines <-- _render_cell cell ;;
      joined <-- py_join "<br>" cell_lines ;;
      _ <-- append rendered_cells (HStr (strip joined)) ;;
      table_cells rendered_cells cells' header_row
  end.

(** The outer loop of [_render_table] over the rows. *)
Fixpoint table_rows (rendered_rows : val) (rows : list val) (header_row : bool)
  : M bool :=
  match rows with
  | [] => ret header_row
  | row :: rows' =>
      c <-- get row "content" ;;
      content <-- or_new c (OList []) ;;
      rendered_cells <-- new (OList []) ;;
      cells <-- iterate content ;;
      header_row <-- table_cells rendered_cells cells header_row ;;
      _ <-- append rendered_rows rendered_cells ;;
      table_rows rendered_rows rows' header_row
  end.

(** ["| " + " | ".join(row + [""] * (col_count - len(row))) + " |"] *)
Definition padded_line (col_count : nat) (row : val) : M val :=
  n <-- py_len row ;;
  padding <-- list_repeat (HStr "") (col_count - n) ;;
  padded <-- list_add row padding ;;
  joined <-- py_join " | " padded ;;
  ret (HStr ("| " ++ joined ++ " |")).

Definition _render_table (node : val) : M val :=
  c <-- get node "content" ;;
  rows <-- or_new c (OList []) ;;
  some <-- truthy rows ;;
  if negb some then new (OList [])
  else
    rendered_rows <-- new (OList []) ;;
    row_nodes <-- iterate rows ;;
    header_row <-- table_rows rendered_rows row_nodes false ;;
    any <-- truthy rendered_rows ;;
    if negb any then new (OList [])
    else
      rs <-- iterate rendered_rows ;;
      lens <-- map_m py_len rs ;;
      col_count <--
        pure (match lens with
              | [] => Raise ValueError
              | _ => Ok (fold_right Nat.max 0%nat lens)
              end) ;;
      first_row <-- index0 rendered_rows ;;
      line0 <-- padded_line col_count first_row ;;
      lines <-- new (OList [line0]) ;;
      _ <--
        (if header_row then
           dashes <-- list_repeat (HStr "---") col_count ;;
           joined <-- py_join " | " dashes ;;
           append lines (HStr ("| " ++ joined ++ " |"))
         else ret tt) ;;
      body <-- slice_from (if header_row then 1 else 0) rendered_rows ;;
      body_rows <-- iterate body ;;
      _ <-- for_each body_rows (fun row =>
              line <-- padded_line col_count row ;;
              append lines line) ;;
      ret lines.

Definition render_block_body (node : val) (list_level : nat) : M val :=
  node_type <-- get node "type" ;;
  if eq_str node_type "paragraph" then _render_paragraph node
  else if eq_str node_type "heading" then
    line <-- _render_heading node ;; new (OList [HStr line])
  else if eq_str node_type "bulletList" then _render_list node list_level false
  else if eq_str node_type "orderedList" then _render_list node list_level true
  else if eq_str node_type "blockquote" then _render_blockquote node list_level
  else if eq_str node_type "panel" then _render_panel node list_level
  else if eq_str node_type "codeBlock" then _render_code_block node
  else if eq_str node_type "rule" then new (OList [HStr "---"])
  else if eq_str node_type "table" then _render_table node
  else
    text <-- collect_text node ;;
    some <-- truthy text ;;
    if some then new (OList [text]) else new (OList []).

(** [render], given the renderer's [_render_block]. *)
Definition render_body (doc : val) : M string :=
  blocks <-- new (OList []) ;;
  c <-- get doc "content" ;;
  content <-- or_new c (OList []) ;;
  nodes <-- iterate content ;;
  _ <-- for_each nodes (block_step blocks 0) ;;
  py_join (LF ++ LF) blocks.

End Renderer.

Fixpoint _collect_text (fuel : nat) (node : val) : M val :=
  match fuel with
  | O => pure OutOfFuel
  | S fuel' => collect_text_body (_collect_text fuel') node
  end.

Fixpoint _render_inline (fuel : nat) (self : nat) (node : val) : M val :=
  match fuel with
  | O => pure OutOfFuel
  | S fuel' => render_inline_body (_render_inline fuel' self) node
  end.

Fixpoint _render_block (fuel : nat) (self : nat) (node : val) (list_level : nat)
  : M val :=
  match fuel with
  | O => pure OutOfFuel
  | S fuel' =>
      render_block_body (_render_block fuel' self) (_render_inline fuel' self)
        (_collect_text fuel') node list_level
  end.

Definition render (fuel : nat) (self : nat) (doc : val) : M string :=
  render_body (_render_block fuel self) doc.

Definition _extract_doc (value : val) : M val :=
  d <-- is_dict value ;;
  if negb d then ret HNone
  else
    value_type <-- get value "type" ;;
    if eq_str value_type "doc" then ret value
    else
      body <-- get value "body" ;;
      body_dict <-- is_dict body ;;
      body_doc <--
        (if body_dict then t <-- get body "type" ;; ret (eq_str t "doc")
         else ret false) ;;
      if body_doc then ret body
      else
        description <-- get value "description" ;;
        description_dict <-- is_dict description ;;
        description_doc <--
          (if description_dict then
             t <-- get description "type" ;; ret (eq_str t "doc")
           else ret false) ;;
        if description_doc then ret description
        else
          content <-- get value "content" ;;
          content_list <-- is_list content ;;
          versioned <--
            (if content_list then
               version <-- get value "version" ;;
               ret (match version with HNone => false | _ => true end)
             else ret false) ;;
          if versioned then ret value else ret HNone.

Definition render_markdown (fuel : nat) (value : val) : M string :=
  doc <-- _extract_doc value ;;
  some <-- truthy doc ;;
  if negb some then ret ""
  else
    renderer <-- new_renderer ;;
    render fuel renderer doc.

End Store.

(** ** What a store holds *)

(** The value [v] stands for in the objects [h], when what it reaches is a
    finite tree: the value [json.loads] would have built it from. *)
Fixpoint represents (h : list Store.obj) (v : Store.val) (p : pyobj) {struct p}
  : Prop :=
  match p with
  | VNone => v = Store.HNone
  | VBool b => v = Store.HBool b
  | VInt z => v = Store.HInt z
  | VStr s => v = Store.HStr s
  | VList l =>
      exists a items,
        v = Store.HRef a /\ nth_error h a = Some (Store.OList items)
        /\ (fix each (l : list pyobj) (items : list Store.val) {struct l} : Prop :=
              match l, items with
              | [], [] => True
              | y :: l', x :: items' => represents h x y /\ each l' items'
              | _, _ => False
              end) l items
  | VDict d =>
      exists a bindings,
        v = Store.HRef a /\ nth_error h a = Some (Store.ODict bindings)
        /\ (fix each (d : list (string * pyobj))
                     (bindings : list (string * Store.val)) {struct d} : Prop :=
              match d, bindings with
              | [], [] => True
              | ky :: d', kx :: bindings' =>
                  fst kx = fst ky /\ represents h (snd kx) (snd ky)
                  /\ each d' bindings'
              | _, _ => False
              end) d bindings
  end.

(** Every object and every renderer of [s] is in [s'], as it was. *)
Definition unchanged (s s' : Store.store) : Prop :=
  (forall a o, nth_error (Store.objects s) a = Some o ->
               nth_error (Store.objects s') a = Some o)
  /\ (forall r attrs, nth_error (Store.renderers s) r = Some attrs ->
                      nth_error (Store.renderers s') r = Some attrs).

(** Building in a store the objects of a value, as [json.loads] does. *)
Fixpoint place (p : pyobj) (h : list Store.obj) : Store.val * list Store.obj :=
  match p with
  | VNone => (Store.HNone, h)
  | VBool b => (Store.HBool b, h)
  | VInt z => (Store.HInt z, h)
  | VStr s => (Store.HStr s, h)
  | VList l =>
      let '(items, h') :=
        fold_left (fun acc x =>
                     let '(items, h) := acc in
                     let '(v, h') := place x h in
                     ((items ++ [v])%list, h'))
          l ([], h) in
      (Store.HRef (List.length h'), (h' ++ [Store.OList items])%list)
  | VDict d =>
      let '(bindings, h') :=
        fold_left (fun acc kv =>
                     let '(bindings, h) := acc in
                     let '(v, h') := place (snd kv) h in
                     ((bindings ++ [(fst kv, v)])%list, h'))
          d ([], h) in
      (Store.HRef (List.length h'), (h' ++ [Store.ODict bindings])%list)
  end.

(** The store that holds the objects of [p] after those of [h], and no
    renderer. *)
Definition loaded (p : pyobj) (h : list Store.obj) : Store.store :=
  {| Store.objects := snd (place p h); Store.renderers := [] |}.

(** A document with a paragraph, a list and a table. *)
Definition a_document : pyobj :=
  with_content "doc"
    [with_content "paragraph" [a_text "a_b" [a_mark "em"]; a_node "hardBreak" []];
     with_content "bulletList"
       [with_content "listItem" [with_content "paragraph" [a_text "item" []]]];
     with_content "table"
       [with_content "tableRow"
          [with_content "tableHeader" [with_content "paragraph" [a_text "h" []]]];
        with_content "tableRow"
          [with_content "tableCell" [with_content "paragraph" [a_text "c" []]]]]].

(** ** Comparing the two embeddings *)

(** The outcome [r] of a statement against the outcome [p] of its
    counterpart on values: the same exception, or results related by [R]. *)
Definition agrees {A B : Type} (R : A -> B -> Prop) (r : result A) (p : result B)
  : Prop :=
  match p with
  | Ok b => exists a, r = Ok a /\ R a b
  | Raise e => r = Raise e
  | OutOfFuel => r = OutOfFuel
  end.

(** From [s] to [s'] only the objects at the addresses [own] may have
    changed. *)
Definition frame (own : list nat) (s s' : Store.store) : Prop :=
  (forall b o, ~ In b own -> nth_error (Store.objects s) b = Some o ->
               nth_error (Store.objects s') b = Some o)
  /\ (forall r attrs, nth_error (Store.renderers s) r = Some attrs ->
                      nth_error (Store.renderers s') r = Some attrs).

(** Run in [s], the statement [m] changes at most the objects at [own] and
    its outcome is that of [p]. *)
Definition simulates {A B : Type} (own : list nat)
  (R : Store.store -> A -> B -> Prop) (m : Store.M A) (p : result B)
  (s : Store.store) : Prop :=
  exists r s', m s = (r, s') /\ frame own s s' /\ agrees (R s') r p.

(** A statement that leaves the store as it is, with the outcome of [p]. *)
Definition reads {A B : Type} (R : A -> B -> Prop) (m : Store.M A) (p : result B)
  (s : Store.store) : Prop :=
  exists r, m s = (r, s) /\ agrees R r p.

(** [v] stands for [p] in the objects [hk], or is an empty list or dict
    made since. *)
Definition stands (hk : list Store.obj) (s : Store.store) (v : Store.val) (p : pyobj)
  : Prop :=
  represents hk v p
  \/ exists n,
       v = Store.HRef n
       /\ ((p = VList [] /\ nth_error (Store.objects s) n = Some (Store.OList []))
           \/ (p = VDict [] /\ nth_error (Store.objects s) n = Some (Store.ODict []))).

(** A binding of a dict in the store against a binding of the value it
    stands for. *)
Definition same_binding (h : list Store.obj)
  (kx : string * Store.val) (ky : string * pyobj) : Prop :=
  fst kx = fst ky /\ represents h (snd kx) (snd ky).

(** What [v] is in the store [s] when it stands for [p]: the same atom, or
    a reference to a list or dict of [s] whose parts stand for those of
    [p] in [hk]. *)
Inductive shape (hk : list Store.obj) (s : Store.store) : Store.val -> pyobj -> Prop :=
| shape_none : shape hk s Store.HNone VNone
| shape_bool (b : bool) : shape hk s (Store.HBool b) (VBool b)
| shape_int (z : Z) : shape hk s (Store.HInt z) (VInt z)
| shape_str (t : string) : shape hk s (Store.HStr t) (VStr t)
| shape_list (a : nat) (items : list Store.val) (l : list pyobj) :
    nth_error (Store.objects s) a = Some (Store.OList items) ->
    Forall2 (represents hk) items l ->
    shape hk s (Store.HRef a) (VList l)
| shape_dict (a : nat) (bindings : list (string * Store.val))
    (d : list (string * pyobj)) :
    nth_error (Store.objects s) a = Some (Store.ODict bindings) ->
    Forall2 (same_binding hk) bindings d ->
    shape hk s (Store.HRef a) (VDict d).

(** [v] is a list made since [s], whose items stand for [lines] in [hk]. *)
Definition lines_of (hk : list Store.obj) (s s' : Store.store)
  (v : Store.val) (lines : list pyobj) : Prop :=
  exists b items,
    v = Store.HRef b
    /\ nth_error (Store.objects s) b = None
    /\ nth_error (Store.objects s') b = Some (Store.OList items)
    /\ Forall2 (represents hk) items lines.

(** [v] is a list made since [s] that holds the strings [lines]. *)
Definition strings_of (s s' : Store.store) (v : Store.val) (lines : list string)
  : Prop :=
  exists b,
    v = Store.HRef b
    /\ nth_error (Store.objects s) b = None
    /\ nth_error (Store.objects s') b = Some (Store.OList (map Store.HStr lines)).

(** The values [refs] are lists of [s] that hold the strings of [rows]. *)
Definition lists_hold (s : Store.store) (refs : list Store.val)
  (rows : list (list string)) : Prop :=
  Forall2 (fun ref cells =>
             exists b, ref = Store.HRef b
                       /\ nth_error (Store.objects s) b
                          = Some (Store.OList (map Store.HStr cells)))
    refs rows.

(** [s1] is [s] with the object at [a] replaced by [o]. *)
Definition rewrites (a : nat) (o : Store.obj) (s s1 : Store.store) : Prop :=
  nth_error (Store.objects s1) a = Some o
  /\ (forall b, b <> a -> nth_error (Store.objects s1) b = nth_error (Store.objects s) b)
  /\ Store.renderers s1 = Store.renderers s.

(** * Properties *)

(** ** Mark composition *)

Lemma get_dict (d : list (string * pyobj)) (k : string) :
  get (VDict d) k = Ok (field d k).
Proof. reflexivity. Qed.

Lemma any_code_mark_dicts (marks : list (list (string * pyobj))) :
  any_code_mark (map VDict marks) = Ok (existsb is_code_mark marks).
Proof.
  induction marks as [|d ms IH]; [reflexivity|].
  cbn [map any_code_mark existsb]. rewrite get_dict. cbn [bind].
  unfold is_code_mark at 1, mark_type.
  destruct (eq_str (field d "type") "code"); [reflexivity|exact IH].
Qed.

Lemma wrap_marks_dicts (marks : list (list (string * pyobj))) (value : string) :
  wrap_marks (map VDict marks) value
  = Ok (fold_left wrap_mark (map mark_type marks) value).
Proof.
  revert value. induction marks as [|d ms IH]; intro value; [reflexivity|].
  cbn [map wrap_marks fold_left]. rewrite get_dict. cbn [bind]. apply IH.
Qed.

Lemma apply_marks_no_code (text : string) (marks : list (list (string * pyobj))) :
  existsb is_code_mark marks = false ->
  _apply_marks (VStr text) (VList (map VDict marks))
  = apply_link (map VDict marks)
      (fold_left wrap_mark (map mark_type marks) (escape_str text)).
Proof.
  intro Hcode. unfold _apply_marks.
  destruct marks as [|d ms]; [reflexivity|].
  change (truthy (VList (map VDict (d :: ms)))) with true.
  cbn [negb iterate bind].
  rewrite any_code_mark_dicts, Hcode. cbn [bind _escape_markdown].
  rewrite wrap_marks_dicts. reflexivity.
Qed.

Lemma any_code_mark_found
  (before : list (list (string * pyobj))) (mark : list (string * pyobj))
  (after : list pyobj) :
  is_code_mark mark = true ->
  any_code_mark (map VDict before ++ VDict mark :: after)%list = Ok true.
Proof.
  intro Hmark. induction before as [|d ds IH].
  - cbn [map app any_code_mark]. rewrite get_dict. cbn [bind].
    unfold is_code_mark, mark_type in Hmark. now rewrite Hmark.
  - cbn [map app any_code_mark]. rewrite get_dict. cbn [bind].
    destruct (eq_str (field d "type") "code"); [reflexivity|exact IH].
Qed.

Lemma apply_marks_code
  (text : string) (before : list (list (string * pyobj)))
  (mark : list (string * pyobj)) (after : list pyobj) :
  is_code_mark mark = true ->
  _apply_marks (VStr text) (VList (map VDict before ++ VDict mark :: after)%list)
  = Ok (str1 backtick
        ++ replace backtick (String backslash (str1 backtick)) text
        ++ str1 backtick).
Proof.
  intro Hmark. unfold _apply_marks.
  assert (Htruthy : truthy (VList (map VDict before ++ VDict mark :: after)%list) = true)
    by (destruct before; reflexivity).
  rewrite Htruthy. cbn [negb iterate bind].
  now rewrite any_code_mark_found.
Qed.

(** The head of [_render_inline] on a text node. *)
Lemma render_inline_text (fuel : nat) (node : list (string * pyobj)) :
  field node "type" = VStr "text" ->
  _render_inline (S fuel) (VDict node)
  = (s <- _apply_marks (py_or (field node "text") (VStr ""))
            (py_or (field node "marks") (VList [])) ;;
     Ok (VStr s)).
Proof.
  intro Htype. cbn [_render_inline]. unfold render_inline_body.
  rewrite !get_dict. cbn [bind]. rewrite Htype. reflexivity.
Qed.

Lemma apply_link_no_link (marks : list (list (string * pyobj))) (value : string) :
  existsb is_link_mark marks = false ->
  apply_link (map VDict marks) value = Ok value.
Proof.
  intro Hlink. unfold apply_link.
  assert (Hfirst : first_link (map VDict marks) = Ok VNone).
  { induction marks as [|d ms IH]; [reflexivity|].
    cbn [existsb] in Hlink. apply orb_false_iff in Hlink. destruct Hlink as [Hd Hms].
    cbn [map first_link]. rewrite get_dict. cbn [bind].
    unfold is_link_mark, mark_type in Hd. rewrite Hd. now apply IH. }
  now rewrite Hfirst.
Qed.

(** C1, as the code has it: without a code mark, the marks of a text node
    wrap the escaped text one after the other in the order of the node's
    marks list, the first mark innermost; the link step comes last, and
    without a link mark the wrapped text is the result. *)
Theorem text_marks_in_source_order
  (fuel : nat) (node : list (string * pyobj)) (text : string)
  (marks : list (list (string * pyobj))) :
  field node "type" = VStr "text" ->
  py_or (field node "text") (VStr "") = VStr text ->
  field node "marks" = VList (map VDict marks) ->
  existsb is_code_mark marks = false ->
  let wrapped := fold_left wrap_mark (map mark_type marks) (escape_str text) in
  _render_inline (S fuel) (VDict node)
  = (s <- apply_link (map VDict marks) wrapped ;; Ok (VStr s))
  /\ (existsb is_link_mark marks = false ->
      _render_inline (S fuel) (VDict node) = Ok (VStr wrapped)).
Proof.
  intros Htype Htext Hmarks Hcode wrapped.
  assert (Hrender : _render_inline (S fuel) (VDict node)
                    = (s <- apply_link (map VDict marks) wrapped ;; Ok (VStr s))).
  { rewrite (render_inline_text fuel node Htype), Htext, Hmarks.
    replace (py_or (VList (map VDict marks)) (VList []))
      with (VList (map VDict marks)) by (destruct marks; reflexivity).
    now rewrite apply_marks_no_code. }
  split; [exact Hrender|].
  intro Hlink. now rewrite Hrender, apply_link_no_link.
Qed.

Lemma text_marks_in_source_order_witness :
  _render_inline 1 (a_text "a*b" [a_mark "strike"; a_mark "strong"; a_mark "mystery"])
  = Ok (VStr "**~~a\*b~~**").
Proof.
  apply (proj2 (text_marks_in_source_order 0
                  [("type", VStr "text"); ("text", VStr "a*b");
                   ("marks",
                    VList [a_mark "strike"; a_mark "strong"; a_mark "mystery"])]
                  "a*b"
                  [[("type", VStr "strike")]; [("type", VStr "strong")];
                   [("type", VStr "mystery")]]
                  eq_refl eq_refl eq_refl eq_refl)
           eq_refl).
Defined.

(** C1 as stated fails: the two orders of the same two marks differ. *)
Lemma marks_order_counterexample :
  _render_inline 1 (a_text "text" [a_mark "strike"; a_mark "strong"])
  = Ok (VStr "**~~text~~**")
  /\ _render_inline 1 (a_text "text" [a_mark "strong"; a_mark "strike"])
     = Ok (VStr "~~**text**~~")
  /\ _render_inline 1 (a_text "text" [a_mark "strike"; a_mark "strong"])
     <> _render_inline 1 (a_text "text" [a_mark "strong"; a_mark "strike"]).
Proof.
  split; [reflexivity|]. split; [reflexivity|]. discriminate.
Qed.

(** C9: a code mark anywhere in the marks list of a text node gives the raw
    text with its backticks escaped, between single backticks; no other
    mark of the list, a link included, adds anything. *)
Theorem code_mark_overrides_link
  (fuel : nat) (node : list (string * pyobj)) (text : string)
  (before : list (list (string * pyobj))) (mark : list (string * pyobj))
  (after : list pyobj) :
  field node "type" = VStr "text" ->
  py_or (field node "text") (VStr "") = VStr text ->
  field node "marks" = VList (map VDict before ++ VDict mark :: after)%list ->
  is_code_mark mark = true ->
  _render_inline (S fuel) (VDict node)
  = Ok (VStr (str1 backtick
              ++ replace backtick (String backslash (str1 backtick)) text
              ++ str1 backtick)).
Proof.
  intros Htype Htext Hmarks Hmark.
  rewrite (render_inline_text fuel node Htype), Htext, Hmarks.
  replace (py_or (VList (map VDict before ++ VDict mark :: after)%list) (VList []))
    with (VList (map VDict before ++ VDict mark :: after)%list)
    by (destruct before; reflexivity).
  now rewrite apply_marks_code.
Qed.

Lemma code_mark_overrides_link_witness :
  _render_inline 1
    (a_text "a*b`c"
       [a_node "link" [("attrs", VDict [("href", VStr "http://x")])];
        a_mark "code"; a_mark "strong"])
  = Ok (VStr "`a*b\`c`").
Proof.
  apply (code_mark_overrides_link 0
           [("type", VStr "text"); ("text", VStr "a*b`c");
            ("marks",
             VList [a_node "link" [("attrs", VDict [("href", VStr "http://x")])];
                    a_mark "code"; a_mark "strong"])]
           "a*b`c"
           [[("type", VStr "link"); ("attrs", VDict [("href", VStr "http://x")])]]
           [("type", VStr "code")]
           [a_mark "strong"]);
    reflexivity.
Defined.

(** ** Document unwrapping *)

Lemma field_some_truthy (d : list (string * pyobj)) (k : string) :
  field d k <> VNone -> truthy (VDict d) = true.
Proof. destruct d; [intro H; now elim H | reflexivity]. Qed.

Lemma is_doc_node_truthy (v : pyobj) : is_doc_node v = true -> truthy v = true.
Proof.
  destruct v as [| | | | |d]; try discriminate. unfold is_doc_node. cbn [is_dict andb member].
  intro H. apply (field_some_truthy d "type"). intro E. rewrite E in H. discriminate.
Qed.

Lemma is_doc_node_get (v : pyobj) :
  (if is_dict v then t <- get v "type" ;; Ok (eq_str t "doc") else Ok false) = Ok (is_doc_node v).
Proof. destruct v; reflexivity. Qed.

Lemma extract_doc_unwraps (value : pyobj) :
  _extract_doc value
  = Ok (match spec_unwrap value with Some doc => doc | None => VNone end).
Proof.
  destruct value as [| | | | |d]; try reflexivity.
  unfold _extract_doc, spec_unwrap. cbn [is_dict negb].
  rewrite !get_dict. cbn [bind].
  change (is_doc_node (VDict d)) with (eq_str (field d "type") "doc").
  destruct (eq_str (field d "type") "doc"); [reflexivity|].
  rewrite (is_doc_node_get (field d "body")). cbn [bind member].
  destruct (is_doc_node (field d "body")); [reflexivity|].
  rewrite (is_doc_node_get (field d "description")). cbn [bind].
  destruct (is_doc_node (field d "description")); [reflexivity|].
  destruct (is_list (field d "content")); [|reflexivity].
  cbn [bind andb].
  destruct (field d "version"); reflexivity.
Qed.

Lemma spec_unwrap_truthy (value doc : pyobj) :
  spec_unwrap value = Some doc -> truthy doc = true.
Proof.
  unfold spec_unwrap.
  destruct (is_doc_node value) eqn:H1.
  { intros [= <-]. now apply is_doc_node_truthy. }
  destruct (is_doc_node (member value "body")) eqn:H2.
  { intros [= <-]. now apply is_doc_node_truthy. }
  destruct (is_doc_node (member value "description")) eqn:H3.
  { intros [= <-]. now apply is_doc_node_truthy. }
  destruct (is_list (member value "content") && negb (is_none (member value "version")))
    eqn:H4; [|discriminate].
  intros [= <-]. destruct value as [| | | | |d]; try discriminate.
  apply (field_some_truthy d "version").
  cbn [member] in H4. intro E. rewrite E in H4.
  now destruct (is_list (field d "content")).
Qed.

(** C4: [_extract_doc] never raises and finds the document by the first
    match of the spec's order; when there is none, [render_markdown] returns
    the empty string, and otherwise it renders the document found. *)
Theorem extract_doc_resolution (value : pyobj) :
  _extract_doc value
  = Ok (match spec_unwrap value with Some doc => doc | None => VNone end)
  /\ forall fuel,
       render_markdown fuel value
       = match spec_unwrap value with Some doc => render fuel doc | None => Ok "" end.
Proof.
  split; [apply extract_doc_unwraps|].
  intro fuel. unfold render_markdown. rewrite extract_doc_unwraps. cbn [bind].
  destruct (spec_unwrap value) as [doc|] eqn:Hdoc; [|reflexivity].
  now rewrite (spec_unwrap_truthy value doc Hdoc).
Qed.

(** ** Paragraphs *)

Lemma append_nil_r (s : string) : s ++ "" = s.
Proof. induction s as [|c s IH]; [reflexivity|]. cbn. now rewrite IH. Qed.

Lemma append_assoc (s t u : string) : (s ++ t) ++ u = s ++ t ++ u.
Proof. induction s as [|c s IH]; [reflexivity|]. cbn. now rewrite IH. Qed.

Lemma join_empty_cons (s : string) (ss : list string) :
  join "" (s :: ss) = s ++ join "" ss.
Proof.
  unfold join. destruct ss as [|t ss]; cbn [concat].
  - now rewrite append_nil_r.
  - reflexivity.
Qed.

Lemma last_line_snoc (done : list string) (cur : string) :
  last_line (done ++ [cur]) = cur.
Proof. apply last_last. Qed.

Lemma set_last_line_snoc (done : list string) (cur s : string) :
  set_last_line (done ++ [cur]) s = (done ++ [s])%list.
Proof. unfold set_last_line. now rewrite removelast_last. Qed.

Section ParagraphLoop.
Variable self_render_inline : pyobj -> result pyobj.

Lemma paragraph_loop_pieces
  (children : list pyobj) (pieces : list string) (rest : list pyobj)
  (done : list string) (cur : string) :
  Forall2 (fun child piece =>
             exists t, get child "type" = Ok t
                       /\ eq_str t "hardBreak" = false
                       /\ self_render_inline child = Ok (VStr piece))
          children pieces ->
  paragraph_loop self_render_inline (children ++ rest) (done ++ [cur])
  = paragraph_loop self_render_inline rest (done ++ [cur ++ join "" pieces]).
Proof.
  intro H. revert cur. induction H as [|child piece children pieces Hc _ IH]; intro cur.
  - cbn [app]. unfold join. cbn [concat]. now rewrite append_nil_r.
  - destruct Hc as (t & Ht & Hhb & Hr).
    cbn [app paragraph_loop]. rewrite Ht. cbn [bind]. rewrite Hhb, Hr. cbn [bind].
    rewrite last_line_snoc. cbn [str_add bind]. rewrite set_last_line_snoc.
    rewrite IH, join_empty_cons. now rewrite append_assoc.
Qed.

Lemma paragraph_loop_hard_break
  (hb : list (string * pyobj)) (rest : list pyobj) (done : list string) (cur : string) :
  field hb "type" = VStr "hardBreak" ->
  paragraph_loop self_render_inline (VDict hb :: rest) (done ++ [cur])
  = paragraph_loop self_render_inline rest ((done ++ [rstrip cur ++ "  "]) ++ [""]).
Proof.
  intro H. cbn [paragraph_loop]. rewrite get_dict, H. cbn [bind].
  change (eq_str (VStr "hardBreak") "hardBreak") with true. cbv iota.
  now rewrite last_line_snoc, set_last_line_snoc.
Qed.
End ParagraphLoop.

(** C7: a paragraph whose children are inline runs [before], one hard
    break, and inline runs [after] renders as two lines: the text of
    [before] with its trailing whitespace removed and two spaces appended,
    then the text of [after]. *)
Theorem hard_break_splits_paragraph
  (fuel list_level : nat) (node hb : list (string * pyobj))
  (before after : list pyobj) (before_text after_text : list string) :
  field node "type" = VStr "paragraph" ->
  field node "content" = VList (before ++ VDict hb :: after) ->
  field hb "type" = VStr "hardBreak" ->
  Forall2 (renders_inline_as fuel) before before_text ->
  Forall2 (renders_inline_as fuel) after after_text ->
  _render_block (S fuel) (VDict node) list_level
  = Ok [VStr (rstrip (join "" before_text) ++ "  "); VStr (join "" after_text)].
Proof.
  intros Htype Hcontent Hhb Hbefore Hafter.
  cbn [_render_block]. unfold render_block_body. rewrite get_dict, Htype. cbn [bind].
  change (eq_str (VStr "paragraph") "paragraph") with true. cbv iota.
  unfold _render_paragraph, _render_paragraph_lines. rewrite get_dict, Hcontent.
  assert (Hor : py_or (VList (before ++ VDict hb :: after)) (VList [])
                = VList (before ++ VDict hb :: after)) by (destruct before; reflexivity).
  cbn [bind]. rewrite Hor. cbn [bind iterate].
  pose proof (paragraph_loop_pieces (_render_inline fuel) before before_text
                (VDict hb :: after) [] "" Hbefore) as Erun.
  cbn [app] in Erun. rewrite Erun. clear Erun.
  pose proof (paragraph_loop_hard_break (_render_inline fuel) hb after []
                ("" ++ join "" before_text) Hhb) as Ebreak.
  cbn [app] in Ebreak. rewrite Ebreak. clear Ebreak.
  pose proof (paragraph_loop_pieces (_render_inline fuel) after after_text []
                [rstrip ("" ++ join "" before_text) ++ "  "] "" Hafter) as Erun.
  rewrite app_nil_r in Erun. cbn [app] in Erun. rewrite Erun.
  reflexivity.
Qed.

Lemma hard_break_splits_paragraph_witness :
  _render_block 2
    (with_content "paragraph"
       [a_text "one " [a_mark "em"]; a_text "two  " []; a_node "hardBreak" [];
        a_text "three" []])
    0
  = Ok [VStr "*one *two  "; VStr "three"].
Proof.
  apply (hard_break_splits_paragraph 1 0
           [("type", VStr "paragraph");
            ("content", VList [a_text "one " [a_mark "em"]; a_text "two  " [];
                               a_node "hardBreak" []; a_text "three" []])]
           [("type", VStr "hardBreak")]
           [a_text "one " [a_mark "em"]; a_text "two  " []] [a_text "three" []]
           ["*one *"; "two  "] ["three"]);
    try reflexivity;
    repeat constructor; exists (VStr "text"); repeat split; reflexivity.
Defined.

Lemma paragraph_loop_empty_pieces
  (self_render_inline : pyobj -> result pyobj)
  (children : list pyobj) (done : list string) (cur : string) :
  Forall (fun child =>
            exists t, get child "type" = Ok t
                      /\ eq_str t "hardBreak" = false
                      /\ self_render_inline child = Ok (VStr ""))
         children ->
  paragraph_loop self_render_inline children (done ++ [cur]) = Ok (done ++ [cur])%list.
Proof.
  induction 1 as [|child children (t & Ht & Hhb & Hr) _ IH]; [reflexivity|].
  cbn [paragraph_loop]. rewrite Ht. cbn [bind]. rewrite Hhb, Hr. cbn [bind].
  rewrite last_line_snoc. cbn [str_add bind].
  now rewrite set_last_line_snoc, append_nil_r.
Qed.

Lemma render_block_empty_paragraph (fuel list_level : nat) (node : pyobj) :
  empty_paragraph fuel node ->
  _render_block (S fuel) node list_level = Ok [VStr ""].
Proof.
  intros (d & children & -> & Htype & Hcontent & Hchildren).
  cbn [_render_block]. unfold render_block_body. rewrite get_dict, Htype. cbn [bind].
  change (eq_str (VStr "paragraph") "paragraph") with true. cbv iota.
  unfold _render_paragraph, _render_paragraph_lines. rewrite get_dict. cbn [bind].
  rewrite Hcontent. cbn [iterate bind].
  pose proof (paragraph_loop_empty_pieces (_render_inline fuel) children [] ""
                Hchildren) as Eloop.
  cbn [app] in Eloop. now rewrite Eloop.
Qed.

Lemma render_markdown_doc (fuel : nat) (doc : list (string * pyobj)) :
  field doc "type" = VStr "doc" ->
  render_markdown fuel (VDict doc) = render fuel (VDict doc).
Proof.
  intro Htype. unfold render_markdown, _extract_doc. cbn [is_dict negb].
  rewrite get_dict, Htype. cbn [bind].
  change (eq_str (VStr "doc") "doc") with true. cbv iota. cbn [bind].
  rewrite (field_some_truthy doc "type"); [reflexivity|].
  rewrite Htype. discriminate.
Qed.

(** C10, as the code has it: a paragraph with no content, or whose children
    are no hard breaks and all render to the empty string, renders to
    exactly one empty line; a document of two such paragraphs renders to two
    newlines, a document of one to the empty string. *)
Theorem empty_paragraph_is_one_empty_line
  (fuel : nat) (p q : pyobj) (doc1 doc2 : list (string * pyobj)) :
  empty_paragraph fuel p ->
  empty_paragraph fuel q ->
  field doc1 "type" = VStr "doc" -> field doc1 "content" = VList [p] ->
  field doc2 "type" = VStr "doc" -> field doc2 "content" = VList [p; q] ->
  (forall list_level, _render_block (S fuel) p list_level = Ok [VStr ""])
  /\ render_markdown (S fuel) (VDict doc1) = Ok ""
  /\ render_markdown (S fuel) (VDict doc2) = Ok (LF ++ LF).
Proof.
  intros Hp Hq Htype1 Hcontent1 Htype2 Hcontent2.
  split; [intro; now apply render_block_empty_paragraph|].
  split.
  - rewrite (render_markdown_doc _ _ Htype1). unfold render.
    rewrite get_dict, Hcontent1. cbn [bind py_or truthy iterate block_strings].
    rewrite (render_block_empty_paragraph fuel 0 p Hp). reflexivity.
  - rewrite (render_markdown_doc _ _ Htype2). unfold render.
    rewrite get_dict, Hcontent2. cbn [bind py_or truthy iterate block_strings].
    rewrite (render_block_empty_paragraph fuel 0 p Hp).
    cbn [bind py_join as_strs join concat].
    rewrite (render_block_empty_paragraph fuel 0 q Hq). reflexivity.
Qed.

Lemma empty_paragraph_is_one_empty_line_witness :
  (forall list_level,
      _render_block 2 (with_content "paragraph" [a_text "" []; a_node "emoji" []])
        list_level = Ok [VStr ""])
  /\ render_markdown 2
       (with_content "doc"
          [with_content "paragraph" [a_text "" []; a_node "emoji" []]])
     = Ok ""
  /\ render_markdown 2
       (with_content "doc"
          [with_content "paragraph" [a_text "" []; a_node "emoji" []];
           a_node "paragraph" []])
     = Ok (LF ++ LF).
Proof.
  apply (empty_paragraph_is_one_empty_line 1
           (with_content "paragraph" [a_text "" []; a_node "emoji" []])
           (a_node "paragraph" [])
           [("type", VStr "doc");
            ("content",
             VList [with_content "paragraph" [a_text "" []; a_node "emoji" []]])]
           [("type", VStr "doc");
            ("content",
             VList [with_content "paragraph" [a_text "" []; a_node "emoji" []];
                    a_node "paragraph" []])]);
    try reflexivity.
  - eexists _, [a_text "" []; a_node "emoji" []].
    repeat split; try reflexivity.
    repeat constructor;
      [exists (VStr "text") | exists (VStr "emoji")]; repeat split; reflexivity.
  - eexists _, []. repeat split; try reflexivity. constructor.
Defined.

(** C10 as stated fails on a hard break: it renders to the empty string as
    an inline node, yet a paragraph holding only a hard break has two lines
    and a document of that one paragraph is not empty. *)
Lemma hard_break_only_paragraph_counterexample :
  _render_inline 1 (a_node "hardBreak" []) = Ok (VStr "")
  /\ _render_block 2 (with_content "paragraph" [a_node "hardBreak" []]) 0
     = Ok [VStr "  "; VStr ""]
  /\ render_markdown 2
       (with_content "doc" [with_content "paragraph" [a_node "hardBreak" []]])
     = Ok ("  " ++ LF).
Proof. repeat split; reflexivity. Qed.

(** ** Lists *)

Lemma rstrip_with_keeps (p : ascii -> bool) (s : string) (c : ascii) (t : string) :
  p c = false ->
  rstrip_with p (s ++ String c t) = s ++ String c (rstrip_with p t).
Proof.
  intro Hc. induction s as [|a s IH].
  - cbn [append rstrip_with]. now rewrite Hc, andb_false_r.
  - cbn [append rstrip_with]. rewrite IH.
    now destruct s.
Qed.

Lemma rstrip_bullet_prefix (indent number : string) :
  rstrip (indent ++ (number ++ ".") ++ " ") = indent ++ number ++ ".".
Proof.
  unfold rstrip.
  replace (indent ++ (number ++ ".") ++ " ")
    with ((indent ++ number) ++ String "." " ")
    by (rewrite !append_assoc; reflexivity).
  rewrite rstrip_with_keeps by reflexivity.
  now rewrite append_assoc.
Qed.

Lemma list_items_numbered
  (self_render_block : pyobj -> nat -> result (list pyobj))
  (self_render_inline : pyobj -> result pyobj)
  (items : list pyobj) (list_level : nat) (index : Z) :
  list_items self_render_block self_render_inline items list_level true index
  = (groups <- mapM (fun p => _render_list_item self_render_block self_render_inline
                                (snd p) list_level true (fst p))
                 (numbered index items) ;;
     Ok (List.concat groups)).
Proof.
  revert index. induction items as [|item items IH]; intro index; [reflexivity|].
  cbn [list_items numbered mapM fst snd]. rewrite IH.
  destruct (_render_list_item _ _ item list_level true index) as [lines| |];
    cbn [bind]; try reflexivity.
  destruct (mapM _ (numbered (index + 1) items)) as [groups| |]; reflexivity.
Qed.

Lemma list_item_first_line
  (self_render_block : pyobj -> nat -> result (list pyobj))
  (self_render_inline : pyobj -> result pyobj)
  (item : pyobj) (list_level : nat) (index : Z) (lines : list pyobj) :
  _render_list_item self_render_block self_render_inline item list_level true index
  = Ok lines ->
  exists line rest,
    lines = VStr line :: rest
    /\ starts_with (str_repeat INDENT list_level ++ decimal index ++ ".") line.
Proof.
  unfold _render_list_item.
  set (indent := str_repeat INDENT list_level).
  set (continuation := str_repeat " " _).
  assert (Hbare : starts_with (indent ++ decimal index ++ ".")
                    (rstrip (indent ++ (decimal index ++ ".") ++ " "))).
  { exists "". now rewrite rstrip_bullet_prefix, append_nil_r. }
  destruct (get item "content") as [c| |]; cbn [bind]; try discriminate.
  destruct (truthy (py_or c (VList []))); cbn [negb].
  2:{ intros [= <-]. eauto. }
  destruct (index0 _) as [first| |]; cbn [bind]; try discriminate.
  destruct (get first "type") as [first_type| |]; cbn [bind]; try discriminate.
  destruct (eq_str first_type "paragraph").
  - destruct (_render_paragraph_lines _ first) as [[|line0 more]| |];
      cbn [bind]; try discriminate.
    + destruct (slice_from1 _) as [rest| |]; cbn [bind]; try discriminate.
      destruct (blocks_in_list _ rest _ _) as [tail| |]; cbn [bind]; try discriminate.
      intros [= <-]. cbn [app]. eauto.
    + destruct (slice_from1 _) as [rest| |]; cbn [bind]; try discriminate.
      destruct (blocks_in_list _ rest _ _) as [tail| |]; cbn [bind]; try discriminate.
      intros [= <-]. cbn [app]. do 2 eexists. split; [reflexivity|].
      exists (" " ++ line0). now rewrite !append_assoc.
  - destruct (_render_block_in_list _ first _ _) as [inner| |];
      cbn [bind]; try discriminate.
    destruct (slice_from1 _) as [rest| |]; cbn [bind]; try discriminate.
    destruct (blocks_in_list _ rest _ _) as [tail| |]; cbn [bind]; try discriminate.
    intros [= <-]. cbn [app]. eauto.
Qed.

(** C6: an ordered list numbers its items from [attrs.order], or from 1 when
    there is none, and adds exactly one for each successive item: its lines
    are those of the items rendered under the numbers [numbered] gives them,
    and the first line of an item starts with the indentation, the decimal
    number of the item and a full stop. *)
Theorem ordered_list_numbering
  (fuel list_level : nat) (node attrs : list (string * pyobj))
  (items : list pyobj) (start : Z) :
  field node "type" = VStr "orderedList" ->
  field_or node "attrs" (VDict []) = VDict attrs ->
  py_int (field_or attrs "order" (VInt 1)) = Ok start ->
  py_or (field node "content") (VList []) = VList items ->
  _render_block (S fuel) (VDict node) list_level
  = (groups <- mapM (fun p => _render_list_item (_render_block fuel) (_render_inline fuel)
                                (snd p) list_level true (fst p))
                 (numbered start items) ;;
     Ok (List.concat groups))
  /\ forall item index lines,
       _render_list_item (_render_block fuel) (_render_inline fuel)
         item list_level true index = Ok lines ->
       exists line rest,
         lines = VStr line :: rest
         /\ starts_with (str_repeat INDENT list_level ++ decimal index ++ ".") line.
Proof.
  intros Htype Hattrs Hstart Hcontent. split.
  - cbn [_render_block]. unfold render_block_body. rewrite get_dict, Htype. cbn [bind].
    change (eq_str (VStr "orderedList") "paragraph") with false.
    change (eq_str (VStr "orderedList") "heading") with false.
    change (eq_str (VStr "orderedList") "bulletList") with false.
    change (eq_str (VStr "orderedList") "orderedList") with true. cbv iota.
    unfold _render_list. cbn [get_or bind]. rewrite Hattrs. cbn [get_or bind].
    rewrite Hstart. cbn [bind]. rewrite get_dict. cbn [bind].
    rewrite Hcontent. cbn [iterate bind].
    apply list_items_numbered.
  - intros item index lines. apply list_item_first_line.
Qed.

Lemma ordered_list_numbering_witness :
  _render_block 3
    (a_node "orderedList"
       [("attrs", VDict [("order", VInt 5)]);
        ("content",
         VList [with_content "listItem" [with_content "paragraph" [a_text "a" []]];
                with_content "listItem" [with_content "paragraph" [a_text "b" []]];
                with_content "listItem" [with_content "paragraph" [a_text "c" []]]])])
    0
  = Ok [VStr "5. a"; VStr "6. b"; VStr "7. c"].
Proof.
  apply (proj1 (ordered_list_numbering 2 0
           [("type", VStr "orderedList");
            ("attrs", VDict [("order", VInt 5)]);
            ("content",
             VList [with_content "listItem" [with_content "paragraph" [a_text "a" []]];
                    with_content "listItem" [with_content "paragraph" [a_text "b" []]];
                    with_content "listItem" [with_content "paragraph" [a_text "c" []]]])]
           [("order", VInt 5)]
           [with_content "listItem" [with_content "paragraph" [a_text "a" []]];
            with_content "listItem" [with_content "paragraph" [a_text "b" []]];
            with_content "listItem" [with_content "paragraph" [a_text "c" []]]]
           5%Z eq_refl eq_refl eq_refl eq_refl)).
Defined.

(** Without [attrs] the numbering starts at 1. *)
Example ordered_list_default_start :
  _render_block 3
    (with_content "orderedList"
       [with_content "listItem" [with_content "paragraph" [a_text "a" []]];
        a_node "listItem" []])
    1
  = Ok [VStr "  1. a"; VStr "  2."].
Proof. reflexivity. Qed.

(** ** Tables *)

Lemma table_cells_run
  (fuel : nat) (cells : list pyobj) (texts : list string) (header_row : bool) :
  Forall2 (renders_cell_as fuel) cells texts ->
  table_cells (_render_block fuel) cells header_row
  = Ok (texts, existsb is_header_cell cells || header_row).
Proof.
  intro H. revert header_row.
  induction H as [|cell text cells texts (lines & Hcell & ->) _ IH]; intro header_row;
    [reflexivity|].
  destruct cell as [| | | | |d]; try discriminate.
  cbn [table_cells existsb]. rewrite get_dict. cbn [bind]. rewrite Hcell. cbn [bind].
  rewrite IH. cbn [bind fst snd]. unfold is_header_cell at 2. cbn [member].
  do 2 f_equal.
  destruct (eq_str (field d "type") "tableHeader"), (existsb is_header_cell cells);
    reflexivity.
Qed.

Lemma table_rows_run
  (fuel : nat) (rows : list pyobj) (table : list (list pyobj * list string))
  (header_row : bool) :
  Forall2 (renders_row_as fuel) rows table ->
  table_rows (_render_block fuel) rows header_row
  = Ok (map snd table, has_header_cell table || header_row).
Proof.
  intro H. revert header_row.
  induction H as [|row [cells texts] rows table ((d & -> & Hcells) & Htexts) _ IH];
    intro header_row; [reflexivity|].
  cbn [fst snd] in Hcells, Htexts.
  cbn [table_rows]. rewrite get_dict. cbn [bind]. rewrite Hcells. cbn [bind].
  rewrite (table_cells_run fuel cells texts header_row Htexts). cbn [bind fst snd].
  rewrite IH. cbn [bind fst snd map]. unfold has_header_cell. cbn [existsb fst].
  do 2 f_equal.
  destruct (existsb is_header_cell cells),
    (existsb (fun cells_texts => existsb is_header_cell (fst cells_texts)) table);
    reflexivity.
Qed.

(** What [_render_table] makes of the rendered rows. *)
Lemma render_table_rows
  (fuel list_level : nat) (node : list (string * pyobj)) (rows : list pyobj)
  (table : list (list pyobj * list string)) (first : list string)
  (rest : list (list string)) :
  field node "type" = VStr "table" ->
  py_or (field node "content") (VList []) = VList rows ->
  Forall2 (renders_row_as fuel) rows table ->
  map snd table = first :: rest ->
  _render_block (S fuel) (VDict node) list_level
  = Ok (map VStr
          (let col_count := max_len (first :: rest) in
           let pipe row := pipe_line (pad_row col_count row) in
           if has_header_cell table
           then pipe first :: pipe_line (repeat "---" col_count) :: map pipe rest
           else pipe first :: map pipe (first :: rest))).
Proof.
  intros Htype Hcontent Hrows Htable.
  cbn [_render_block]. unfold render_block_body. rewrite get_dict, Htype. cbn [bind].
  change (eq_str (VStr "table") "paragraph") with false.
  change (eq_str (VStr "table") "heading") with false.
  change (eq_str (VStr "table") "bulletList") with false.
  change (eq_str (VStr "table") "orderedList") with false.
  change (eq_str (VStr "table") "blockquote") with false.
  change (eq_str (VStr "table") "panel") with false.
  change (eq_str (VStr "table") "codeBlock") with false.
  change (eq_str (VStr "table") "rule") with false.
  change (eq_str (VStr "table") "table") with true. cbv iota.
  unfold _render_table. rewrite get_dict. cbn [bind]. rewrite Hcontent.
  assert (Hne : truthy (VList rows) = true).
  { destruct rows; [|reflexivity]. inversion Hrows; subst. discriminate. }
  rewrite Hne. cbn [negb iterate bind].
  rewrite (table_rows_run fuel rows table false Hrows), Htable, orb_false_r.
  cbn [bind]. destruct (has_header_cell table); reflexivity.
Qed.

(** C5: a table of two rows whose first row has cells, all of them
    tableHeader nodes, renders as exactly three lines: the header row, a
    separator with one [---] for each column, the data row; the number of
    columns is the larger cell count of the two rows.  And one tableHeader
    cell in any row of any table puts the separator after the first row,
    followed by the remaining rows. *)
Theorem header_table_rendering (fuel list_level : nat) (node : list (string * pyobj)) :
  field node "type" = VStr "table" ->
  (forall row1 row2 headers cells header_texts cell_texts,
      field node "content" = VList [row1; row2] ->
      row_has_cells row1 headers ->
      row_has_cells row2 cells ->
      headers <> [] ->
      Forall (fun cell => is_header_cell cell = true) headers ->
      Forall2 (renders_cell_as fuel) headers header_texts ->
      Forall2 (renders_cell_as fuel) cells cell_texts ->
      let col_count := Nat.max (List.length headers) (List.length cells) in
      _render_block (S fuel) (VDict node) list_level
      = Ok [VStr (pipe_line (pad_row col_count header_texts));
            VStr (pipe_line (repeat "---" col_count));
            VStr (pipe_line (pad_row col_count cell_texts))])
  /\ (forall rows table first rest,
         py_or (field node "content") (VList []) = VList rows ->
         Forall2 (renders_row_as fuel) rows table ->
         map snd table = first :: rest ->
         has_header_cell table = true ->
         let col_count := max_len (first :: rest) in
         _render_block (S fuel) (VDict node) list_level
         = Ok (map VStr
                 (pipe_line (pad_row col_count first)
                    :: pipe_line (repeat "---" col_count)
                    :: map (fun row => pipe_line (pad_row col_count row)) rest))).
Proof.
  intro Htype. split.
  - intros row1 row2 headers cells header_texts cell_texts
      Hcontent Hrow1 Hrow2 Hne Hheaders Htexts1 Htexts2 col_count.
    rewrite (render_table_rows fuel list_level node [row1; row2]
               [(headers, header_texts); (cells, cell_texts)]
               header_texts [cell_texts] Htype).
    + assert (Hheader : has_header_cell [(headers, header_texts); (cells, cell_texts)]
                        = true).
      { unfold has_header_cell. cbn [existsb fst].
        destruct Hheaders as [|cell headers Hcell _]; [now elim Hne|].
        cbn [existsb]. now rewrite Hcell. }
      rewrite Hheader. cbn [max_len fold_right map].
      rewrite <- (Forall2_length Htexts1), <- (Forall2_length Htexts2), Nat.max_0_r.
      reflexivity.
    + now rewrite Hcontent.
    + repeat constructor; assumption.
    + reflexivity.
  - intros rows table first rest Hcontent Hrows Htable Hheader col_count.
    rewrite (render_table_rows fuel list_level node rows table first rest
               Htype Hcontent Hrows Htable).
    now rewrite Hheader.
Qed.

Lemma header_table_rendering_witness :
  _render_block 3
    (with_content "table"
       [a_row [a_cell "tableHeader" "A"; a_cell "tableHeader" "B"];
        a_row [a_cell "tableCell" "1"]])
    0
  = Ok [VStr "| A | B |"; VStr "| --- | --- |"; VStr "| 1 |  |"].
Proof.
  apply (proj1 (header_table_rendering 2 0
                  [("type", VStr "table");
                   ("content",
                    VList [a_row [a_cell "tableHeader" "A"; a_cell "tableHeader" "B"];
                           a_row [a_cell "tableCell" "1"]])]
                  eq_refl)
           (a_row [a_cell "tableHeader" "A"; a_cell "tableHeader" "B"])
           (a_row [a_cell "tableCell" "1"])
           [a_cell "tableHeader" "A"; a_cell "tableHeader" "B"]
           [a_cell "tableCell" "1"]
           ["A"; "B"] ["1"]).
  - reflexivity.
  - eexists. split; reflexivity.
  - eexists. split; reflexivity.
  - discriminate.
  - repeat constructor.
  - repeat constructor; eexists; split; reflexivity.
  - repeat constructor; eexists; split; reflexivity.
Defined.

(** A table without any tableHeader cell: the first row comes twice. *)
Lemma headerless_table_lines
  (fuel list_level : nat) (node : list (string * pyobj)) (rows : list pyobj)
  (table : list (list pyobj * list string)) (first : list string)
  (rest : list (list string)) :
  field node "type" = VStr "table" ->
  py_or (field node "content") (VList []) = VList rows ->
  Forall2 (renders_row_as fuel) rows table ->
  map snd table = first :: rest ->
  has_header_cell table = false ->
  let col_count := max_len (first :: rest) in
  let pipe row := pipe_line (pad_row col_count row) in
  _render_block (S fuel) (VDict node) list_level
  = Ok (map VStr (pipe first :: pipe first :: map pipe rest)).
Proof.
  intros Htype Hcontent Hrows Htable Hheader col_count pipe.
  rewrite (render_table_rows fuel list_level node rows table first rest
             Htype Hcontent Hrows Htable).
  now rewrite Hheader.
Qed.

(** C3 fails on the code: a table of tableCell rows only has no separator,
    but its first row is emitted twice, so two rows give three lines and a
    single row gives two. *)
Theorem headerless_table_first_row_twice (fuel : nat) :
  render_markdown (3 + fuel)
    (with_content "doc"
       [with_content "table"
          [a_row [a_cell "tableCell" "A"; a_cell "tableCell" "B"];
           a_row [a_cell "tableCell" "1"; a_cell "tableCell" "2"]]])
  = Ok ("| A | B |" ++ LF ++ "| A | B |" ++ LF ++ "| 1 | 2 |")
  /\ render_markdown (3 + fuel)
       (with_content "doc" [with_content "table" [a_row [a_cell "tableCell" "A"]]])
     = Ok ("| A |" ++ LF ++ "| A |").
Proof. split; reflexivity. Qed.

(** ** Malformed input *)

(** C2 fails on the code: a heading whose [attrs] is null, a heading whose
    level is no number, and a content entry that is no dict each make
    [render_markdown] raise. *)
Theorem render_markdown_raises (fuel : nat) :
  render_markdown (S fuel)
    (with_content "doc" [a_node "heading" [("attrs", VNone)]])
  = Raise AttributeError
  /\ render_markdown (S fuel)
       (with_content "doc"
          [a_node "heading" [("attrs", VDict [("level", VStr "abc")])]])
     = Raise ValueError
  /\ render_markdown (S fuel) (with_content "doc" [VStr "x"])
     = Raise AttributeError.
Proof. repeat split; reflexivity. Qed.

(** The sibling paths that do tolerate the same input: [_render_panel]
    reads [attrs] through [or {}], and [_collect_text] tests for a dict. *)
Example panel_tolerates_null_attrs (fuel : nat) :
  render_markdown (S fuel)
    (with_content "doc" [a_node "panel" [("attrs", VNone)]])
  = Ok ">".
Proof. reflexivity. Qed.

Example collect_text_tolerates_non_dict (fuel : nat) :
  _collect_text (S (S fuel)) (with_content "codeBlock" [VStr "x"; a_text "y" []])
  = Ok (VStr "y").
Proof. reflexivity. Qed.

(** ** Independence of the fuel *)

Lemma refines_refl {A : Type} (r : result A) : refines r r.
Proof. now right. Qed.

Lemma refines_trans {A : Type} (r1 r2 r3 : result A) :
  refines r1 r2 -> refines r2 r3 -> refines r1 r3.
Proof. intros [->| ->] H; [now left|exact H]. Qed.

Lemma bind_refines {A B : Type} (m m' : result A) (k k' : A -> result B) :
  refines m m' -> (forall a, refines (k a) (k' a)) ->
  refines (bind m k) (bind m' k').
Proof.
  intros [->| ->] Hk; [now left|].
  destruct m'; cbn [bind]; [apply Hk| |]; apply refines_refl.
Qed.

Lemma mapM_refines {A B : Type} (f f' : A -> result B) (l : list A) :
  (forall a, refines (f a) (f' a)) -> refines (mapM f l) (mapM f' l).
Proof.
  intro Hf. induction l as [|a l IH]; [apply refines_refl|].
  cbn [mapM]. apply bind_refines; [apply Hf|]. intro b.
  apply bind_refines; [exact IH|]. intro bs. apply refines_refl.
Qed.

#[local] Create HintDb fuel_mono.
#[local] Hint Resolve refines_refl : fuel_mono.

Ltac mono :=
  repeat
    match goal with
    | |- refines ?r ?r => apply refines_refl
    | |- refines (bind _ _) (bind _ _) => apply bind_refines; [|intros ?]
    | |- refines (mapM _ _) (mapM _ _) => apply mapM_refines; intros ?
    | |- refines (if ?b then _ else _) (if ?b then _ else _) => destruct b
    | |- refines (match ?x with _ => _ end) (match ?x with _ => _ end) =>
        destruct x
    | |- _ => solve [auto with fuel_mono]
    end.

Section Monotone.

Variables self_render_block self_render_block' : pyobj -> nat -> result (list pyobj).
Variables self_render_inline self_render_inline' : pyobj -> result pyobj.
Variables collect_text collect_text' : pyobj -> result pyobj.

Hypothesis block_refines :
  forall node list_level,
    refines (self_render_block node list_level) (self_render_block' node list_level).
Hypothesis inline_refines :
  forall node, refines (self_render_inline node) (self_render_inline' node).
Hypothesis collect_refines :
  forall node, refines (collect_text node) (collect_text' node).

#[local] Hint Resolve block_refines inline_refines collect_refines : fuel_mono.

Lemma collect_text_body_refines (node : pyobj) :
  refines (collect_text_body collect_text node) (collect_text_body collect_text' node).
Proof. unfold collect_text_body. mono. Qed.

Lemma render_inline_body_refines (node : pyobj) :
  refines (render_inline_body self_render_inline node)
    (render_inline_body self_render_inline' node).
Proof. unfold render_inline_body. mono. Qed.

Lemma paragraph_loop_refines (children : list pyobj) (lines : list string) :
  refines (paragraph_loop self_render_inline children lines)
    (paragraph_loop self_render_inline' children lines).
Proof.
  revert lines. induction children as [|child children IH]; intro lines;
    cbn [paragraph_loop]; mono.
Qed.
#[local] Hint Resolve paragraph_loop_refines : fuel_mono.

Lemma render_paragraph_lines_refines (node : pyobj) :
  refines (_render_paragraph_lines self_render_inline node)
    (_render_paragraph_lines self_render_inline' node).
Proof. unfold _render_paragraph_lines. mono. Qed.
#[local] Hint Resolve render_paragraph_lines_refines : fuel_mono.

Lemma render_heading_refines (node : pyobj) :
  refines (_render_heading self_render_inline node)
    (_render_heading self_render_inline' node).
Proof. unfold _render_heading. mono. Qed.
#[local] Hint Resolve render_heading_refines : fuel_mono.

Lemma render_block_in_list_refines
  (node : pyobj) (list_level : nat) (continuation_prefix : string) :
  refines (_render_block_in_list self_render_block node list_level continuation_prefix)
    (_render_block_in_list self_render_block' node list_level continuation_prefix).
Proof. unfold _render_block_in_list. mono. Qed.
#[local] Hint Resolve render_block_in_list_refines : fuel_mono.

Lemma blocks_in_list_refines
  (blocks : list pyobj) (list_level : nat) (continuation_prefix : string) :
  refines (blocks_in_list self_render_block blocks list_level continuation_prefix)
    (blocks_in_list self_render_block' blocks list_level continuation_prefix).
Proof. induction blocks as [|block blocks IH]; cbn [blocks_in_list]; mono. Qed.
#[local] Hint Resolve blocks_in_list_refines : fuel_mono.

Lemma render_list_item_refines
  (node : pyobj) (list_level : nat) (ordered : bool) (index : Z) :
  refines
    (_render_list_item self_render_block self_render_inline node list_level ordered index)
    (_render_list_item self_render_block' self_render_inline' node list_level ordered index).
Proof. unfold _render_list_item. mono. Qed.
#[local] Hint Resolve render_list_item_refines : fuel_mono.

Lemma list_items_refines
  (items : list pyobj) (list_level : nat) (ordered : bool) (index : Z) :
  refines (list_items self_render_block self_render_inline items list_level ordered index)
    (list_items self_render_block' self_render_inline' items list_level ordered index).
Proof.
  revert index. induction items as [|item items IH]; intro index;
    cbn [list_items]; mono.
Qed.
#[local] Hint Resolve list_items_refines : fuel_mono.

Lemma render_list_refines (node : pyobj) (list_level : nat) (ordered : bool) :
  refines (_render_list self_render_block self_render_inline node list_level ordered)
    (_render_list self_render_block' self_render_inline' node list_level ordered).
Proof. unfold _render_list. mono. Qed.
#[local] Hint Resolve render_list_refines : fuel_mono.

Lemma block_strings_refines (nodes : list pyobj) (list_level : nat) :
  refines (block_strings self_render_block nodes list_level)
    (block_strings self_render_block' nodes list_level).
Proof. induction nodes as [|node nodes IH]; cbn [block_strings]; mono. Qed.
#[local] Hint Resolve block_strings_refines : fuel_mono.

Lemma render_inner_blocks_refines (nodes : pyobj) (list_level : nat) (tight : bool) :
  refines (_render_inner_blocks self_render_block nodes list_level tight)
    (_render_inner_blocks self_render_block' nodes list_level tight).
Proof. unfold _render_inner_blocks. mono. Qed.
#[local] Hint Resolve render_inner_blocks_refines : fuel_mono.

Lemma render_blockquote_refines (node : pyobj) (list_level : nat) :
  refines (_render_blockquote self_render_block node list_level)
    (_render_blockquote self_render_block' node list_level).
Proof. unfold _render_blockquote. mono. Qed.
#[local] Hint Resolve render_blockquote_refines : fuel_mono.

Lemma render_panel_refines (node : pyobj) (list_level : nat) :
  refines (_render_panel self_render_block node list_level)
    (_render_panel self_render_block' node list_level).
Proof. unfold _render_panel. mono. Qed.
#[local] Hint Resolve render_panel_refines : fuel_mono.

Lemma render_code_block_refines (node : pyobj) :
  refines (_render_code_block collect_text node) (_render_code_block collect_text' node).
Proof. unfold _render_code_block. mono. Qed.
#[local] Hint Resolve render_code_block_refines : fuel_mono.

Lemma render_cell_refines (node : pyobj) :
  refines (_render_cell self_render_block node) (_render_cell self_render_block' node).
Proof. unfold _render_cell. mono. Qed.
#[local] Hint Resolve render_cell_refines : fuel_mono.

Lemma table_cells_refines (cells : list pyobj) (header_row : bool) :
  refines (table_cells self_render_block cells header_row)
    (table_cells self_render_block' cells header_row).
Proof.
  revert header_row. induction cells as [|cell cells IH]; intro header_row;
    cbn [table_cells]; mono.
Qed.
#[local] Hint Resolve table_cells_refines : fuel_mono.

Lemma table_rows_refines (rows : list pyobj) (header_row : bool) :
  refines (table_rows self_render_block rows header_row)
    (table_rows self_render_block' rows header_row).
Proof.
  revert header_row. induction rows as [|row rows IH]; intro header_row;
    cbn [table_rows]; mono.
Qed.
#[local] Hint Resolve table_rows_refines : fuel_mono.

Lemma render_table_refines (node : pyobj) :
  refines (_render_table self_render_block node) (_render_table self_render_block' node).
Proof. unfold _render_table. mono. Qed.
#[local] Hint Resolve render_table_refines : fuel_mono.

Lemma render_block_body_refines (node : pyobj) (list_level : nat) :
  refines
    (render_block_body self_render_block self_render_inline collect_text node list_level)
    (render_block_body self_render_block' self_render_inline' collect_text' node
       list_level).
Proof. unfold render_block_body, _render_paragraph. mono. Qed.

End Monotone.

Lemma collect_text_fuel_step (fuel : nat) (node : pyobj) :
  refines (_collect_text fuel node) (_collect_text (S fuel) node).
Proof.
  revert node. induction fuel as [|fuel IH]; intro node; [now left|].
  apply collect_text_body_refines, IH.
Qed.

Lemma render_inline_fuel_step (fuel : nat) (node : pyobj) :
  refines (_render_inline fuel node) (_render_inline (S fuel) node).
Proof.
  revert node. induction fuel as [|fuel IH]; intro node; [now left|].
  apply render_inline_body_refines, IH.
Qed.

Lemma render_block_fuel_step (fuel : nat) (node : pyobj) (list_level : nat) :
  refines (_render_block fuel node list_level) (_render_block (S fuel) node list_level).
Proof.
  revert node list_level. induction fuel as [|fuel IH]; intros node list_level;
    [now left|].
  apply render_block_body_refines;
    [exact IH | apply render_inline_fuel_step | apply collect_text_fuel_step].
Qed.

Lemma render_markdown_fuel_step (fuel : nat) (value : pyobj) :
  refines (render_markdown fuel value) (render_markdown (S fuel) value).
Proof.
  unfold render_markdown, render.
  apply bind_refines; [apply refines_refl|]. intro doc.
  destruct (negb (truthy doc)); [apply refines_refl|].
  apply bind_refines; [apply refines_refl|]. intro content.
  apply bind_refines; [apply refines_refl|]. intro nodes.
  apply bind_refines; [|intro; apply refines_refl].
  apply block_strings_refines, render_block_fuel_step.
Qed.

Lemma render_markdown_fuel_le (fuel fuel' : nat) (value : pyobj) :
  fuel <= fuel' ->
  refines (render_markdown fuel value) (render_markdown fuel' value).
Proof.
  induction 1 as [|fuel' _ IH]; [apply refines_refl|].
  eapply refines_trans; [exact IH|apply render_markdown_fuel_step].
Qed.

(** ** Enough fuel for every value *)

Lemma settled_bind {A B : Type} (m : result A) (k : A -> result B) :
  settled m -> (forall a, m = Ok a -> settled (k a)) -> settled (bind m k).
Proof.
  intros Hm Hk. destruct m as [a| |]; cbn [bind];
    [now apply Hk | discriminate | now elim Hm].
Qed.

Lemma settled_mapM {A B : Type} (f : A -> result B) (l : list A) :
  Forall (fun a => settled (f a)) l -> settled (mapM f l).
Proof.
  induction 1 as [|a l Ha _ IH]; [discriminate|].
  cbn [mapM]. apply settled_bind; [exact Ha|]. intros b _.
  apply settled_bind; [exact IH|]. discriminate.
Qed.

Lemma depth_element (x : pyobj) (l : list pyobj) :
  In x l -> depth x < depth (VList l).
Proof.
  cbn [depth]. induction l as [|y l IH]; [easy|].
  intros [->|Hin]; cbn [fold_right]; [lia|]. specialize (IH Hin). lia.
Qed.

Lemma depth_lookup (k : string) (d : list (string * pyobj)) (x : pyobj) :
  lookup k d = Some x -> depth x < depth (VDict d).
Proof.
  cbn [depth]. induction d as [|[k' y] d IH]; [discriminate|].
  cbn [lookup fold_right snd]. destruct (String.eqb k k').
  - intros [= ->]. lia.
  - intro H. specialize (IH H). lia.
Qed.

Lemma depth_get (node : pyobj) (k : string) (c : pyobj) :
  get node k = Ok c -> depth c < depth node.
Proof.
  destruct node as [| | | | |d]; try discriminate.
  cbn [get get_or]. unfold field_or. intros [= <-].
  destruct (lookup k d) as [x|] eqn:Hx; [exact (depth_lookup k d x Hx)|].
  cbn [depth]. lia.
Qed.

Lemma depth_chars (s : string) : Forall (fun x => depth x = 0%nat) (chars s).
Proof. induction s; cbn [chars]; constructor; auto. Qed.

Lemma depth_iterate (c : pyobj) (items : list pyobj) :
  iterate c = Ok items -> Forall (fun x => depth x <= depth c) items.
Proof.
  destruct c as [| | |s|l|d]; try discriminate; cbn [iterate]; intros [= <-].
  - eapply Forall_impl; [|apply depth_chars]. cbn beta. intros x ->. lia.
  - apply Forall_forall. intros x Hx. apply depth_element in Hx. lia.
  - apply Forall_forall. intros x Hx. apply in_map_iff in Hx.
    destruct Hx as (kv & <- & _). cbn [depth]. lia.
Qed.

(** The children a loop draws from a field of [node] are less deep than
    [node]. *)
Lemma depth_children (node : pyobj) (k : string) (c : pyobj) (items : list pyobj) :
  get node k = Ok c ->
  iterate (py_or c (VList [])) = Ok items ->
  Forall (fun x => depth x < depth node) items.
Proof.
  intros Hget Hiter. apply depth_get in Hget. unfold py_or in Hiter.
  destruct (truthy c).
  - apply depth_iterate in Hiter. eapply Forall_impl; [|exact Hiter].
    cbn beta. intros x Hx. lia.
  - injection Hiter as <-. constructor.
Qed.

Lemma depth_index0 (node : pyobj) (k : string) (c first : pyobj) :
  get node k = Ok c ->
  index0 (py_or c (VList [])) = Ok first ->
  depth first < depth node.
Proof.
  intros Hget H0. apply depth_get in Hget. unfold py_or in H0.
  destruct (truthy c); [|discriminate].
  destruct c as [| | |[|a s]|[|x l]|d]; try discriminate;
    cbn [index0] in H0; injection H0 as <-.
  - cbn [depth] in *. lia.
  - pose proof (depth_element x (x :: l) (or_introl eq_refl)). lia.
Qed.

Lemma depth_slice_from1 (node : pyobj) (k : string) (c : pyobj) (items : list pyobj) :
  get node k = Ok c ->
  slice_from1 (py_or c (VList [])) = Ok items ->
  Forall (fun x => depth x < depth node) items.
Proof.
  intros Hget Hslice. apply depth_get in Hget. unfold py_or in Hslice.
  destruct (truthy c).
  - destruct c as [| | |s|l|d]; try discriminate;
      cbn [slice_from1] in Hslice; injection Hslice as <-.
    + destruct s as [|a s]; cbn [chars tl]; [constructor|].
      eapply Forall_impl; [|apply depth_chars]. cbn beta. intros x ->. lia.
    + apply Forall_forall. intros x Hx.
      assert (In x l) by (destruct l; [easy|now right]).
      pose proof (depth_element x l H). lia.
  - injection Hslice as <-. constructor.
Qed.
Lemma settled_get_or (v : pyobj) (k : string) (default : pyobj) :
  settled (get_or v k default).
Proof. destruct v; discriminate. Qed.

Lemma settled_get (v : pyobj) (k : string) : settled (get v k).
Proof. apply settled_get_or. Qed.

Lemma settled_iterate (v : pyobj) : settled (iterate v).
Proof. destruct v; discriminate. Qed.

Lemma settled_index0 (v : pyobj) : settled (index0 v).
Proof. destruct v as [| | |[|? ?]|[|? ?]|]; discriminate. Qed.

Lemma settled_slice_from1 (v : pyobj) : settled (slice_from1 v).
Proof. destruct v; discriminate. Qed.

Lemma settled_in_strs (v : pyobj) (l : list string) : settled (in_strs v l).
Proof. destruct v; discriminate. Qed.

Lemma settled_as_strs (l : list pyobj) : settled (as_strs l).
Proof.
  induction l as [|x l IH]; [discriminate|].
  destruct x; try discriminate. cbn [as_strs].
  apply settled_bind; [exact IH|]. discriminate.
Qed.

Lemma settled_py_join (sep : string) (l : list pyobj) : settled (py_join sep l).
Proof. apply settled_bind; [apply settled_as_strs|]. discriminate. Qed.

Lemma settled_str_add (s : string) (v : pyobj) : settled (str_add s v).
Proof. destruct v; discriminate. Qed.

Lemma settled_py_int (v : pyobj) : settled (py_int v).
Proof. destruct v; try discriminate. cbn [py_int]. now destruct (parse_int s). Qed.

Lemma settled_escape_markdown (v : pyobj) : settled (_escape_markdown v).
Proof. destruct v; discriminate. Qed.

#[local] Create HintDb settled.
#[local] Hint Resolve settled_get_or settled_get settled_iterate settled_index0
  settled_slice_from1 settled_in_strs settled_py_join settled_str_add
  settled_py_int settled_escape_markdown : settled.

Ltac settle :=
  repeat
    match goal with
    | |- settled (Ok _) => discriminate
    | |- settled (Raise _) => discriminate
    | |- settled (bind _ _) => apply settled_bind; [|intros ? ?]
    | |- settled (if ?b then _ else _) => destruct b
    | |- settled (match ?x with _ => _ end) => destruct x
    | |- _ => progress cbv zeta
    | |- _ => solve [auto with settled]
    end.

Lemma settled_any_code_mark (marks : list pyobj) : settled (any_code_mark marks).
Proof. induction marks; cbn [any_code_mark]; settle. Qed.

Lemma settled_wrap_marks (marks : list pyobj) (value : string) :
  settled (wrap_marks marks value).
Proof. revert value. induction marks; intro value; cbn [wrap_marks]; settle. Qed.

Lemma settled_first_link (marks : list pyobj) : settled (first_link marks).
Proof. induction marks; cbn [first_link]; settle. Qed.

#[local] Hint Resolve settled_any_code_mark settled_wrap_marks settled_first_link
  : settled.

Lemma settled_apply_link (marks : list pyobj) (value : string) :
  settled (apply_link marks value).
Proof. unfold apply_link. settle. Qed.

#[local] Hint Resolve settled_apply_link : settled.

Lemma settled_apply_marks (text marks : pyobj) : settled (_apply_marks text marks).
Proof. unfold _apply_marks. settle. Qed.

#[local] Hint Resolve settled_apply_marks : settled.

Lemma collect_text_body_settled (collect_text : pyobj -> result pyobj) (node : pyobj) :
  (forall x, depth x < depth node -> settled (collect_text x)) ->
  settled (collect_text_body collect_text node).
Proof.
  intro Hrec. unfold collect_text_body.
  destruct (negb (is_dict node)); [discriminate|].
  apply settled_bind; [auto with settled|]. intros node_type _.
  destruct (eq_str node_type "text"); [settle|].
  destruct (eq_str node_type "hardBreak"); [settle|].
  apply settled_bind; [auto with settled|]. intros leaf _.
  destruct leaf; [settle|].
  apply settled_bind; [auto with settled|]. intros content Hcontent.
  destruct content as [| | | |children|]; try discriminate.
  apply settled_bind; [|intros ? ?; settle].
  apply settled_mapM, Forall_forall. intros x Hx. apply Hrec.
  apply depth_get in Hcontent. pose proof (depth_element x children Hx). lia.
Qed.

Lemma render_inline_body_settled
  (self_render_inline : pyobj -> result pyobj) (node : pyobj) :
  (forall x, depth x < depth node -> settled (self_render_inline x)) ->
  settled (render_inline_body self_render_inline node).
Proof.
  intro Hrec. unfold render_inline_body.
  apply settled_bind; [auto with settled|]. intros node_type _.
  repeat (match goal with
          | |- settled (if eq_str node_type ?s then _ else _) =>
              destruct (eq_str node_type s); [settle|]
          end).
  apply settled_bind; [auto with settled|]. intros content Hcontent.
  destruct content as [| | | |children|]; try solve [settle].
  apply settled_bind; [|intros ? ?; settle].
  apply settled_mapM, Forall_forall. intros x Hx. apply Hrec.
  apply depth_get in Hcontent. pose proof (depth_element x children Hx). lia.
Qed.

Lemma collect_text_settled (fuel : nat) (node : pyobj) :
  depth node < fuel -> settled (_collect_text fuel node).
Proof.
  revert node. induction fuel as [|fuel IH]; intros node Hdepth; [lia|].
  apply collect_text_body_settled. intros x Hx. apply IH. lia.
Qed.

Lemma render_inline_settled (fuel : nat) (node : pyobj) :
  depth node < fuel -> settled (_render_inline fuel node).
Proof.
  revert node. induction fuel as [|fuel IH]; intros node Hdepth; [lia|].
  apply render_inline_body_settled. intros x Hx. apply IH. lia.
Qed.
Section SettledBlocks.

Variable self_render_block : pyobj -> nat -> result (list pyobj).
Variable self_render_inline : pyobj -> result pyobj.
Variable collect_text : pyobj -> result pyobj.
Variable bound : nat.

Hypothesis block_settled :
  forall x list_level, depth x < bound -> settled (self_render_block x list_level).
Hypothesis inline_settled :
  forall x, depth x < bound -> settled (self_render_inline x).
Hypothesis collect_settled :
  forall x, depth x <= bound -> settled (collect_text x).

(** One [bind] whose first computation is a builtin; [x] names its value
    and [H] the equation that gave it. *)
Tactic Notation "step" "as" simple_intropattern(x) simple_intropattern(H) :=
  apply settled_bind; [solve [auto with settled]|intros x H].

Tactic Notation "step" := step as ? ?.

Lemma Forall_depth_lt (node : pyobj) (items : list pyobj) :
  depth node <= bound ->
  Forall (fun x => depth x < depth node) items ->
  Forall (fun x => depth x < bound) items.
Proof.
  intros Hnode H. eapply Forall_impl; [|exact H]. cbn beta. intros x Hx. lia.
Qed.

Lemma paragraph_loop_settled (children : list pyobj) (lines : list string) :
  Forall (fun x => depth x < bound) children ->
  settled (paragraph_loop self_render_inline children lines).
Proof.
  intro H. revert lines.
  induction H as [|child children Hchild _ IH]; intro lines;
    cbn [paragraph_loop]; [discriminate|].
  step as child_type _. destruct (eq_str child_type "hardBreak"); [apply IH|].
  apply settled_bind; [now apply inline_settled|]. intros piece _.
  step. apply IH.
Qed.

Lemma render_paragraph_lines_settled (node : pyobj) :
  depth node <= bound ->
  settled (_render_paragraph_lines self_render_inline node).
Proof.
  intro Hnode. unfold _render_paragraph_lines. step. step.
  apply paragraph_loop_settled, (Forall_depth_lt node); [exact Hnode|].
  eapply depth_children; eassumption.
Qed.

Lemma render_heading_settled (node : pyobj) :
  depth node <= bound -> settled (_render_heading self_render_inline node).
Proof.
  intro Hnode. unfold _render_heading. do 3 step.
  step as content Hcontent. step as children Hchildren'.
  apply settled_bind; [|intros ? ?; settle].
  apply settled_mapM.
  assert (Hchildren : Forall (fun x => depth x < bound) children).
  { apply (Forall_depth_lt node); [exact Hnode|]. eapply depth_children; eassumption. }
  eapply Forall_impl; [|exact Hchildren]. cbn beta. intros x Hx.
  now apply inline_settled.
Qed.

Lemma render_block_in_list_settled
  (node : pyobj) (list_level : nat) (continuation_prefix : string) :
  depth node < bound ->
  settled (_render_block_in_list self_render_block node list_level continuation_prefix).
Proof.
  intro Hnode. unfold _render_block_in_list. step. step as nested _.
  destruct nested; [now apply block_settled|].
  apply settled_bind; [now apply block_settled|]. intros block_lines _.
  apply settled_mapM, Forall_forall. intros line _. settle.
Qed.

Lemma blocks_in_list_settled
  (blocks : list pyobj) (list_level : nat) (continuation_prefix : string) :
  Forall (fun x => depth x < bound) blocks ->
  settled (blocks_in_list self_render_block blocks list_level continuation_prefix).
Proof.
  induction 1 as [|block blocks Hblock _ IH]; cbn [blocks_in_list]; [discriminate|].
  apply settled_bind; [now apply render_block_in_list_settled|]. intros lines _.
  apply settled_bind; [exact IH|]. discriminate.
Qed.

Lemma render_list_item_settled
  (node : pyobj) (list_level : nat) (ordered : bool) (index : Z) :
  depth node <= bound ->
  settled (_render_list_item self_render_block self_render_inline node list_level
             ordered index).
Proof.
  intro Hnode. unfold _render_list_item. cbv zeta. step as c Hc.
  destruct (negb (truthy (py_or c (VList [])))); [discriminate|].
  step as first Hindex. step as first_type _.
  assert (Hfirst : depth first < depth node) by (eapply depth_index0; eassumption).
  apply settled_bind.
  { destruct (eq_str first_type "paragraph").
    - apply settled_bind; [apply render_paragraph_lines_settled; lia|].
      intros paragraph_lines _. destruct paragraph_lines; discriminate.
    - apply settled_bind; [apply render_block_in_list_settled; lia|]. discriminate. }
  intros lines _. step.
  apply settled_bind; [|discriminate].
  apply blocks_in_list_settled, (Forall_depth_lt node); [exact Hnode|].
  eapply depth_slice_from1; eassumption.
Qed.

Lemma list_items_settled
  (items : list pyobj) (list_level : nat) (ordered : bool) (index : Z) :
  Forall (fun x => depth x < bound) items ->
  settled (list_items self_render_block self_render_inline items list_level ordered
             index).
Proof.
  intro H. revert index.
  induction H as [|item items Hitem _ IH]; intro index; cbn [list_items];
    [discriminate|].
  apply settled_bind; [apply render_list_item_settled; lia|]. intros lines _.
  apply settled_bind; [apply IH|]. discriminate.
Qed.

Lemma render_list_settled (node : pyobj) (list_level : nat) (ordered : bool) :
  depth node <= bound ->
  settled (_render_list self_render_block self_render_inline node list_level ordered).
Proof.
  intro Hnode. unfold _render_list. do 2 step.
  apply settled_bind; [destruct ordered; [auto with settled|discriminate]|].
  intros index _. do 2 step.
  apply list_items_settled, (Forall_depth_lt node); [exact Hnode|].
  eapply depth_children; eassumption.
Qed.

Lemma block_strings_settled (nodes : list pyobj) (list_level : nat) :
  Forall (fun x => depth x < bound) nodes ->
  settled (block_strings self_render_block nodes list_level).
Proof.
  induction 1 as [|node nodes Hnode _ IH]; cbn [block_strings]; [discriminate|].
  apply settled_bind; [now apply block_settled|]. intros lines _.
  destruct lines; [exact IH|]. step.
  apply settled_bind; [exact IH|]. discriminate.
Qed.

Lemma render_inner_blocks_settled
  (node : pyobj) (k : string) (content : pyobj) (list_level : nat) (tight : bool) :
  depth node <= bound ->
  get node k = Ok content ->
  settled (_render_inner_blocks self_render_block (py_or content (VList []))
             list_level tight).
Proof.
  intros Hnode Hcontent. unfold _render_inner_blocks. step.
  apply settled_bind; [|intros blocks _; destruct blocks; discriminate].
  apply block_strings_settled, (Forall_depth_lt node); [exact Hnode|].
  eapply depth_children; eassumption.
Qed.

Lemma render_blockquote_settled (node : pyobj) (list_level : nat) :
  depth node <= bound ->
  settled (_render_blockquote self_render_block node list_level).
Proof.
  intro Hnode. unfold _render_blockquote. step.
  apply settled_bind; [now apply (render_inner_blocks_settled node "content")|].
  intros inner _. destruct inner; discriminate.
Qed.

Lemma render_panel_settled (node : pyobj) (list_level : nat) :
  depth node <= bound ->
  settled (_render_panel self_render_block node list_level).
Proof.
  intro Hnode. unfold _render_panel. cbv zeta. do 3 step.
  apply settled_bind; [now apply (render_inner_blocks_settled node "content")|].
  intros inner _. destruct inner; discriminate.
Qed.

Lemma render_code_block_settled (node : pyobj) :
  depth node <= bound -> settled (_render_code_block collect_text node).
Proof.
  intro Hnode. unfold _render_code_block. cbv zeta. do 2 step.
  apply settled_bind; [now apply collect_settled|].
  intros code _. destruct code; discriminate.
Qed.

Lemma render_cell_settled (node : pyobj) :
  depth node <= bound -> settled (_render_cell self_render_block node).
Proof.
  intro Hnode. unfold _render_cell. step.
  now apply (render_inner_blocks_settled node "content").
Qed.

Lemma table_cells_settled (cells : list pyobj) (header_row : bool) :
  Forall (fun x => depth x < bound) cells ->
  settled (table_cells self_render_block cells header_row).
Proof.
  intro H. revert header_row.
  induction H as [|cell cells Hcell _ IH]; intro header_row; cbn [table_cells];
    [discriminate|].
  step. cbv zeta.
  apply settled_bind; [apply render_cell_settled; lia|]. intros cell_lines _.
  apply settled_bind; [apply IH|]. discriminate.
Qed.

Lemma table_rows_settled (rows : list pyobj) (header_row : bool) :
  Forall (fun x => depth x < bound) rows ->
  settled (table_rows self_render_block rows header_row).
Proof.
  intro H. revert header_row.
  induction H as [|row rows Hrow _ IH]; intro header_row; cbn [table_rows];
    [discriminate|].
  do 2 step.
  apply settled_bind.
  { apply table_cells_settled, (Forall_depth_lt row); [lia|].
    eapply depth_children; eassumption. }
  intros rc _. apply settled_bind; [apply IH|]. discriminate.
Qed.

Lemma render_table_settled (node : pyobj) :
  depth node <= bound -> settled (_render_table self_render_block node).
Proof.
  intro Hnode. unfold _render_table. step as c Hc. cbv zeta.
  destruct (negb (truthy (py_or c (VList [])))); [discriminate|].
  step.
  apply settled_bind.
  { apply table_rows_settled, (Forall_depth_lt node); [exact Hnode|].
    eapply depth_children; eassumption. }
  intros [rendered_rows header_row] _.
  destruct rendered_rows; discriminate.
Qed.

Lemma render_block_body_settled (node : pyobj) (list_level : nat) :
  depth node <= bound ->
  settled (render_block_body self_render_block self_render_inline collect_text node
             list_level).
Proof.
  intro Hnode. unfold render_block_body, _render_paragraph. step as node_type _.
  destruct (eq_str node_type "paragraph").
  { apply settled_bind; [now apply render_paragraph_lines_settled|]. discriminate. }
  destruct (eq_str node_type "heading").
  { apply settled_bind; [now apply render_heading_settled|]. discriminate. }
  destruct (eq_str node_type "bulletList"); [now apply render_list_settled|].
  destruct (eq_str node_type "orderedList"); [now apply render_list_settled|].
  destruct (eq_str node_type "blockquote").
  { apply settled_bind; [now apply render_blockquote_settled|]. discriminate. }
  destruct (eq_str node_type "panel").
  { apply settled_bind; [now apply render_panel_settled|]. discriminate. }
  destruct (eq_str node_type "codeBlock").
  { apply settled_bind; [now apply render_code_block_settled|]. discriminate. }
  destruct (eq_str node_type "rule"); [discriminate|].
  destruct (eq_str node_type "table").
  { apply settled_bind; [now apply render_table_settled|]. discriminate. }
  apply settled_bind; [now apply collect_settled|]. discriminate.
Qed.

End SettledBlocks.

Lemma render_block_settled (fuel : nat) (node : pyobj) (list_level : nat) :
  S (depth node) < fuel -> settled (_render_block fuel node list_level).
Proof.
  revert node list_level. induction fuel as [|fuel IH]; intros node list_level Hdepth;
    [lia|].
  apply (render_block_body_settled _ _ _ (depth node)); [| | |lia].
  - intros x level Hx. apply IH. lia.
  - intros x Hx. apply render_inline_settled. lia.
  - intros x Hx. apply collect_text_settled. lia.
Qed.

Lemma extract_doc_depth (value doc : pyobj) :
  _extract_doc value = Ok doc -> depth doc <= depth value.
Proof.
  rewrite extract_doc_unwraps. intros [= <-].
  unfold spec_unwrap.
  destruct (is_doc_node value); [lia|].
  destruct value as [| | | | |d]; try (cbn; lia). cbn [member].
  destruct (is_doc_node (field d "body")).
  { pose proof (depth_get (VDict d) "body" (field d "body") eq_refl). lia. }
  destruct (is_doc_node (field d "description")).
  { pose proof (depth_get (VDict d) "description" (field d "description") eq_refl). lia. }
  destruct (_ && _); cbn [depth]; lia.
Qed.

Lemma render_markdown_settled (value : pyobj) :
  settled (render_markdown (S (depth value)) value).
Proof.
  unfold render_markdown.
  apply settled_bind; [rewrite extract_doc_unwraps; discriminate|].
  intros doc Hdoc. apply extract_doc_depth in Hdoc.
  destruct (negb (truthy doc)); [discriminate|].
  unfold render. apply settled_bind; [auto with settled|]. intros content Hcontent.
  apply settled_bind; [auto with settled|]. intros nodes Hnodes.
  apply settled_bind; [|discriminate].
  apply (block_strings_settled _ (depth doc)).
  - intros x level Hx. apply render_block_settled. lia.
  - eapply depth_children; eassumption.
Qed.
(** ** Worked examples *)

Example heading_level_is_clamped :
  render_markdown 3
    (with_content "doc"
       [a_node "heading"
          [("attrs", VDict [("level", VInt 9)]);
           ("content", VList [a_text "Hi_x" []])]])
  = Ok "###### Hi\_x".
Proof. reflexivity. Qed.

Example nested_list_is_indented :
  render_markdown 6
    (with_content "doc"
       [with_content "bulletList"
          [with_content "listItem"
             [with_content "paragraph" [a_text "b" []];
              with_content "orderedList"
                [with_content "listItem"
                   [with_content "paragraph"
                      [a_text "x" []; a_node "hardBreak" []; a_text "y" []]]]]]])
  = Ok ("- b" ++ LF ++ "  1. x  " ++ LF ++ "     y").
Proof. reflexivity. Qed.

Example code_block_keeps_raw_text :
  render_markdown 4
    (with_content "doc"
       [a_node "codeBlock"
          [("attrs", VDict [("language", VStr "py")]);
           ("content", VList [a_text "a*b" []; a_node "hardBreak" []; a_text "c" []])]])
  = Ok ("```py" ++ LF ++ "a*b" ++ LF ++ "c" ++ LF ++ "```").
Proof. reflexivity. Qed.

Example comment_body_is_unwrapped :
  render_markdown 3
    (VDict [("id", VStr "10001");
            ("body", with_content "doc" [with_content "paragraph" [a_text "q" []]])])
  = Ok "q".
Proof. reflexivity. Qed.

(** * Further properties of the code *)

(** ** Escaping *)

Lemma replace_append (c : ascii) (r s t : string) :
  replace c r (s ++ t) = replace c r s ++ replace c r t.
Proof.
  induction s as [|a s IH]; [reflexivity|].
  cbn [append replace]. rewrite IH.
  destruct (Ascii.eqb a c); [now rewrite append_assoc|reflexivity].
Qed.

Lemma replace_flat_map (c : ascii) (r : string) (f : ascii -> string) (s : string) :
  replace c r (flat_map_chars f s) = flat_map_chars (fun a => replace c r (f a)) s.
Proof.
  induction s as [|a s IH]; [reflexivity|].
  cbn [flat_map_chars]. now rewrite replace_append, IH.
Qed.

Lemma flat_map_chars_ext (f g : ascii -> string) (s : string) :
  (forall a, f a = g a) -> flat_map_chars f s = flat_map_chars g s.
Proof.
  intro H. induction s as [|a s IH]; [reflexivity|].
  cbn [flat_map_chars]. now rewrite H, IH.
Qed.

Lemma flat_map_chars_str1 (s : string) : flat_map_chars str1 s = s.
Proof. induction s as [|a s IH]; [reflexivity|]. cbn. now rewrite IH. Qed.

Lemma flat_map_chars_append (f : ascii -> string) (s t : string) :
  flat_map_chars f (s ++ t) = flat_map_chars f s ++ flat_map_chars f t.
Proof.
  induction s as [|a s IH]; [reflexivity|].
  cbn [append flat_map_chars]. now rewrite IH, append_assoc.
Qed.

Lemma escape_str_one_char (a : ascii) : escape_str (str1 a) = escape_char a.
Proof. destruct a as [[] [] [] [] [] [] [] []]; reflexivity. Qed.

Lemma escape_str_chars (s : string) : escape_str s = flat_map_chars escape_char s.
Proof.
  unfold escape_str. cbn [fold_left].
  rewrite <- (flat_map_chars_str1 s) at 1.
  rewrite !replace_flat_map.
  apply flat_map_chars_ext. intro a. exact (escape_str_one_char a).
Qed.

(** X1: the seven replacements of [_escape_markdown], the backslash first,
    add up to one pass over the text: each of the characters
    [\ ` * _ ~ [ ]] gets exactly one backslash in front of it and every
    other character stays as it is; no backslash that the function put in
    is escaped again.  So escaping goes through concatenation. *)
Theorem escape_markdown_per_character (text more : string) :
  escape_str text = flat_map_chars escape_char text
  /\ escape_str (text ++ more) = escape_str text ++ escape_str more.
Proof.
  split; [apply escape_str_chars|].
  now rewrite !escape_str_chars, flat_map_chars_append.
Qed.

Lemma read_escaped_flat_map (s : string) :
  read_escaped (flat_map_chars escape_char s) = Some s.
Proof.
  induction s as [|a s IH]; [reflexivity|].
  cbn [flat_map_chars]. unfold escape_char at 1.
  destruct (is_markdown_special a) eqn:Hspecial.
  - change (String backslash (str1 a) ++ flat_map_chars escape_char s)
      with (String backslash (String a (flat_map_chars escape_char s))).
    cbn [read_escaped]. rewrite Ascii.eqb_refl. now rewrite IH.
  - change (str1 a ++ flat_map_chars escape_char s)
      with (String a (flat_map_chars escape_char s)).
    cbn [read_escaped]. rewrite Hspecial.
    assert (Hbs : Ascii.eqb a backslash = false).
    { destruct (Ascii.eqb a backslash) eqn:E; [|reflexivity].
      apply Ascii.eqb_eq in E. subst a. discriminate. }
    now rewrite Hbs, IH.
Qed.

(** X2: escaped text is plain text for a Markdown reader and reads back as
    the original: no special character of the output stands without its
    backslash, no backslash is left dangling, and dropping the escapes
    gives the input again. *)
Theorem escape_markdown_reads_back (text : string) :
  _escape_markdown (VStr text) = Ok (escape_str text)
  /\ read_escaped (escape_str text) = Some text.
Proof.
  split; [reflexivity|].
  rewrite escape_str_chars.
  apply read_escaped_flat_map.
Qed.

(** ** Links *)

Lemma first_link_found
  (before : list (list (string * pyobj))) (link : list (string * pyobj))
  (after : list (list (string * pyobj))) :
  existsb is_link_mark before = false ->
  is_link_mark link = true ->
  first_link (map VDict (before ++ link :: after)) = Ok (VDict link).
Proof.
  intros Hbefore Hlink. induction before as [|d ds IH].
  - cbn [app map first_link]. rewrite get_dict. cbn [bind].
    unfold is_link_mark, mark_type in Hlink. now rewrite Hlink.
  - cbn [existsb] in Hbefore. apply orb_false_iff in Hbefore.
    destruct Hbefore as [Hd Hds].
    cbn [app map first_link]. rewrite get_dict. cbn [bind].
    unfold is_link_mark, mark_type in Hd. rewrite Hd. now apply IH.
Qed.

(** X3: of the link marks of a text node only the first one counts.  With
    an href it wraps the whole marked text as [[text](href)]; without one
    the text stays unlinked, whatever link marks follow it. *)
Theorem first_link_mark_decides
  (fuel : nat) (node : list (string * pyobj)) (text : string)
  (before : list (list (string * pyobj))) (link : list (string * pyobj))
  (after : list (list (string * pyobj))) (attrs : list (string * pyobj)) :
  field node "type" = VStr "text" ->
  py_or (field node "text") (VStr "") = VStr text ->
  field node "marks" = VList (map VDict (before ++ link :: after)) ->
  existsb is_code_mark (before ++ link :: after) = false ->
  existsb is_link_mark before = false ->
  is_link_mark link = true ->
  py_or (field link "attrs") (VDict []) = VDict attrs ->
  let wrapped :=
    fold_left wrap_mark (map mark_type (before ++ link :: after)) (escape_str text) in
  _render_inline (S fuel) (VDict node)
  = Ok (VStr (if truthy (field attrs "href")
              then "[" ++ wrapped ++ "](" ++ py_str (field attrs "href") ++ ")"
              else wrapped)).
Proof.
  intros Htype Htext Hmarks Hcode Hbefore Hlink Hattrs wrapped.
  rewrite (render_inline_text fuel node Htype), Htext, Hmarks.
  replace (py_or (VList (map VDict (before ++ link :: after))) (VList []))
    with (VList (map VDict (before ++ link :: after)))
    by (destruct before; reflexivity).
  rewrite (apply_marks_no_code text _ Hcode). fold wrapped.
  unfold apply_link. rewrite (first_link_found before link after Hbefore Hlink).
  cbn [bind].
  assert (Htruthy : truthy (VDict link) = true).
  { apply (field_some_truthy link "type"). intro E.
    unfold is_link_mark, mark_type in Hlink. now rewrite E in Hlink. }
  rewrite Htruthy, get_dict. cbn [bind]. rewrite Hattrs, get_dict. cbn [bind].
  now destruct (truthy (field attrs "href")).
Qed.

Lemma first_link_mark_decides_witness :
  _render_inline 1
    (a_text "a_b"
       [a_mark "em"; a_node "link" [];
        a_node "link" [("attrs", VDict [("href", VStr "http://x")])]])
  = Ok (VStr "*a\_b*").
Proof.
  apply (first_link_mark_decides 0
           [("type", VStr "text"); ("text", VStr "a_b");
            ("marks",
             VList [a_mark "em"; a_node "link" [];
                    a_node "link" [("attrs", VDict [("href", VStr "http://x")])]])]
           "a_b"
           [[("type", VStr "em")]]
           [("type", VStr "link")]
           [[("type", VStr "link"); ("attrs", VDict [("href", VStr "http://x")])]]
           []);
    reflexivity.
Defined.

(** ** Lines are single lines *)

Lemma single_line_append (s t : string) :
  single_line (s ++ t) = single_line s && single_line t.
Proof.
  induction s as [|c s IH]; [reflexivity|].
  cbn [append single_line]. rewrite IH. now rewrite andb_assoc.
Qed.

Lemma splitlines_single_bounded (n : nat) (s : string) :
  String.length s <= n -> Forall (fun l => single_line l = true) (splitlines s).
Proof.
  revert s. induction n as [|n IH]; intros s Hlen.
  - destruct s; [constructor|cbn in Hlen; lia].
  - destruct s as [|c s']; [constructor|]. cbn [String.length] in Hlen.
    cbn [splitlines].
    destruct (Ascii.eqb c (chr 13)).
    { destruct s' as [|c' s'']; [repeat constructor|].
      destruct (Ascii.eqb c' (chr 10)).
      - constructor; [reflexivity|]. apply IH. cbn [String.length] in Hlen. lia.
      - constructor; [reflexivity|]. apply IH. lia. }
    destruct (is_linebreak c) eqn:Hc.
    { constructor; [reflexivity|]. apply IH. lia. }
    specialize (IH s' ltac:(lia)).
    destruct (splitlines s') as [|l ls]; [repeat constructor; cbn; now rewrite Hc|].
    inversion IH as [|? ? Hl Hls]; subst.
    constructor; [cbn [single_line]; now rewrite Hc|exact Hls].
Qed.

Lemma splitlines_single (s : string) :
  Forall (fun l => single_line l = true) (splitlines s).
Proof. now apply (splitlines_single_bounded (String.length s)). Qed.

Lemma join_single (sep : string) (l : list string) :
  single_line sep = true ->
  Forall (fun s => single_line s = true) l ->
  single_line (join sep l) = true.
Proof.
  intros Hsep H. unfold join. induction H as [|s l Hs Hl IH]; [reflexivity|].
  cbn [concat]. destruct l as [|t l]; [exact Hs|].
  rewrite !single_line_append, Hs, Hsep. exact IH.
Qed.

Lemma lstrip_single (p : ascii -> bool) (s : string) :
  single_line s = true -> single_line (lstrip_with p s) = true.
Proof.
  induction s as [|c s IH]; [reflexivity|].
  intro H. cbn [lstrip_with]. destruct (p c); [|exact H].
  cbn [single_line] in H. apply andb_prop in H. now apply IH.
Qed.

Lemma rstrip_single (p : ascii -> bool) (s : string) :
  single_line s = true -> single_line (rstrip_with p s) = true.
Proof.
  induction s as [|c s IH]; [reflexivity|].
  intro H. cbn [single_line] in H. apply andb_prop in H. destruct H as [Hc Hs].
  cbn [rstrip_with]. destruct (is_empty (rstrip_with p s) && p c); [reflexivity|].
  cbn [single_line]. now rewrite Hc, IH.
Qed.

Lemma inner_blocks_single
  (self_render_block : pyobj -> nat -> result (list pyobj))
  (nodes : pyobj) (list_level : nat) (tight : bool) (lines : list string) :
  _render_inner_blocks self_render_block nodes list_level tight = Ok lines ->
  Forall (fun l => single_line l = true) lines.
Proof.
  unfold _render_inner_blocks.
  destruct (iterate nodes) as [ns| |]; cbn [bind]; try discriminate.
  destruct (block_strings _ ns list_level) as [[|b bs]| |]; cbn [bind];
    try discriminate; intros [= <-]; [constructor|apply splitlines_single].
Qed.

(** ** The dispatch of [_render_block] *)


Lemma render_block_list (fuel list_level : nat) (node : list (string * pyobj)) :
  field node "type" = VStr "bulletList" \/ field node "type" = VStr "orderedList" ->
  _render_block (S fuel) (VDict node) list_level
  = _render_list (_render_block fuel) (_render_inline fuel) (VDict node) list_level
      (eq_str (field node "type") "orderedList").
Proof.
  intros [Htype|Htype]; cbn [_render_block]; unfold render_block_body;
    rewrite get_dict, Htype; reflexivity.
Qed.


Lemma render_block_panel (fuel list_level : nat) (node : list (string * pyobj)) :
  field node "type" = VStr "panel" ->
  _render_block (S fuel) (VDict node) list_level
  = (lines <- _render_panel (_render_block fuel) (VDict node) list_level ;;
     Ok (map VStr lines)).
Proof.
  intro Htype. cbn [_render_block]. unfold render_block_body.
  rewrite get_dict, Htype. reflexivity.
Qed.

Lemma render_block_code_block (fuel list_level : nat) (node : list (string * pyobj)) :
  field node "type" = VStr "codeBlock" ->
  _render_block (S fuel) (VDict node) list_level
  = (lines <- _render_code_block (_collect_text fuel) (VDict node) ;;
     Ok (map VStr lines)).
Proof.
  intro Htype. cbn [_render_block]. unfold render_block_body.
  rewrite get_dict, Htype. reflexivity.
Qed.

Lemma render_block_table (fuel list_level : nat) (node : list (string * pyobj)) :
  field node "type" = VStr "table" ->
  _render_block (S fuel) (VDict node) list_level
  = (lines <- _render_table (_render_block fuel) (VDict node) ;;
     Ok (map VStr lines)).
Proof.
  intro Htype. cbn [_render_block]. unfold render_block_body.
  rewrite get_dict, Htype. reflexivity.
Qed.

(** ** The grid of a table *)

Lemma table_cells_texts
  (self_render_block : pyobj -> nat -> result (list pyobj))
  (cells : list pyobj) (header_row : bool) (texts : list string) (header_row' : bool) :
  table_cells self_render_block cells header_row = Ok (texts, header_row') ->
  Forall (fun t => single_line t = true) texts.
Proof.
  revert header_row texts header_row'.
  induction cells as [|cell cells IH]; intros header_row texts header_row';
    cbn [table_cells].
  - intros [= <- _]. constructor.
  - destruct (get cell "type") as [cell_type| |]; cbn [bind]; try discriminate.
    destruct (_render_cell _ cell) as [cell_lines| |] eqn:Hcell; cbn [bind];
      try discriminate.
    destruct (table_cells _ cells _) as [[rest flag]| |] eqn:Hrest; cbn [bind];
      try discriminate.
    cbn [fst snd]. intros [= <- _]. constructor; [|exact (IH _ _ _ Hrest)].
    unfold strip, rstrip. apply rstrip_single, lstrip_single, join_single;
      [reflexivity|].
    unfold _render_cell in Hcell.
    destruct (get cell "content") as [content| |]; cbn [bind] in Hcell;
      try discriminate.
    exact (inner_blocks_single _ _ _ _ _ Hcell).
Qed.

Lemma table_rows_texts
  (self_render_block : pyobj -> nat -> result (list pyobj))
  (rows : list pyobj) (header_row : bool) (rendered : list (list string))
  (header_row' : bool) :
  table_rows self_render_block rows header_row = Ok (rendered, header_row') ->
  Forall (Forall (fun t => single_line t = true)) rendered.
Proof.
  revert header_row rendered header_row'.
  induction rows as [|row rows IH]; intros header_row rendered header_row';
    cbn [table_rows].
  - intros [= <- _]. constructor.
  - destruct (get row "content") as [c| |]; cbn [bind]; try discriminate.
    destruct (iterate _) as [cells| |]; cbn [bind]; try discriminate.
    destruct (table_cells _ cells header_row) as [[texts flag]| |] eqn:Hcells;
      cbn [bind]; try discriminate.
    destruct (table_rows _ rows _) as [[rest flag']| |] eqn:Hrest; cbn [bind];
      try discriminate.
    cbn [fst snd]. intros [= <- _].
    constructor; [exact (table_cells_texts _ _ _ _ _ Hcells)|exact (IH _ _ _ Hrest)].
Qed.

Lemma max_len_bound (rows : list (list string)) :
  Forall (fun row => List.length row <= max_len rows) rows.
Proof.
  induction rows as [|row rows IH]; [constructor|].
  cbn [max_len fold_right]. constructor; [lia|].
  eapply Forall_impl; [|exact IH]. cbn beta. intros r Hr.
  fold (max_len rows). lia.
Qed.

Lemma pad_row_length (col_count : nat) (row : list string) :
  List.length row <= col_count -> List.length (pad_row col_count row) = col_count.
Proof. intro H. unfold pad_row. rewrite length_app, repeat_length. lia. Qed.

Lemma pad_row_single (col_count : nat) (row : list string) :
  Forall (fun t => single_line t = true) row ->
  Forall (fun t => single_line t = true) (pad_row col_count row).
Proof.
  intro H. unfold pad_row. apply Forall_app. split; [exact H|].
  apply Forall_forall. intros t Ht. apply repeat_spec in Ht. now subst t.
Qed.

(** What [_render_table] returns is a grid of cell texts, one pipe line for
    each row of the grid. *)
Lemma render_table_grid
  (self_render_block : pyobj -> nat -> result (list pyobj)) (node : pyobj)
  (lines : list string) :
  _render_table self_render_block node = Ok lines ->
  exists (grid : list (list string)) (col_count : nat),
    lines = map pipe_line grid
    /\ Forall (fun row => List.length row = col_count) grid
    /\ Forall (Forall (fun t => single_line t = true)) grid.
Proof.
  unfold _render_table.
  destruct (get node "content") as [c| |]; cbn [bind]; try discriminate.
  cbv zeta. destruct (negb (truthy (py_or c (VList [])))).
  { intros [= <-]. exists [], 0%nat. repeat split; constructor. }
  destruct (iterate _) as [row_nodes| |]; cbn [bind]; try discriminate.
  destruct (table_rows _ row_nodes false) as [[rendered header_row]| |] eqn:Hrows;
    cbn [bind]; try discriminate.
  apply table_rows_texts in Hrows.
  destruct rendered as [|first rest].
  { intros [= <-]. exists [], 0%nat. repeat split; constructor. }
  set (col_count := max_len (first :: rest)).
  pose proof (max_len_bound (first :: rest)) as Hbound. fold col_count in Hbound.
  assert (Hpad : forall rows,
             Forall (fun row => List.length row <= col_count) rows ->
             Forall (fun row => List.length row = col_count)
               (map (pad_row col_count) rows)).
  { intros rows H. apply Forall_map. eapply Forall_impl; [|exact H].
    cbn beta. intros row. apply pad_row_length. }
  assert (Hsingle : forall rows,
             Forall (Forall (fun t => single_line t = true)) rows ->
             Forall (Forall (fun t => single_line t = true))
               (map (pad_row col_count) rows)).
  { intros rows H. apply Forall_map. eapply Forall_impl; [|exact H].
    cbn beta. intros row. apply pad_row_single. }
  intros [= <-]. destruct header_row.
  - exists (pad_row col_count first :: repeat "---" col_count
              :: map (pad_row col_count) rest), col_count.
    inversion Hbound as [|? ? Hfirst Hrest]; subst.
    inversion Hrows as [|? ? Sfirst Srest]; subst.
    split; [cbn [app map tl]; now rewrite map_map|].
    split.
    + constructor; [now apply pad_row_length|].
      constructor; [apply repeat_length|now apply Hpad].
    + constructor; [now apply pad_row_single|].
      constructor; [|now apply Hsingle].
      apply Forall_forall. intros t Ht. apply repeat_spec in Ht. now subst t.
  - exists (pad_row col_count first :: map (pad_row col_count) (first :: rest)),
      col_count.
    split; [cbn [app map]; now rewrite map_map|].
    split.
    + constructor; [|now apply Hpad].
      inversion Hbound; subst. now apply pad_row_length.
    + constructor; [|now apply Hsingle].
      inversion Hrows; subst. now apply pad_row_single.
Qed.

Lemma pipe_line_single (row : list string) :
  Forall (fun t => single_line t = true) row -> single_line (pipe_line row) = true.
Proof.
  intro H. unfold pipe_line. rewrite !single_line_append.
  now rewrite (join_single " | " row eq_refl H).
Qed.

(** X4: every line a table renders to is one line: whatever its cells
    hold (several blocks, hard breaks, code), no line of the table contains
    a line boundary, the lines of a cell being joined by [<br>]. *)
Theorem table_rows_stay_on_one_line
  (fuel list_level : nat) (node : list (string * pyobj)) (lines : list pyobj) :
  field node "type" = VStr "table" ->
  _render_block (S fuel) (VDict node) list_level = Ok lines ->
  Forall (fun line => exists s, line = VStr s /\ single_line s = true) lines.
Proof.
  intros Htype. rewrite (render_block_table fuel list_level node Htype).
  destruct (_render_table _ (VDict node)) as [table_lines| |] eqn:Htable;
    cbn [bind]; try discriminate.
  intros [= <-].
  destruct (render_table_grid _ _ _ Htable) as (grid & col_count & -> & _ & Hsingle).
  rewrite map_map. apply Forall_map. eapply Forall_impl; [|exact Hsingle].
  cbn beta. intros row Hrow. exists (pipe_line row).
  split; [reflexivity|now apply pipe_line_single].
Qed.

Lemma table_rows_stay_on_one_line_witness :
  Forall (fun line => exists s, line = VStr s /\ single_line s = true)
    [VStr "| a  <br>b | c |"; VStr "| a  <br>b | c |"].
Proof.
  apply (table_rows_stay_on_one_line 3 0
           [("type", VStr "table");
            ("content",
             VList [a_row [with_content "tableCell"
                             [with_content "paragraph"
                                [a_text "a" []; a_node "hardBreak" []; a_text "b" []]];
                           a_cell "tableCell" "c"]])]
           _ eq_refl eq_refl).
Defined.

(** ** Block quotes and panels *)

Lemma rstrip_with_idempotent (p : ascii -> bool) (s : string) :
  rstrip_with p (rstrip_with p s) = rstrip_with p s.
Proof.
  induction s as [|c s IH]; [reflexivity|].
  cbn [rstrip_with]. destruct (is_empty (rstrip_with p s) && p c) eqn:E;
    [reflexivity|].
  cbn [rstrip_with]. now rewrite IH, E.
Qed.

Lemma rstrip_quote (text : string) :
  exists s, rstrip ("> " ++ text) = ">" ++ s
            /\ rstrip (">" ++ s) = ">" ++ s
            /\ (single_line text = true -> single_line (">" ++ s) = true).
Proof.
  unfold rstrip.
  change ("> " ++ text) with ("" ++ String ">" (" " ++ text)).
  rewrite rstrip_with_keeps by reflexivity. cbn [append].
  exists (rstrip_with isspace (String " " text)). split; [reflexivity|]. split.
  - change (String ">" ?s) with ("" ++ String ">" s).
    rewrite rstrip_with_keeps by reflexivity. now rewrite rstrip_with_idempotent.
  - intro Htext. cbn [single_line]. apply rstrip_single. exact Htext.
Qed.

Lemma quote_line_quoted (line : string) :
  single_line line = true -> quoted_line (VStr (quote_line line)).
Proof.
  intro Hline. unfold quote_line.
  destruct (rstrip_quote line) as (s & -> & Hs & Hsingle).
  exists s. auto.
Qed.

Lemma quoted_line_quote_start (line : pyobj) : quoted_line line -> quote_start line.
Proof. intros (s & Hs & Hr & _). now exists s. Qed.

Lemma quote_lines_quoted (lines : list string) :
  Forall (fun l => single_line l = true) lines ->
  Forall quoted_line (map VStr (map quote_line lines)).
Proof.
  intro H. rewrite map_map. apply Forall_map. eapply Forall_impl; [|exact H].
  cbn beta. intros line. apply quote_line_quoted.
Qed.



Lemma panel_title_line (escaped line0 : string) :
  exists rest,
    rstrip ("> " ++ ("**" ++ escaped ++ "** ") ++ line0)
    = "> **" ++ escaped ++ "**" ++ rest.
Proof.
  exists (rstrip (" " ++ line0)). unfold rstrip.
  replace ("> " ++ ("**" ++ escaped ++ "** ") ++ line0)
    with (("> **" ++ escaped ++ "*") ++ String "*" (" " ++ line0))
    by (cbn [append]; rewrite !append_assoc; reflexivity).
  rewrite rstrip_with_keeps by reflexivity.
  cbn [append]. now rewrite !append_assoc.
Qed.

(** X6: a panel renders like a block quote, with its title in front: it
    gives at least one line, every line starts with [>] and ends in no
    whitespace, every line after the first is a quoted line, and when
    [attrs.title] is set the first line starts with the title, escaped and
    in bold, also when the panel has no content. *)
Theorem panel_lines_are_quoted
  (fuel list_level : nat) (node attrs : list (string * pyobj)) (lines : list pyobj) :
  field node "type" = VStr "panel" ->
  py_or (field node "attrs") (VDict []) = VDict attrs ->
  _render_block (S fuel) (VDict node) list_level = Ok lines ->
  lines <> []
  /\ Forall quote_start lines
  /\ Forall quoted_line (tl lines)
  /\ (truthy (field attrs "title") = true ->
      exists rest more,
        lines
        = VStr ("> **" ++ escape_str (py_str (field attrs "title")) ++ "**" ++ rest)
            :: more).
Proof.
  intros Htype Hattrs. rewrite (render_block_panel fuel list_level node Htype).
  unfold _render_panel. rewrite get_dict. cbn [bind]. cbv zeta.
  rewrite Hattrs, get_dict. cbn [bind]. rewrite get_dict. cbn [bind].
  destruct (_render_inner_blocks _ _ list_level false) as [inner| |] eqn:Hinner;
    cbn [bind]; try discriminate.
  apply inner_blocks_single in Hinner.
  assert (Hstart : forall text, quote_start (VStr (rstrip ("> " ++ text)))).
  { intro text. destruct (rstrip_quote text) as (s & -> & Hs & _). now exists s. }
  destruct inner as [|line0 rest]; cbn [bind]; intros [= <-]; cbn [map tl].
  - split; [discriminate|]. split; [repeat constructor; apply Hstart|].
    split; [constructor|]. intros Htitle. rewrite Htitle. cbv iota.
    destruct (panel_title_line (escape_str (py_str (field attrs "title"))) "")
      as (tail & Etail).
    rewrite append_nil_r in Etail.
    exists tail, []. do 2 f_equal. exact Etail.
  - inversion Hinner as [|? ? Hline0 Hrest]; subst.
    split; [discriminate|]. split; [|split].
    + constructor.
      * destruct (negb (is_empty _)); apply Hstart.
      * eapply Forall_impl; [exact quoted_line_quote_start|].
        now apply quote_lines_quoted.
    + now apply quote_lines_quoted.
    + intros Htitle. rewrite Htitle. cbv iota.
      destruct (panel_title_line (escape_str (py_str (field attrs "title"))) line0)
        as (tail & Etail).
      exists tail, (map VStr (map quote_line rest)). do 2 f_equal. exact Etail.
Qed.

Lemma panel_lines_are_quoted_witness :
  [VStr "> **T\*** x"; VStr ">"; VStr "> y"] <> []
  /\ Forall quote_start [VStr "> **T\*** x"; VStr ">"; VStr "> y"]
  /\ Forall quoted_line (tl [VStr "> **T\*** x"; VStr ">"; VStr "> y"])
  /\ (truthy (VStr "T*") = true ->
      exists rest more,
        [VStr "> **T\*** x"; VStr ">"; VStr "> y"]
        = VStr ("> **" ++ escape_str (py_str (VStr "T*")) ++ "**" ++ rest) :: more).
Proof.
  apply (panel_lines_are_quoted 2 0
           [("type", VStr "panel");
            ("attrs", VDict [("title", VStr "T*")]);
            ("content", VList [with_content "paragraph" [a_text "x" []];
                               with_content "paragraph" [a_text "y" []]])]
           [("title", VStr "T*")]
           _ eq_refl eq_refl eq_refl).
Defined.

(** ** Code blocks *)

Lemma collect_text_children
  (fuel : nat) (children : list pyobj) (texts : list string) :
  Forall2 collects_as children texts ->
  mapM (_collect_text (S fuel)) children = Ok (map VStr texts).
Proof.
  induction 1 as [|child text children texts (d & -> & Hchild) _ IH]; [reflexivity|].
  cbn [mapM map]. rewrite IH.
  cbn [_collect_text]. unfold collect_text_body. cbn [is_dict negb].
  rewrite get_dict. cbn [bind].
  destruct Hchild as [[Htype Htext]|[Htype ->]]; rewrite Htype.
  - change (eq_str (VStr "text") "text") with true. cbv iota.
    rewrite get_dict. cbn [bind]. now rewrite Htext.
  - reflexivity.
Qed.

Lemma as_strs_strings (l : list string) : as_strs (map VStr l) = Ok l.
Proof. induction l as [|s l IH]; [reflexivity|]. cbn. now rewrite IH. Qed.

Lemma py_join_strings (sep : string) (l : list string) :
  py_join sep (map VStr l) = Ok (join sep l).
Proof. unfold py_join. now rewrite as_strs_strings. Qed.

(** X7: a code block emits its text verbatim.  With text and hard-break
    children it renders to the fence (with the language when there is
    one), the lines of the concatenated raw text, and the closing fence:
    nothing is escaped, marks are ignored, a hard break is a newline, and an
    empty body still gives one empty line. *)
Theorem code_block_is_verbatim
  (fuel list_level : nat) (node attrs : list (string * pyobj))
  (children : list pyobj) (texts : list string) :
  field node "type" = VStr "codeBlock" ->
  py_or (field node "attrs") (VDict []) = VDict attrs ->
  field node "content" = VList children ->
  Forall2 collects_as children texts ->
  let language := py_or (field attrs "language") (VStr "") in
  let fence := if truthy language then "```" ++ py_str language else "```" in
  let body := match splitlines (join "" texts) with [] => [""] | ls => ls end in
  _render_block (S (S (S fuel))) (VDict node) list_level
  = Ok (map VStr (fence :: body ++ ["```"])%list).
Proof.
  intros Htype Hattrs Hcontent Hchildren language fence body.
  rewrite (render_block_code_block _ list_level node Htype).
  unfold _render_code_block. rewrite get_dict. cbn [bind]. cbv zeta.
  rewrite Hattrs, get_dict. cbn [bind].
  change (_collect_text (S (S fuel)) (VDict node))
    with (collect_text_body (_collect_text (S fuel)) (VDict node)).
  unfold collect_text_body at 1. cbn [is_dict negb].
  rewrite get_dict, Htype. cbn [bind].
  change (eq_str (VStr "codeBlock") "text") with false.
  change (eq_str (VStr "codeBlock") "hardBreak") with false.
  cbn [in_strs existsb String.eqb Ascii.eqb Bool.eqb orb bind]. cbv iota.
  rewrite get_dict, Hcontent. cbn [bind].
  rewrite (collect_text_children fuel children texts Hchildren). cbn [bind].
  rewrite py_join_strings. cbn [bind]. reflexivity.
Qed.

Lemma code_block_is_verbatim_witness :
  _render_block 3
    (a_node "codeBlock"
       [("attrs", VDict [("language", VStr "py")]);
        ("content",
         VList [a_text "a*b" [a_mark "strong"]; a_node "hardBreak" [];
                a_text "[c]" []])])
    0
  = Ok [VStr "```py"; VStr "a*b"; VStr "[c]"; VStr "```"].
Proof.
  apply (code_block_is_verbatim 0 0
           [("type", VStr "codeBlock");
            ("attrs", VDict [("language", VStr "py")]);
            ("content",
             VList [a_text "a*b" [a_mark "strong"]; a_node "hardBreak" [];
                    a_text "[c]" []])]
           [("language", VStr "py")]
           [a_text "a*b" [a_mark "strong"]; a_node "hardBreak" []; a_text "[c]" []]
           ["a*b"; LF; "[c]"]);
    try reflexivity.
  repeat constructor; eexists; split; try reflexivity;
    solve [left; split; reflexivity | right; split; reflexivity].
Defined.

(** An empty code block still has a body line. *)
Example empty_code_block_has_a_line :
  _render_block 3 (a_node "codeBlock" []) 0 = Ok [VStr "```"; VStr ""; VStr "```"].
Proof. reflexivity. Qed.

(** ** Headings *)




(** ** Indentation of lists *)

Lemma length_append (s t : string) :
  String.length (s ++ t) = (String.length s + String.length t)%nat.
Proof. induction s as [|c s IH]; [reflexivity|]. cbn. now rewrite IH. Qed.

Lemma str_repeat_space_add (a b : nat) :
  str_repeat " " (a + b) = str_repeat " " a ++ str_repeat " " b.
Proof. induction a as [|a IH]; [reflexivity|]. cbn. now rewrite IH. Qed.

Lemma str_repeat_indent (n : nat) :
  str_repeat " " (String.length (str_repeat INDENT n)) = str_repeat INDENT n.
Proof. induction n as [|n IH]; [reflexivity|]. cbn in *. now rewrite IH. Qed.

Lemma continuation_prefix_indent (list_level : nat) (bullet : string) :
  str_repeat " " (String.length (str_repeat INDENT list_level ++ bullet))
  = str_repeat INDENT list_level ++ str_repeat " " (String.length bullet).
Proof. now rewrite length_append, str_repeat_space_add, str_repeat_indent. Qed.

Lemma str_repeat_comm (s : string) (n : nat) :
  s ++ str_repeat s n = str_repeat s n ++ s.
Proof.
  induction n as [|n IH]; [cbn; now rewrite append_nil_r|].
  cbn [str_repeat]. now rewrite IH at 1; rewrite append_assoc.
Qed.

Lemma indented_deeper (list_level : nat) (line : pyobj) :
  indented (S list_level) line -> indented list_level line.
Proof.
  intros (s & ->). exists (INDENT ++ s).
  cbn [str_repeat]. now rewrite str_repeat_comm, append_assoc.
Qed.

Lemma prefixed_lines (prefix : string) (block_lines lines : list pyobj) :
  mapM (fun line => s <- str_add prefix line ;; Ok (VStr s)) block_lines = Ok lines ->
  Forall (fun line => exists s, line = VStr (prefix ++ s)) lines.
Proof.
  revert lines. induction block_lines as [|line block_lines IH]; intros lines;
    cbn [mapM].
  - intros [= <-]. constructor.
  - destruct line; cbn [str_add bind]; try discriminate.
    destruct (mapM _ block_lines) as [rest| |]; cbn [bind]; try discriminate.
    intros [= <-]. constructor; [eauto|now apply IH].
Qed.

Section Indentation.

Variable self_render_block : pyobj -> nat -> result (list pyobj).
Variable self_render_inline : pyobj -> result pyobj.

Hypothesis nested_lists_indented :
  forall node node_type list_level lines,
    get node "type" = Ok node_type ->
    is_list_type node_type = true ->
    self_render_block node list_level = Ok lines ->
    Forall (indented list_level) lines.

Lemma block_in_list_indented
  (node : pyobj) (list_level : nat) (pad : string) (lines : list pyobj) :
  _render_block_in_list self_render_block node list_level
    (str_repeat INDENT list_level ++ pad) = Ok lines ->
  Forall (indented list_level) lines.
Proof.
  unfold _render_block_in_list.
  destruct (get node "type") as [node_type| |] eqn:Htype; cbn [bind];
    try discriminate.
  destruct (in_strs node_type _) as [nested| |] eqn:Hnested; cbn [bind];
    try discriminate.
  destruct nested.
  - intro Hrender.
    assert (Hlist : is_list_type node_type = true).
    { destruct node_type; try discriminate. cbn [in_strs] in Hnested.
      injection Hnested as Hnested. unfold is_list_type. cbn [eq_str].
      cbn [existsb] in Hnested. now rewrite orb_false_r in Hnested. }
    eapply Forall_impl; [exact (indented_deeper list_level)|].
    exact (nested_lists_indented _ _ _ _ Htype Hlist Hrender).
  - destruct (self_render_block node list_level) as [block_lines| |]; cbn [bind];
      try discriminate.
    intro Hlines. apply prefixed_lines in Hlines.
    eapply Forall_impl; [|exact Hlines]. cbn beta. intros line (s & ->).
    exists (pad ++ s). now rewrite append_assoc.
Qed.

Lemma blocks_in_list_indented
  (blocks : list pyobj) (list_level : nat) (pad : string) (lines : list pyobj) :
  blocks_in_list self_render_block blocks list_level
    (str_repeat INDENT list_level ++ pad) = Ok lines ->
  Forall (indented list_level) lines.
Proof.
  revert lines. induction blocks as [|block blocks IH]; intros lines;
    cbn [blocks_in_list].
  - intros [= <-]. constructor.
  - destruct (_render_block_in_list _ block _ _) as [first| |] eqn:Hfirst;
      cbn [bind]; try discriminate.
    destruct (blocks_in_list _ blocks _ _) as [more| |]; cbn [bind];
      try discriminate.
    intros [= <-]. apply Forall_app. split; [|now apply IH].
    exact (block_in_list_indented _ _ _ _ Hfirst).
Qed.

Lemma list_item_indented
  (node : pyobj) (list_level : nat) (ordered : bool) (index : Z)
  (lines : list pyobj) :
  _render_list_item self_render_block self_render_inline node list_level ordered index
  = Ok lines ->
  Forall (indented list_level) lines.
Proof.
  unfold _render_list_item. cbv zeta.
  rewrite (continuation_prefix_indent list_level
             ((if ordered then decimal index ++ "." else "-") ++ " ")).
  set (indent := str_repeat INDENT list_level).
  set (bullet := if ordered then decimal index ++ "." else "-").
  set (pad := str_repeat " " (String.length (bullet ++ " "))).
  assert (Hbare : indented list_level (VStr (rstrip (indent ++ bullet ++ " ")))).
  { exists bullet. f_equal. unfold bullet. destruct ordered.
    - apply rstrip_bullet_prefix.
    - unfold rstrip.
      change (indent ++ "-" ++ " ") with (indent ++ String "-" " ").
      now rewrite rstrip_with_keeps by reflexivity. }
  destruct (get node "content") as [c| |] eqn:Hc; cbn [bind]; try discriminate.
  destruct (negb (truthy (py_or c (VList [])))).
  { intros [= <-]. now constructor. }
  destruct (index0 _) as [first| |]; cbn [bind]; try discriminate.
  destruct (get first "type") as [first_type| |]; cbn [bind]; try discriminate.
  assert (Htail : forall head,
             Forall (indented list_level) head ->
             (rest <- slice_from1 (py_or c (VList [])) ;;
              more <- blocks_in_list self_render_block rest list_level (indent ++ pad) ;;
              Ok (head ++ more)%list) = Ok lines ->
             Forall (indented list_level) lines).
  { intros head Hhead.
    destruct (slice_from1 _) as [rest| |]; cbn [bind]; try discriminate.
    destruct (blocks_in_list _ rest _ _) as [more| |] eqn:Hmore; cbn [bind];
      try discriminate.
    intros [= <-]. apply Forall_app. split; [exact Hhead|].
    exact (blocks_in_list_indented _ _ _ _ Hmore). }
  destruct (eq_str first_type "paragraph").
  - destruct (_render_paragraph_lines _ first) as [[|line0 rest]| |]; cbn [bind];
      try discriminate; apply Htail.
    + now constructor.
    + constructor.
      * exists (bullet ++ " " ++ line0). now rewrite !append_assoc.
      * apply Forall_map, Forall_forall. intros line _.
        exists (pad ++ line). now rewrite append_assoc.
  - destruct (_render_block_in_list _ first _ _) as [inner| |] eqn:Hinner;
      cbn [bind]; try discriminate.
    apply Htail. constructor; [exact Hbare|].
    exact (block_in_list_indented _ _ _ _ Hinner).
Qed.

Lemma list_items_indented
  (items : list pyobj) (list_level : nat) (ordered : bool) (index : Z)
  (lines : list pyobj) :
  list_items self_render_block self_render_inline items list_level ordered index
  = Ok lines ->
  Forall (indented list_level) lines.
Proof.
  revert index lines. induction items as [|item items IH]; intros index lines;
    cbn [list_items].
  - intros [= <-]. constructor.
  - destruct (_render_list_item _ _ item _ _ _) as [first| |] eqn:Hfirst;
      cbn [bind]; try discriminate.
    destruct (list_items _ _ items _ _ _) as [more| |] eqn:Hmore; cbn [bind];
      try discriminate.
    intros [= <-]. apply Forall_app. split.
    + exact (list_item_indented _ _ _ _ _ Hfirst).
    + exact (IH _ _ Hmore).
Qed.

Lemma render_list_indented
  (node : pyobj) (list_level : nat) (ordered : bool) (lines : list pyobj) :
  _render_list self_render_block self_render_inline node list_level ordered = Ok lines ->
  Forall (indented list_level) lines.
Proof.
  unfold _render_list.
  destruct (get_or node "attrs" _) as [attrs| |]; cbn [bind]; try discriminate.
  destruct (get_or attrs "order" _) as [start| |]; cbn [bind]; try discriminate.
  destruct (if ordered then py_int start else Ok 1%Z) as [index| |]; cbn [bind];
    try discriminate.
  destruct (get node "content") as [content| |]; cbn [bind]; try discriminate.
  destruct (iterate _) as [items| |]; cbn [bind]; try discriminate.
  apply list_items_indented.
Qed.

End Indentation.

Lemma is_list_type_cases (t : pyobj) :
  is_list_type t = true -> t = VStr "bulletList" \/ t = VStr "orderedList".
Proof.
  unfold is_list_type. destruct t; try discriminate. cbn [eq_str].
  intro H. apply orb_prop in H. destruct H as [H|H]; apply String.eqb_eq in H;
    subst; auto.
Qed.

(** X9: every line of a list is indented for its nesting level.  A bullet
    or ordered list rendered at level [n] gives only lines that start with
    [n] times the two-space indent: the bullet lines, the continuation
    lines under them, and every line of the lists nested inside. *)
Theorem list_lines_are_indented
  (fuel list_level : nat) (node : list (string * pyobj)) (lines : list pyobj) :
  is_list_type (field node "type") = true ->
  _render_block fuel (VDict node) list_level = Ok lines ->
  Forall (indented list_level) lines.
Proof.
  revert list_level node lines.
  induction fuel as [|fuel IH]; intros list_level node lines Htype;
    [discriminate|].
  rewrite (render_block_list fuel list_level node (is_list_type_cases _ Htype)).
  apply render_list_indented.
  intros x node_type level block_lines Hx Hlist.
  destruct x as [| | | | |d]; try discriminate.
  rewrite get_dict in Hx. injection Hx as <-. now apply IH.
Qed.

Lemma list_lines_are_indented_witness :
  Forall (indented 1) [VStr "  1. a  "; VStr "     b"; VStr "    - c"; VStr "  2."].
Proof.
  apply (list_lines_are_indented 5 1
           [("type", VStr "orderedList");
            ("content",
             VList [with_content "listItem"
                      [with_content "paragraph"
                         [a_text "a" []; a_node "hardBreak" []; a_text "b" []];
                       with_content "bulletList"
                         [with_content "listItem"
                            [with_content "paragraph" [a_text "c" []]]]];
                    a_node "listItem" []])]
           _ eq_refl eq_refl).
Defined.

(** ** Blocks without lines *)

Lemma iterate_content_list (l : list pyobj) :
  iterate (py_or (VList l) (VList [])) = Ok l.
Proof. now destruct l. Qed.

Lemma block_strings_app
  (self_render_block : pyobj -> nat -> result (list pyobj))
  (before after : list pyobj) (list_level : nat) :
  block_strings self_render_block (before ++ after) list_level
  = (x <- block_strings self_render_block before list_level ;;
     y <- block_strings self_render_block after list_level ;;
     Ok (x ++ y)%list).
Proof.
  induction before as [|node before IH]; cbn [app block_strings].
  - now destruct (block_strings _ after list_level).
  - destruct (self_render_block node list_level) as [[|line lines]| |]; cbn [bind];
      try reflexivity; [exact IH|].
    destruct (py_join LF (line :: lines)) as [block| |]; cbn [bind]; try reflexivity.
    rewrite IH.
    destruct (block_strings _ before list_level) as [x| |]; cbn [bind];
      try reflexivity.
    now destruct (block_strings _ after list_level).
Qed.

(** X10: a block that renders to no lines leaves no trace in the document:
    taking it out of the content changes neither the blank lines between
    the other blocks nor anything else of the output. *)
Theorem silent_block_leaves_no_trace
  (fuel : nat) (doc1 doc2 : list (string * pyobj)) (before after : list pyobj)
  (node : pyobj) :
  field doc1 "type" = VStr "doc" ->
  field doc1 "content" = VList (before ++ node :: after) ->
  field doc2 "type" = VStr "doc" ->
  field doc2 "content" = VList (before ++ after) ->
  _render_block fuel node 0 = Ok [] ->
  render_markdown fuel (VDict doc1) = render_markdown fuel (VDict doc2).
Proof.
  intros Htype1 Hcontent1 Htype2 Hcontent2 Hsilent.
  rewrite (render_markdown_doc fuel doc1 Htype1), (render_markdown_doc fuel doc2 Htype2).
  unfold render. rewrite !get_dict, Hcontent1, Hcontent2. cbn [bind].
  rewrite !iterate_content_list. cbn [bind].
  rewrite !block_strings_app. cbn [block_strings]. now rewrite Hsilent.
Qed.

Lemma silent_block_leaves_no_trace_witness :
  render_markdown 3
    (with_content "doc"
       [with_content "paragraph" [a_text "a" []];
        a_node "mediaSingle" [("attrs", VDict [("layout", VStr "center")])];
        a_node "table" [];
        with_content "paragraph" [a_text "b" []]])
  = render_markdown 3
      (with_content "doc"
         [with_content "paragraph" [a_text "a" []];
          a_node "table" [];
          with_content "paragraph" [a_text "b" []]]).
Proof.
  apply (silent_block_leaves_no_trace 3
           [("type", VStr "doc");
            ("content",
             VList [with_content "paragraph" [a_text "a" []];
                    a_node "mediaSingle" [("attrs", VDict [("layout", VStr "center")])];
                    a_node "table" [];
                    with_content "paragraph" [a_text "b" []]])]
           [("type", VStr "doc");
            ("content",
             VList [with_content "paragraph" [a_text "a" []];
                    a_node "table" [];
                    with_content "paragraph" [a_text "b" []]])]
           [with_content "paragraph" [a_text "a" []]]
           [a_node "table" []; with_content "paragraph" [a_text "b" []]]
           (a_node "mediaSingle" [("attrs", VDict [("layout", VStr "center")])]));
    reflexivity.
Defined.

(** ** Lines of a paragraph *)

Lemma paragraph_loop_lines
  (self_render_inline : pyobj -> result pyobj)
  (children : list pyobj) (done : list string) (cur : string) (lines : list string) :
  paragraph_loop self_render_inline children (done ++ [cur]) = Ok lines ->
  exists broken last,
    lines = (done ++ broken ++ [last])%list
    /\ List.length broken = List.length (filter is_hard_break children)
    /\ Forall broken_line broken.
Proof.
  revert done cur lines.
  induction children as [|child children IH]; intros done cur lines;
    cbn [paragraph_loop].
  - intros [= <-]. exists [], cur. repeat split. constructor.
  - destruct (get child "type") as [child_type| |] eqn:Htype; cbn [bind];
      try discriminate.
    assert (Hbreak : is_hard_break child = eq_str child_type "hardBreak").
    { destruct child; try discriminate. rewrite get_dict in Htype.
      injection Htype as <-. reflexivity. }
    cbn [filter]. rewrite Hbreak.
    destruct (eq_str child_type "hardBreak").
    + rewrite last_line_snoc, set_last_line_snoc. intro Hloop.
      destruct (IH _ _ _ Hloop) as (broken & last & -> & Hlen & Hbroken).
      exists ((rstrip cur ++ "  ") :: broken), last.
      split; [now rewrite <- app_assoc|].
      split; [cbn [List.length]; now rewrite Hlen|].
      constructor; [|exact Hbroken].
      exists (rstrip cur). split; [reflexivity|apply rstrip_with_idempotent].
    + destruct (self_render_inline child) as [piece| |]; cbn [bind];
        try discriminate.
      rewrite last_line_snoc.
      destruct (str_add cur piece) as [line| |]; cbn [bind]; try discriminate.
      rewrite set_last_line_snoc. apply IH.
Qed.

(** X11: a paragraph has one line more than it has hard breaks, and every
    line but the last is a line that a hard break ended: text without
    trailing whitespace followed by exactly the two spaces of a Markdown
    line break. *)
Theorem paragraph_lines_follow_hard_breaks
  (fuel list_level : nat) (node : list (string * pyobj)) (children lines : list pyobj) :
  field node "type" = VStr "paragraph" ->
  iterate (py_or (field node "content") (VList [])) = Ok children ->
  _render_block (S fuel) (VDict node) list_level = Ok lines ->
  exists broken last,
    lines = map VStr (broken ++ [last])
    /\ List.length broken = List.length (filter is_hard_break children)
    /\ Forall broken_line broken.
Proof.
  intros Htype Hchildren. cbn [_render_block]. unfold render_block_body.
  rewrite get_dict, Htype. cbn [bind].
  change (eq_str (VStr "paragraph") "paragraph") with true. cbv iota.
  unfold _render_paragraph, _render_paragraph_lines.
  rewrite get_dict. cbn [bind]. rewrite Hchildren. cbn [bind].
  destruct (paragraph_loop _ children [""]) as [plines| |] eqn:Hloop; cbn [bind];
    try discriminate.
  intros [= <-].
  destruct (paragraph_loop_lines _ children [] "" plines Hloop)
    as (broken & last & -> & Hlen & Hbroken).
  exists broken, last. auto.
Qed.

Lemma paragraph_lines_follow_hard_breaks_witness :
  exists broken last,
    [VStr "a  "; VStr "  "; VStr "b"] = map VStr (broken ++ [last])
    /\ List.length broken
       = List.length
           (filter is_hard_break
              [a_text "a " []; a_node "hardBreak" []; a_node "hardBreak" [];
               a_text "b" []])
    /\ Forall broken_line broken.
Proof.
  apply (paragraph_lines_follow_hard_breaks 1 0
           [("type", VStr "paragraph");
            ("content",
             VList [a_text "a " []; a_node "hardBreak" []; a_node "hardBreak" [];
                    a_text "b" []])]
           _ _ eq_refl eq_refl eq_refl).
Defined.

(** * Properties of the callers *)

(** ** Paging through the comments *)

Lemma field_or_found (d : list (string * pyobj)) (k : string) (default : pyobj) :
  field d k <> VNone -> field_or d k default = field d k.
Proof.
  unfold field, field_or. destruct (lookup k d); [reflexivity|]. now intros [].
Qed.

Section Paging.

Variable request_json : nat -> string -> outcome pyobj.
Variable quote : string -> string.
Variables (render_fuel : nat) (base_url issue_key : string).
Variables (page_size total : Z).

Lemma one_page
  (fuel served : nat) (comments page records : list pyobj) (data : pyobj) :
  request_json served
    (comments_url base_url (quote issue_key) (Z.of_nat served * page_size)
       (asked page_size served))
  = Returned data ->
  serves_page data page total (Z.of_nat served * page_size) page_size ->
  mapM (comment_record render_fuel) page = Ok records ->
  fetch_comments_loop request_json (S fuel) render_fuel base_url (quote issue_key)
    served comments (VInt (Z.of_nat served * page_size)) (VInt (asked page_size served))
  = if (total <=? Z.of_nat (S served) * page_size)%Z
    then Returned (comments ++ records)%list
    else fetch_comments_loop request_json fuel render_fuel base_url (quote issue_key)
           (S served) (comments ++ records)%list
           (VInt (Z.of_nat (S served) * page_size)) (VInt (asked page_size (S served))).
Proof.
  intros Hrequest (d & -> & Hcomments & Htotal & Hstart & Hsize) Hrecords.
  cbn [fetch_comments_loop]. cbv zeta.
  change (py_str (VInt ?z)) with (decimal z).
  fold (comments_url base_url (quote issue_key) (Z.of_nat served * page_size)
          (asked page_size served)).
  rewrite Hrequest. cbn [and_then].
  unfold page_records. rewrite get_dict, Hcomments. cbn [bind].
  rewrite iterate_content_list. cbn [bind]. rewrite Hrecords. cbn [lift and_then].
  rewrite get_dict, Htotal. cbn [lift and_then get_or].
  rewrite !field_or_found by (rewrite ?Hstart, ?Hsize; discriminate).
  rewrite Hstart, Hsize. cbn [lift and_then is_none py_add as_number py_ge].
  replace (Z.of_nat served * page_size + page_size)%Z
    with (Z.of_nat (S served) * page_size)%Z by lia.
  destruct (total <=? Z.of_nat (S served) * page_size)%Z; [reflexivity|].
  cbn [py_iadd py_add as_number lift and_then].
  replace (Z.of_nat served * page_size + page_size)%Z
    with (Z.of_nat (S served) * page_size)%Z by lia.
  reflexivity.
Qed.

Lemma pages_from
  (rest : list (list pyobj)) (records : list (list pyobj))
  (fuel served : nat) (comments : list pyobj) :
  rest <> [] ->
  List.length rest <= fuel ->
  (forall k, served <= k -> S k < served + List.length rest ->
             (Z.of_nat (S k) * page_size < total)%Z) ->
  (total <= Z.of_nat (served + List.length rest) * page_size)%Z ->
  (forall k page, nth_error rest k = Some page ->
     exists data,
       request_json (served + k)
         (comments_url base_url (quote issue_key)
            (Z.of_nat (served + k) * page_size) (asked page_size (served + k)))
       = Returned data
       /\ serves_page data page total (Z.of_nat (served + k) * page_size) page_size) ->
  Forall2 (fun page recs => mapM (comment_record render_fuel) page = Ok recs)
    rest records ->
  fetch_comments_loop request_json fuel render_fuel base_url (quote issue_key)
    served comments (VInt (Z.of_nat served * page_size)) (VInt (asked page_size served))
  = Returned (comments ++ List.concat records)%list.
Proof.
  intros Hne Hfuel Hmore Hlast Hserver Hrecords.
  revert fuel served comments Hne Hfuel Hmore Hlast Hserver.
  induction Hrecords as [|page recs rest records Hpage Hrest IH];
    intros fuel served comments Hne Hfuel Hmore Hlast Hserver; [now elim Hne|].
  destruct fuel as [|fuel]; [cbn in Hfuel; lia|].
  destruct (Hserver 0%nat page eq_refl) as (data & Hrequest & Hdata).
  rewrite Nat.add_0_r in Hrequest, Hdata.
  rewrite (one_page fuel served comments page recs data Hrequest Hdata Hpage).
  cbn [List.concat]. rewrite app_assoc.
  destruct rest as [|page' rest].
  - inversion Hrest; subst. cbn [List.concat]. rewrite app_nil_r.
    cbn [List.length] in Hlast.
    replace (served + 1)%nat with (S served) in Hlast by lia.
    apply Z.leb_le in Hlast. now rewrite Hlast.
  - assert (Hnot_last : (total <=? Z.of_nat (S served) * page_size)%Z = false).
    { apply Z.leb_gt. apply Hmore; cbn [List.length]; lia. }
    rewrite Hnot_last.
    apply IH.
    + discriminate.
    + cbn [List.length] in *. lia.
    + intros k Hk1 Hk2. apply Hmore; cbn [List.length] in *; lia.
    + cbn [List.length] in *.
      now replace (S served + S (List.length rest))%nat
        with (served + S (S (List.length rest)))%nat by lia.
    + intros k p Hk.
      destruct (Hserver (S k) p Hk) as (data' & Hrequest' & Hdata').
      replace (served + S k)%nat with (S served + k)%nat in * by lia.
      eauto.
Qed.

End Paging.

(** X12: [fetch_comments] reads every page once and in order.  Against a
    server that holds the comments in pages of [page_size], answers the
    [k]-th request for the window starting at [k * page_size] with that
    page, the total and the window, and whose pages cover the total, the
    loop asks for exactly these windows (100 comments at first, then the
    page size the server reported) and returns the records of all comments
    in page order; it stops after the first page whose window reaches the
    total. *)
Theorem fetch_comments_reads_every_page
  (request_json : nat -> string -> outcome pyobj) (quote : string -> string)
  (fuel render_fuel : nat) (base_url issue_key : string) (page_size total : Z)
  (pages records : list (list pyobj)) :
  pages <> [] ->
  List.length pages <= fuel ->
  (forall k, S k < List.length pages -> (Z.of_nat (S k) * page_size < total)%Z) ->
  (total <= Z.of_nat (List.length pages) * page_size)%Z ->
  (forall k page, nth_error pages k = Some page ->
     exists data,
       request_json k
         (comments_url base_url (quote issue_key) (Z.of_nat k * page_size)
            (asked page_size k))
       = Returned data
       /\ serves_page data page total (Z.of_nat k * page_size) page_size) ->
  Forall2 (fun page recs => mapM (comment_record render_fuel) page = Ok recs)
    pages records ->
  fetch_comments request_json quote fuel render_fuel base_url issue_key
  = Returned (List.concat records).
Proof.
  intros Hne Hfuel Hmore Hlast Hserver Hrecords.
  unfold fetch_comments.
  exact (pages_from request_json quote render_fuel base_url issue_key page_size total
           pages records fuel 0 [] Hne Hfuel
           (fun k _ Hk => Hmore k Hk) Hlast Hserver Hrecords).
Qed.

Lemma fetch_comments_reads_every_page_witness :
  fetch_comments (example_server example_pages) (fun key => key) 2 3
    "https://jira.test" "ABC-1"
  = Returned [a_record "1" "one"; a_record "2" ""; a_record "3" "three"].
Proof.
  apply (fetch_comments_reads_every_page (example_server example_pages)
           (fun key => key) 2 3 "https://jira.test" "ABC-1" 2 3 example_pages
           [[a_record "1" "one"; a_record "2" ""]; [a_record "3" "three"]]).
  - discriminate.
  - cbn. lia.
  - intros k Hk. cbn in Hk. assert (k = 0%nat) as -> by lia. reflexivity.
  - cbn. lia.
  - intros [|[|k]] page Hpage; cbn in Hpage; try (destruct k; discriminate);
      injection Hpage as <-; eexists; (split; [reflexivity|]);
      eexists; repeat split; reflexivity.
  - repeat constructor.
Defined.

(** ** A comment that cannot be rendered *)

Lemma mapM_raises {A B : Type} (f : A -> result B)
  (before : list A) (a : A) (after : list A) (e : exn) :
  Forall (fun x => exists b, f x = Ok b) before ->
  f a = Raise e ->
  mapM f (before ++ a :: after)%list = Raise e.
Proof.
  intros Hbefore Ha. induction Hbefore as [|x before [b Hx] _ IH].
  - cbn [app mapM]. now rewrite Ha.
  - cbn [app mapM]. rewrite Hx. cbn [bind]. now rewrite IH.
Qed.

Lemma page_raises
  (request_json : nat -> string -> outcome pyobj)
  (fuel render_fuel : nat) (base_url encoded_key : string)
  (served : nat) (comments page : list pyobj) (data start_at max_results : pyobj)
  (total window_start window_size : Z) (e : exn) :
  request_json served
    (base_url ++ "/rest/api/3/issue/" ++ encoded_key ++ "/comment"
     ++ "?startAt=" ++ py_str start_at ++ "&maxResults=" ++ py_str max_results)
  = Returned data ->
  serves_page data page total window_start window_size ->
  mapM (comment_record render_fuel) page = Raise e ->
  fetch_comments_loop request_json (S fuel) render_fuel base_url encoded_key
    served comments start_at max_results
  = Failed (Raised e).
Proof.
  intros Hrequest (d & -> & Hcomments & _) Hpage.
  cbn [fetch_comments_loop]. cbv zeta. rewrite Hrequest. cbn [and_then].
  unfold page_records. rewrite get_dict, Hcomments. cbn [bind].
  rewrite iterate_content_list. cbn [bind]. now rewrite Hpage.
Qed.

Lemma pages_until_raise
  (request_json : nat -> string -> outcome pyobj) (quote : string -> string)
  (render_fuel : nat) (base_url issue_key : string) (page_size total : Z)
  (good : list (list pyobj)) (records : list (list pyobj)) (bad : list pyobj)
  (e : exn) (fuel served : nat) (comments : list pyobj) :
  List.length good < fuel ->
  (forall k, served <= k -> k < served + List.length good ->
             (Z.of_nat (S k) * page_size < total)%Z) ->
  (forall k page, nth_error (good ++ [bad])%list k = Some page ->
     exists data,
       request_json (served + k)
         (comments_url base_url (quote issue_key)
            (Z.of_nat (served + k) * page_size) (asked page_size (served + k)))
       = Returned data
       /\ serves_page data page total (Z.of_nat (served + k) * page_size) page_size) ->
  Forall2 (fun page recs => mapM (comment_record render_fuel) page = Ok recs)
    good records ->
  mapM (comment_record render_fuel) bad = Raise e ->
  fetch_comments_loop request_json fuel render_fuel base_url (quote issue_key)
    served comments (VInt (Z.of_nat served * page_size)) (VInt (asked page_size served))
  = Failed (Raised e).
Proof.
  intros Hfuel Hmore Hserver Hrecords Hbad.
  revert fuel served comments Hfuel Hmore Hserver.
  induction Hrecords as [|page recs good records Hpage Hgood IH];
    intros fuel served comments Hfuel Hmore Hserver;
    (destruct fuel as [|fuel]; [cbn in Hfuel; lia|]).
  - destruct (Hserver 0%nat bad eq_refl) as (data & Hrequest & Hdata).
    rewrite Nat.add_0_r in Hrequest, Hdata.
    apply (page_raises request_json fuel render_fuel base_url (quote issue_key)
             served comments bad data _ _ total (Z.of_nat served * page_size)%Z
             page_size e); [exact Hrequest | exact Hdata | exact Hbad].
  - destruct (Hserver 0%nat page eq_refl) as (data & Hrequest & Hdata).
    rewrite Nat.add_0_r in Hrequest, Hdata.
    rewrite (one_page request_json quote render_fuel base_url issue_key page_size
               total fuel served comments page recs data Hrequest Hdata Hpage).
    assert (Hnot_last : (total <=? Z.of_nat (S served) * page_size)%Z = false).
    { apply Z.leb_gt. apply Hmore; cbn [List.length]; lia. }
    rewrite Hnot_last. apply IH.
    + cbn [List.length] in Hfuel. lia.
    + intros k Hk1 Hk2. apply Hmore; cbn [List.length]; lia.
    + intros k p Hk.
      destruct (Hserver (S k) p Hk) as (data' & Hrequest' & Hdata').
      replace (served + S k)%nat with (S served + k)%nat in * by lia.
      eauto.
Qed.

(** X13: one comment that cannot be rendered loses them all.  When the
    server serves some pages whose comments render and then a page holding
    a comment on which [comment_record] raises [e] (the comments before it
    on that page render), [fetch_comments] raises [e]: the records of the
    earlier pages and comments are not returned. *)
Theorem fetch_comments_fails_as_a_whole
  (request_json : nat -> string -> outcome pyobj) (quote : string -> string)
  (fuel render_fuel : nat) (base_url issue_key : string) (page_size total : Z)
  (good_pages records : list (list pyobj))
  (before : list pyobj) (comment : pyobj) (after : list pyobj) (e : exn) :
  List.length good_pages < fuel ->
  (forall k, k < List.length good_pages -> (Z.of_nat (S k) * page_size < total)%Z) ->
  (forall k page,
     nth_error (good_pages ++ [before ++ comment :: after])%list k = Some page ->
     exists data,
       request_json k
         (comments_url base_url (quote issue_key) (Z.of_nat k * page_size)
            (asked page_size k))
       = Returned data
       /\ serves_page data page total (Z.of_nat k * page_size) page_size) ->
  Forall2 (fun page recs => mapM (comment_record render_fuel) page = Ok recs)
    good_pages records ->
  Forall (fun c => exists r, comment_record render_fuel c = Ok r) before ->
  comment_record render_fuel comment = Raise e ->
  fetch_comments request_json quote fuel render_fuel base_url issue_key
  = Failed (Raised e).
Proof.
  intros Hfuel Hmore Hserver Hrecords Hbefore Hcomment.
  unfold fetch_comments.
  exact (pages_until_raise request_json quote render_fuel base_url issue_key
           page_size total good_pages records (before ++ comment :: after)%list e
           fuel 0 [] Hfuel (fun k _ Hk => Hmore k Hk) Hserver Hrecords
           (mapM_raises _ before comment after e Hbefore Hcomment)).
Qed.

Lemma fetch_comments_fails_as_a_whole_witness :
  fetch_comments (example_server broken_pages) (fun key => key) 2 3
    "https://jira.test" "ABC-1"
  = Failed (Raised AttributeError).
Proof.
  apply (fetch_comments_fails_as_a_whole (example_server broken_pages)
           (fun key => key) 2 3 "https://jira.test" "ABC-1" 2 3
           [[a_comment "1" (a_body "one"); a_comment "2" VNone]]
           [[a_record "1" "one"; a_record "2" ""]]
           [] (a_comment "3" a_broken_body) [] AttributeError).
  - cbn. lia.
  - intros k Hk. cbn in Hk. assert (k = 0%nat) as -> by lia. reflexivity.
  - intros [|[|k]] page Hpage; cbn in Hpage; try (destruct k; discriminate);
      injection Hpage as <-; eexists; (split; [reflexivity|]);
      eexists; repeat split; reflexivity.
  - repeat constructor.
  - constructor.
  - reflexivity.
Defined.

(** ** A server that does not advance *)

Lemma stuck_loop
  (request_json : nat -> string -> outcome pyobj)
  (render_fuel : nat) (base_url encoded_key : string)
  (total window_start window_size : Z) :
  (window_start + window_size < total)%Z ->
  (forall served url, exists data page records,
     request_json served url = Returned data
     /\ serves_page data page total window_start window_size
     /\ mapM (comment_record render_fuel) page = Ok records) ->
  forall (fuel served : nat) (comments : list pyobj) (start_at max_results : pyobj),
  fetch_comments_loop request_json fuel render_fuel base_url encoded_key
    served comments start_at max_results
  = Unfinished.
Proof.
  intros Hshort Hserver fuel.
  induction fuel as [|fuel IH]; intros served comments start_at max_results;
    [reflexivity|].
  cbn [fetch_comments_loop]. cbv zeta.
  destruct (Hserver served
              (base_url ++ "/rest/api/3/issue/" ++ encoded_key ++ "/comment"
               ++ "?startAt=" ++ py_str start_at
               ++ "&maxResults=" ++ py_str max_results))
    as (data & page & records & -> & (d & -> & Hcomments & Htotal & Hstart & Hsize)
        & Hrecords).
  cbn [and_then].
  unfold page_records. rewrite get_dict, Hcomments. cbn [bind].
  rewrite iterate_content_list. cbn [bind]. rewrite Hrecords. cbn [lift and_then].
  rewrite get_dict, Htotal. cbn [lift and_then get_or].
  rewrite !field_or_found by (rewrite ?Hstart, ?Hsize; discriminate).
  rewrite Hstart, Hsize. cbn [lift and_then is_none py_add as_number py_ge].
  assert (Hnot_last : (total <=? window_start + window_size)%Z = false)
    by now apply Z.leb_gt.
  rewrite Hnot_last. cbn [py_iadd py_add as_number lift and_then].
  apply IH.
Qed.

(** X14: the loop trusts the window the server reports.  Against a server
    that answers every request with the same window, one that ends before
    the total (a page size of 0 is the simplest case), and with comments
    that render, [fetch_comments] never returns: whatever the fuel, the
    loop is still running. *)
Theorem fetch_comments_runs_forever_on_a_stuck_window
  (request_json : nat -> string -> outcome pyobj) (quote : string -> string)
  (render_fuel : nat) (base_url issue_key : string)
  (total window_start window_size : Z) :
  (window_start + window_size < total)%Z ->
  (forall served url, exists data page records,
     request_json served url = Returned data
     /\ serves_page data page total window_start window_size
     /\ mapM (comment_record render_fuel) page = Ok records) ->
  forall fuel,
    fetch_comments request_json quote fuel render_fuel base_url issue_key
    = Unfinished.
Proof.
  intros Hshort Hserver fuel. unfold fetch_comments.
  exact (stuck_loop request_json render_fuel base_url (quote issue_key)
           total window_start window_size Hshort Hserver fuel 0 [] _ _).
Qed.

Lemma fetch_comments_runs_forever_on_a_stuck_window_witness :
  fetch_comments stuck_server (fun key => key) 1000 3 "https://jira.test" "ABC-1"
  = Unfinished.
Proof.
  apply (fetch_comments_runs_forever_on_a_stuck_window stuck_server
           (fun key => key) 3 "https://jira.test" "ABC-1" 3 0 1).
  - lia.
  - intros served url.
    exists (a_page [a_comment "1" (a_body "one")] 3 0 1),
      [a_comment "1" (a_body "one")], [a_record "1" "one"].
    repeat split. eexists. repeat split; reflexivity.
Defined.

(** * The two embeddings agree, and the store is left as it was *)

(** ** The store *)

Lemma update_length (a : nat) (o : Store.obj) (h : list Store.obj) :
  List.length (Store.update a o h) = List.length h.
Proof.
  revert a. induction h as [|x h IH]; intros [|a]; cbn; auto.
Qed.

Lemma update_same (a : nat) (o : Store.obj) (h : list Store.obj) :
  a < List.length h -> nth_error (Store.update a o h) a = Some o.
Proof.
  revert a. induction h as [|x h IH]; intros [|a] Ha; cbn in *; try lia; auto.
  apply IH. lia.
Qed.

Lemma update_other (a b : nat) (o : Store.obj) (h : list Store.obj) :
  a <> b -> nth_error (Store.update a o h) b = nth_error h b.
Proof.
  revert a b. induction h as [|x h IH]; intros [|a] [|b] Hab; cbn; auto;
    try congruence.
Qed.

Lemma unchanged_refl (s : Store.store) : unchanged s s.
Proof. split; auto. Qed.

Lemma unchanged_trans (s1 s2 s3 : Store.store) :
  unchanged s1 s2 -> unchanged s2 s3 -> unchanged s1 s3.
Proof. intros [H1 H1'] [H2 H2']. split; auto. Qed.

Lemma nth_error_snoc_old {A : Type} (l : list A) (x : A) (a : nat) (y : A) :
  nth_error l a = Some y -> nth_error (l ++ [x])%list a = Some y.
Proof.
  intro H. rewrite nth_error_app1; [exact H|].
  apply nth_error_Some. congruence.
Qed.

Lemma nth_error_snoc_new {A : Type} (l : list A) (x : A) :
  nth_error (l ++ [x])%list (List.length l) = Some x.
Proof. rewrite nth_error_app2, Nat.sub_diag; [reflexivity|lia]. Qed.

Lemma nth_error_fresh {A : Type} (l : list A) : nth_error l (List.length l) = None.
Proof. apply nth_error_None. lia. Qed.

(** What a write to an address leaves of the stores that did not hold it. *)
Lemma unchanged_write (sk s : Store.store) (a : nat) (o : Store.obj) :
  nth_error (Store.objects sk) a = None ->
  unchanged sk s ->
  unchanged sk (snd (Store.write a o s)).
Proof.
  intros Hfresh [Hobj Hren]. split; cbn; [|exact Hren].
  intros b x Hb. rewrite update_other; [auto|]. congruence.
Qed.

Lemma unchanged_new (s : Store.store) (o : Store.obj) :
  unchanged s (snd (Store.new o s)).
Proof.
  split; cbn; [|auto]. intros a x Ha. now apply nth_error_snoc_old.
Qed.

Lemma unchanged_fresh (s s' : Store.store) (a : nat) :
  unchanged s s' -> nth_error (Store.objects s') a = None ->
  nth_error (Store.objects s) a = None.
Proof.
  intros [Hobj _] Hnone.
  destruct (nth_error (Store.objects s) a) as [o|] eqn:E; [|reflexivity].
  apply Hobj in E. congruence.
Qed.

(** ** What a value stands for *)

Lemma pyobj_nested_ind (P : pyobj -> Prop) :
  P VNone -> (forall b, P (VBool b)) -> (forall z, P (VInt z)) ->
  (forall s, P (VStr s)) ->
  (forall l, Forall P l -> P (VList l)) ->
  (forall d, Forall (fun kv => P (snd kv)) d -> P (VDict d)) ->
  forall p, P p.
Proof.
  intros HN HB HI HS HL HD.
  fix IH 1. intros [| b | z | s | l | d];
    [apply HN | apply HB | apply HI | apply HS | | ].
  - apply HL. induction l as [|x l IHl]; constructor; [apply IH | exact IHl].
  - apply HD. induction d as [|[k x] d IHd]; constructor; [apply IH | exact IHd].
Qed.

Lemma represents_list (h : list Store.obj) (v : Store.val) (l : list pyobj) :
  represents h v (VList l)
  <-> exists a items,
        v = Store.HRef a /\ nth_error h a = Some (Store.OList items)
        /\ Forall2 (represents h) items l.
Proof.
  cbn [represents].
  assert (Heach : forall l items,
             (fix each (l : list pyobj) (items : list Store.val) {struct l} : Prop :=
                match l, items with
                | [], [] => True
                | y :: l', x :: items' => represents h x y /\ each l' items'
                | _, _ => False
                end) l items
             <-> Forall2 (represents h) items l).
  { clear. induction l as [|y l IH]; intros [|x items]; split; intro H.
    - constructor.
    - exact I.
    - destruct H.
    - inversion H.
    - destruct H.
    - inversion H.
    - destruct H as [Hxy H]. constructor; [exact Hxy | now apply IH].
    - inversion H; subst. split; [assumption | now apply IH]. }
  split; intros (a & items & Hv & Ha & He); exists a, items;
    repeat split; auto; now apply Heach.
Qed.

Lemma represents_dict (h : list Store.obj) (v : Store.val) (d : list (string * pyobj)) :
  represents h v (VDict d)
  <-> exists a bindings,
        v = Store.HRef a /\ nth_error h a = Some (Store.ODict bindings)
        /\ Forall2 (same_binding h) bindings d.
Proof.
  cbn [represents].
  assert (Heach : forall d bindings,
             (fix each (d : list (string * pyobj))
                       (bindings : list (string * Store.val)) {struct d} : Prop :=
                match d, bindings with
                | [], [] => True
                | ky :: d', kx :: bindings' =>
                    fst kx = fst ky /\ represents h (snd kx) (snd ky)
                    /\ each d' bindings'
                | _, _ => False
                end) d bindings
             <-> Forall2 (same_binding h) bindings d).
  { clear. unfold same_binding.
    induction d as [|y d IH]; intros [|x bindings]; split; intro H.
    - constructor.
    - exact I.
    - destruct H.
    - inversion H.
    - destruct H.
    - inversion H.
    - destruct H as (Hk & Hxy & H). constructor; [now split | now apply IH].
    - inversion H as [|? ? ? ? [Hk Hxy] Hrest]; subst.
      repeat split; [assumption | assumption | now apply IH]. }
  split; intros (a & bindings & Hv & Ha & He); exists a, bindings;
    repeat split; auto; now apply Heach.
Qed.

Lemma represents_unchanged_objects (h h' : list Store.obj) (v : Store.val) (p : pyobj) :
  (forall a o, nth_error h a = Some o -> nth_error h' a = Some o) ->
  represents h v p -> represents h' v p.
Proof.
  intro Hh. revert v.
  induction p as [| b | z | s | l IH | d IH] using pyobj_nested_ind; intro v; auto.
  - rewrite !represents_list. intros (a & items & Hv & Ha & Hitems).
    exists a, items. repeat split; auto.
    clear Ha. induction Hitems; inversion IH; subst; constructor; auto.
  - rewrite !represents_dict. intros (a & bindings & Hv & Ha & Hbs).
    exists a, bindings. repeat split; auto.
    clear Ha. induction Hbs as [|kx ky bs d [Hk Hx] Hbs IHbs];
      inversion IH; subst; constructor; auto.
    split; auto.
Qed.

Lemma represents_unchanged (s s' : Store.store) (v : Store.val) (p : pyobj) :
  unchanged s s' ->
  represents (Store.objects s) v p -> represents (Store.objects s') v p.
Proof. intros [H _]. now apply represents_unchanged_objects. Qed.

Lemma represents_all_unchanged (s s' : Store.store)
  (items : list Store.val) (l : list pyobj) :
  unchanged s s' ->
  Forall2 (represents (Store.objects s)) items l ->
  Forall2 (represents (Store.objects s')) items l.
Proof.
  intros Hu H. induction H; constructor; eauto using represents_unchanged.
Qed.

(** A value stands for one thing only. *)
Lemma represents_one (h : list Store.obj) (v : Store.val) (p p' : pyobj) :
  represents h v p -> represents h v p' -> p = p'.
Proof.
  revert v p'.
  induction p as [| b | z | s | l IH | d IH] using pyobj_nested_ind;
    intros v p' Hp Hp'.
  1-4: cbn in Hp; subst v; destruct p' as [| | | | l' | d']; cbn in Hp';
    try congruence; destruct Hp' as (? & ? & ? & _); discriminate.
  - apply represents_list in Hp. destruct Hp as (a & items & -> & Ha & Hitems).
    destruct p' as [| | | | l' | d']; try discriminate Hp'.
    + apply represents_list in Hp'.
      destruct Hp' as (a' & items' & Hv & Ha' & Hitems').
      injection Hv as <-. rewrite Ha in Ha'. injection Ha' as <-. f_equal.
      clear Ha. revert l' Hitems'. induction Hitems as [|x y items l Hxy Hrest IHrest];
        intros l' Hitems'; inversion Hitems'; subst; [reflexivity|].
      inversion IH; subst. f_equal; eauto.
    + apply represents_dict in Hp'.
      destruct Hp' as (a' & bs & Hv & Ha' & _). injection Hv as <-. congruence.
  - apply represents_dict in Hp. destruct Hp as (a & bs & -> & Ha & Hbs).
    destruct p' as [| | | | l' | d']; try discriminate Hp'.
    + apply represents_list in Hp'.
      destruct Hp' as (a' & items & Hv & Ha' & _). injection Hv as <-. congruence.
    + apply represents_dict in Hp'.
      destruct Hp' as (a' & bs' & Hv & Ha' & Hbs').
      injection Hv as <-. rewrite Ha in Ha'. injection Ha' as <-. f_equal.
      clear Ha. revert d' Hbs'. induction Hbs as [|kx ky bs d [Hk Hx] Hrest IHrest];
        intros d' Hbs'; inversion Hbs' as [|? ky' ? ? [Hk' Hx'] ?]; subst;
        [reflexivity|].
      inversion IH; subst. f_equal; eauto.
      destruct ky, ky'. cbn in *. f_equal; [congruence|eauto].
Qed.

(** ** Frames *)

Lemma frame_refl (own : list nat) (s : Store.store) : frame own s s.
Proof. split; auto. Qed.

Lemma frame_trans (own : list nat) (s1 s2 s3 : Store.store) :
  frame own s1 s2 -> frame own s2 s3 -> frame own s1 s3.
Proof. intros [H1 H1'] [H2 H2']. split; auto. Qed.

Lemma unchanged_frame (own : list nat) (s s' : Store.store) :
  unchanged s s' -> frame own s s'.
Proof. intros [H H']. split; auto. Qed.

Lemma frame_unchanged (s s' : Store.store) : frame [] s s' -> unchanged s s'.
Proof. intros [H H']. split; auto. Qed.

(** A store that never held the addresses [own] is kept by a frame on
    them. *)
Lemma frame_keeps (own : list nat) (sk s s' : Store.store) :
  (forall a, In a own -> nth_error (Store.objects sk) a = None) ->
  unchanged sk s -> frame own s s' -> unchanged sk s'.
Proof.
  intros Hfresh [Hobj Hren] [Hf Hf']. split; [|auto].
  intros b o Hb. apply Hf; [|auto].
  intro Hin. apply Hfresh in Hin. congruence.
Qed.

Lemma frame_new (own : list nat) (s : Store.store) (o : Store.obj) :
  frame own s (snd (Store.new o s)).
Proof. apply unchanged_frame, unchanged_new. Qed.

Lemma frame_write (own : list nat) (s : Store.store) (a : nat) (o : Store.obj) :
  In a own -> frame own s (snd (Store.write a o s)).
Proof.
  intro Hin. split; cbn; [|auto]. intros b x Hb Hx.
  rewrite update_other; [exact Hx|]. intros ->. contradiction.
Qed.

(** ** Statements in step *)

Lemma agrees_ok {A B : Type} (R : A -> B -> Prop) (a : A) (b : B) :
  R a b -> agrees R (Ok a) (Ok b).
Proof. intro H. exists a. auto. Qed.

Lemma agrees_bind {A B A' B' : Type} (R : A -> B -> Prop) (R' : A' -> B' -> Prop)
  (r : result A) (p : result B) (k : A -> result A') (pk : B -> result B') :
  agrees R r p ->
  (forall a b, R a b -> agrees R' (k a) (pk b)) ->
  agrees R' (x <- r ;; k x) (x <- p ;; pk x).
Proof.
  intros Hr Hk. destruct p as [b|e|]; cbn in Hr.
  - destruct Hr as (a & -> & Hab). cbn [bind]. auto.
  - subst r. reflexivity.
  - subst r. reflexivity.
Qed.

Lemma bind_ok {A B : Type} (m : Store.M A) (k : A -> Store.M B)
  (s s1 : Store.store) (a : A) :
  m s = (Ok a, s1) -> Store.bind m k s = k a s1.
Proof. unfold Store.bind. now intros ->. Qed.

Lemma bind_raise {A B : Type} (m : Store.M A) (k : A -> Store.M B)
  (s s1 : Store.store) (e : exn) :
  m s = (Raise e, s1) -> Store.bind m k s = (Raise e, s1).
Proof. unfold Store.bind. now intros ->. Qed.

Lemma bind_out_of_fuel {A B : Type} (m : Store.M A) (k : A -> Store.M B)
  (s s1 : Store.store) :
  m s = (OutOfFuel, s1) -> Store.bind m k s = (OutOfFuel, s1).
Proof. unfold Store.bind. now intros ->. Qed.

Lemma simulates_ret {A B : Type} (own : list nat)
  (R : Store.store -> A -> B -> Prop) (a : A) (b : B) (s : Store.store) :
  R s a b -> simulates own R (Store.ret a) (Ok b) s.
Proof.
  intro H. exists (Ok a), s. repeat split; auto. now apply agrees_ok.
Qed.

Lemma simulates_bind {A B A' B' : Type} (own : list nat)
  (R1 : Store.store -> A -> B -> Prop) (R2 : Store.store -> A' -> B' -> Prop)
  (m : Store.M A) (k : A -> Store.M A') (p : result B) (pk : B -> result B')
  (s : Store.store) :
  simulates own R1 m p s ->
  (forall a b s1, frame own s s1 -> R1 s1 a b ->
                  simulates own R2 (k a) (pk b) s1) ->
  simulates own R2 (Store.bind m k) (x <- p ;; pk x) s.
Proof.
  intros (r & s1 & Hm & Hf & Hr) Hk.
  destruct p as [b|e|]; cbn in Hr.
  - destruct Hr as (a & -> & Hab).
    destruct (Hk a b s1 Hf Hab) as (r2 & s2 & Hk2 & Hf2 & Hr2).
    exists r2, s2. rewrite (bind_ok _ _ _ _ _ Hm).
    repeat split; auto; apply (frame_trans _ _ _ _ Hf Hf2).
  - subst r. exists (Raise e), s1. rewrite (bind_raise _ _ _ _ _ Hm).
    repeat split; auto; apply Hf.
  - subst r. exists OutOfFuel, s1. rewrite (bind_out_of_fuel _ _ _ _ Hm).
    repeat split; auto; apply Hf.
Qed.

(** A step of the store alone. *)
Lemma simulates_step {A A' B' : Type} (own : list nat)
  (R : Store.store -> A' -> B' -> Prop)
  (m : Store.M A) (k : A -> Store.M A') (p : result B')
  (s s1 : Store.store) (a : A) :
  m s = (Ok a, s1) -> frame own s s1 ->
  simulates own R (k a) p s1 ->
  simulates own R (Store.bind m k) p s.
Proof.
  intros Hm Hf (r2 & s2 & Hk2 & Hf2 & Hr2).
  exists r2, s2. rewrite (bind_ok _ _ _ _ _ Hm).
  repeat split; auto; apply (frame_trans _ _ _ _ Hf Hf2).
Qed.

Lemma simulates_reads {A B A' B' : Type} (own : list nat)
  (R1 : A -> B -> Prop) (R : Store.store -> A' -> B' -> Prop)
  (m : Store.M A) (k : A -> Store.M A') (p : result B) (pk : B -> result B')
  (s : Store.store) :
  reads R1 m p s ->
  (forall a b, R1 a b -> simulates own R (k a) (pk b) s) ->
  simulates own R (Store.bind m k) (x <- p ;; pk x) s.
Proof.
  intros (r & Hm & Hr) Hk.
  destruct p as [b|e|]; cbn in Hr.
  - destruct Hr as (a & -> & Hab).
    destruct (Hk a b Hab) as (r2 & s2 & Hk2 & Hf2 & Hr2).
    exists r2, s2. rewrite (bind_ok _ _ _ _ _ Hm). repeat split; auto; apply Hf2.
  - subst r. exists (Raise e), s. rewrite (bind_raise _ _ _ _ _ Hm).
    repeat split; auto.
  - subst r. exists OutOfFuel, s. rewrite (bind_out_of_fuel _ _ _ _ Hm).
    repeat split; auto.
Qed.

(** A reading step whose result is known. *)
Lemma simulates_known {A A' B' : Type} (own : list nat)
  (R : Store.store -> A' -> B' -> Prop)
  (m : Store.M A) (k : A -> Store.M A') (p : result B')
  (s : Store.store) (a : A) :
  m s = (Ok a, s) ->
  simulates own R (k a) p s ->
  simulates own R (Store.bind m k) p s.
Proof. intros Hm Hk. eapply simulates_step; eauto using frame_refl. Qed.

Lemma simulates_weaken {A B : Type} (own : list nat)
  (R R' : Store.store -> A -> B -> Prop) (m : Store.M A) (p : result B)
  (s : Store.store) :
  (forall s' a b, frame own s s' -> R s' a b -> R' s' a b) ->
  simulates own R m p s -> simulates own R' m p s.
Proof.
  intros HR (r & s' & Hm & Hf & Hr). exists r, s'.
  split; [exact Hm|]. split; [exact Hf|].
  destruct p as [b|e|]; cbn in *; auto.
  destruct Hr as (a & -> & Hab). exists a. split; auto.
Qed.

Lemma simulates_own {A B : Type} (own own' : list nat)
  (R : Store.store -> A -> B -> Prop) (m : Store.M A) (p : result B)
  (s : Store.store) :
  incl own own' -> simulates own R m p s -> simulates own' R m p s.
Proof.
  intros Hincl (r & s' & Hm & [Hf Hf'] & Hr). exists r, s'.
  split; [exact Hm|]. split; [|exact Hr]. split; [|exact Hf'].
  intros b o Hb. apply Hf. intro Hin. apply Hb, Hincl, Hin.
Qed.

(** ** The builtins agree *)

Section Reading.

Variable sk : Store.store.

Local Notation "'rep'" := (represents (Store.objects sk)) (at level 0).
Local Notation "'near'" := (stands (Store.objects sk)) (at level 0).

Lemma rep_near (s : Store.store) (v : Store.val) (p : pyobj) :
  rep v p -> near s v p.
Proof. now left. Qed.

Lemma near_unchanged (s s' : Store.store) (v : Store.val) (p : pyobj) :
  unchanged s s' -> near s v p -> near s' v p.
Proof.
  intros [Hu _] [H|(n & -> & [[-> H]|[-> H]])]; [now left| |];
    right; exists n; split; auto.
Qed.

Lemma near_shape (s : Store.store) (v : Store.val) (p : pyobj) :
  unchanged sk s -> near s v p -> shape (Store.objects sk) s v p.
Proof.
  intros [Hu _] [H|(n & -> & [[-> H]|[-> H]])].
  - destruct p as [| b | z | t | l | d]; try (cbn in H; subst; constructor).
    + apply represents_list in H. destruct H as (a & items & -> & Ha & Hitems).
      econstructor; eauto.
    + apply represents_dict in H. destruct H as (a & bs & -> & Ha & Hbs).
      econstructor; eauto.
  - econstructor; eauto.
  - econstructor; eauto.
Qed.

Lemma near_truthy (s : Store.store) (v : Store.val) (p : pyobj) :
  unchanged sk s -> near s v p -> Store.truthy_in (Store.objects s) v = truthy p.
Proof.
  intros Hu H.
  destruct (near_shape s v p Hu H) as [| | | |a items l Ha Hitems|a bs d Ha Hbs];
    cbn; try rewrite Ha; try reflexivity.
  - destruct Hitems; reflexivity.
  - destruct Hbs; reflexivity.
Qed.

Lemma near_rep (s : Store.store) (v : Store.val) (p : pyobj) :
  near s v p -> truthy p = true -> rep v p.
Proof.
  intros [H|(n & -> & [[-> H]|[-> H]])] Ht; [assumption| |]; discriminate.
Qed.

Lemma lookup_agrees (k : string)
  (bindings : list (string * Store.val)) (d : list (string * pyobj)) :
  Forall2 (same_binding (Store.objects sk)) bindings d ->
  match lookup k d with
  | Some px => exists x, Store.lookup k bindings = Some x /\ rep x px
  | None => Store.lookup k bindings = None
  end.
Proof.
  induction 1 as [|[k1 x] [k2 px] bs d [Hk Hx] Hrest IH]; [reflexivity|].
  cbn in Hk, Hx. subst k2. cbn [lookup Store.lookup].
  destruct (String.eqb k k1); [eauto|exact IH].
Qed.

Lemma get_or_near (s : Store.store) (v d : Store.val) (p pd : pyobj) (k : string) :
  unchanged sk s -> near s v p -> near s d pd ->
  reads (near s) (Store.get_or v k d) (get_or p k pd) s.
Proof.
  intros Hu H Hd. unfold reads, Store.get_or, Store.reading, Store.get_or_in.
  eexists. split; [reflexivity|].
  destruct (near_shape s v p Hu H) as [| | | |a items l Ha Hitems|a bs pbs Ha Hbs];
    cbn; try rewrite Ha; try reflexivity.
  unfold Store.field_or, field_or.
  pose proof (lookup_agrees k bs pbs Hbs) as Hl.
  destruct (lookup k pbs) as [px|].
  - destruct Hl as (x & -> & Hx). eexists. split; [reflexivity|now left].
  - rewrite Hl. eauto.
Qed.

Lemma get_or_rep (s : Store.store) (v d : Store.val) (p pd : pyobj) (k : string) :
  unchanged sk s -> near s v p -> rep d pd ->
  reads rep (Store.get_or v k d) (get_or p k pd) s.
Proof.
  intros Hu H Hd. unfold reads, Store.get_or, Store.reading, Store.get_or_in.
  eexists. split; [reflexivity|].
  destruct (near_shape s v p Hu H) as [| | | |a items l Ha Hitems|a bs pbs Ha Hbs];
    cbn; try rewrite Ha; try reflexivity.
  unfold Store.field_or, field_or.
  pose proof (lookup_agrees k bs pbs Hbs) as Hl.
  destruct (lookup k pbs) as [px|].
  - destruct Hl as (x & -> & Hx). eauto.
  - rewrite Hl. eauto.
Qed.

Lemma get_rep (s : Store.store) (v : Store.val) (p : pyobj) (k : string) :
  unchanged sk s -> near s v p ->
  reads rep (Store.get v k) (get p k) s.
Proof. intros Hu H. now apply get_or_rep. Qed.

Lemma rep_eq_str (v : Store.val) (p : pyobj) (t : string) :
  rep v p -> Store.eq_str v t = eq_str p t.
Proof.
  destruct p; cbn; intro H; subst; try reflexivity;
    destruct H as (a & ? & -> & _); reflexivity.
Qed.

Lemma near_is_dict (s : Store.store) (v : Store.val) (p : pyobj) :
  unchanged sk s -> near s v p ->
  Store.is_dict v s = (Ok (is_dict p), s).
Proof.
  intros Hu H. unfold Store.is_dict, Store.reading, Store.dict_at.
  destruct (near_shape s v p Hu H); cbn; try rewrite H0; reflexivity.
Qed.

Lemma near_is_list (s : Store.store) (v : Store.val) (p : pyobj) :
  unchanged sk s -> near s v p ->
  Store.is_list v s = (Ok (is_list p), s).
Proof.
  intros Hu H. unfold Store.is_list, Store.reading, Store.list_at.
  destruct (near_shape s v p Hu H); cbn; try rewrite H0; reflexivity.
Qed.

Lemma rep_chars (t : string) : Forall2 rep (Store.chars t) (chars t).
Proof. induction t; cbn; constructor; auto. reflexivity. Qed.

Lemma rep_keys (bindings : list (string * Store.val)) (d : list (string * pyobj)) :
  Forall2 (same_binding (Store.objects sk)) bindings d ->
  Forall2 rep (map (fun kv => Store.HStr (fst kv)) bindings)
    (map (fun kv => VStr (fst kv)) d).
Proof.
  induction 1 as [|kx ky bs d [Hk _] _ IH]; cbn; constructor; auto.
  cbn. now rewrite Hk.
Qed.

Lemma iterate_near (s : Store.store) (v : Store.val) (p : pyobj) :
  unchanged sk s -> near s v p ->
  reads (Forall2 rep) (Store.iterate v) (iterate p) s.
Proof.
  intros Hu H. unfold reads, Store.iterate, Store.reading, Store.iterate_in.
  eexists. split; [reflexivity|].
  destruct (near_shape s v p Hu H) as [| | | |a items l Ha Hitems|a bs pbs Ha Hbs];
    cbn; try rewrite Ha; try reflexivity;
    eexists; (split; [reflexivity|]); auto using rep_chars, rep_keys.
Qed.

Lemma index0_near (s : Store.store) (v : Store.val) (p : pyobj) :
  unchanged sk s -> near s v p ->
  reads rep (Store.index0 v) (index0 p) s.
Proof.
  intros Hu H. unfold reads, Store.index0, Store.reading.
  eexists. split; [reflexivity|].
  destruct (near_shape s v p Hu H) as [| | |t|a items l Ha Hitems|a bs pbs Ha Hbs];
    cbn; try rewrite Ha; try reflexivity.
  - destruct t; cbn; [reflexivity|]. eexists. split; reflexivity.
  - destruct Hitems; cbn; [reflexivity|]. eauto.
Qed.

Lemma in_strs_rep (s : Store.store) (v : Store.val) (p : pyobj) (l : list string) :
  unchanged sk s -> rep v p ->
  reads eq (Store.in_strs v l) (in_strs p l) s.
Proof.
  intros Hu H. pose proof (rep_near s v p H) as Hn.
  unfold reads, Store.in_strs, Store.reading.
  eexists. split; [reflexivity|].
  destruct (near_shape s v p Hu Hn) as [| | |t|a items pl Ha Hitems|a bs pbs Ha Hbs];
    cbn; try rewrite Ha; try reflexivity; eauto.
Qed.

Lemma as_strs_rep (items : list Store.val) (l : list pyobj) :
  Forall2 rep items l -> Store.as_strs items = as_strs l.
Proof.
  induction 1 as [|x px items l Hx _ IH]; [reflexivity|].
  destruct px; cbn in Hx; subst; cbn; try reflexivity.
  - now rewrite IH.
  - destruct Hx as (a & ? & -> & _). reflexivity.
  - destruct Hx as (a & ? & -> & _). reflexivity.
Qed.

Lemma join_parts_rep (sep : string) (items : list Store.val) (l : list pyobj) :
  Forall2 rep items l -> Store.join_parts sep items = py_join sep l.
Proof. intro H. unfold Store.join_parts, py_join. now rewrite (as_strs_rep _ _ H). Qed.

Lemma str_add_rep (t : string) (v : Store.val) (p : pyobj) :
  rep v p -> Store.str_add t v = str_add t p.
Proof.
  destruct p; cbn; intro H; subst; try reflexivity;
    destruct H as (a & ? & -> & _); reflexivity.
Qed.

Lemma py_int_rep (v : Store.val) (p : pyobj) :
  rep v p -> Store.py_int v = py_int p.
Proof.
  destruct p; cbn; intro H; subst; try reflexivity;
    destruct H as (a & ? & -> & _); reflexivity.
Qed.

Lemma escape_markdown_rep (v : Store.val) (p : pyobj) :
  rep v p -> Store._escape_markdown v = _escape_markdown p.
Proof.
  destruct p; cbn; intro H; subst; try reflexivity;
    destruct H as (a & ? & -> & _); reflexivity.
Qed.

End Reading.

(** ** [str] of a value in the store *)

Lemma mapM_all {A B C : Type} (f : A -> result C) (g : B -> C)
  (xs : list A) (ys : list B) :
  Forall2 (fun x y => f x = Ok (g y)) xs ys -> mapM f xs = Ok (map g ys).
Proof.
  induction 1 as [|x y xs ys Hxy _ IH]; [reflexivity|].
  cbn [mapM map]. now rewrite Hxy, IH.
Qed.

Lemma Forall2_impl_in {A B : Type} (R Q : A -> B -> Prop) (xs : list A) (ys : list B) :
  Forall2 R xs ys ->
  (forall x y, In y ys -> R x y -> Q x y) ->
  Forall2 Q xs ys.
Proof.
  induction 1 as [|x y xs ys Hxy _ IH]; intro H; constructor.
  - apply H; [now left|exact Hxy].
  - apply IH. intros x' y' Hy'. apply H. now right.
Qed.

Lemma distinct_below (n : nat) (l : list nat) :
  NoDup l -> (forall x, In x l -> x < n) -> List.length l <= n.
Proof.
  intros Hnd Hlt.
  replace n with (List.length (seq 0 n)) at 1 by apply length_seq.
  apply NoDup_incl_length; [exact Hnd|].
  intros x Hx. apply in_seq. specialize (Hlt x Hx). lia.
Qed.

Lemma represents_container_below (h : list Store.obj) (b : nat) (p : pyobj) :
  represents h (Store.HRef b) p -> b < List.length h.
Proof.
  destruct p; cbn; try discriminate;
    intros (a & ? & [= <-] & Ha & _); apply nth_error_Some; congruence.
Qed.

Lemma depth_binding (kv : string * pyobj) (d : list (string * pyobj)) :
  In kv d -> depth (snd kv) < depth (VDict d).
Proof.
  cbn [depth]. induction d as [|kv' d IH]; [easy|].
  intros [->|Hin]; cbn [fold_right]; [lia|]. specialize (IH Hin). lia.
Qed.

Lemma repr_in_ref (fuel : nat) (h : list Store.obj) (active : list nat) (a : nat) :
  Store.repr_in fuel h active (Store.HRef a)
  = match nth_error h a with
    | Some (Store.OList items) =>
        if existsb (Nat.eqb a) active then Ok "[...]"
        else
          match fuel with
          | O => OutOfFuel
          | S fuel' =>
              parts <- mapM (Store.repr_in fuel' h (a :: active)) items ;;
              Ok ("[" ++ join ", " parts ++ "]")
          end
    | Some (Store.ODict d) =>
        if existsb (Nat.eqb a) active then Ok "{...}"
        else
          match fuel with
          | O => OutOfFuel
          | S fuel' =>
              parts <-
                mapM (fun kv =>
                        x <- Store.repr_in fuel' h (a :: active) (snd kv) ;;
                        Ok (repr_str (fst kv) ++ ": " ++ x)) d ;;
              Ok ("{" ++ join ", " parts ++ "}")
          end
    | None => Raise TypeError
    end.
Proof. destruct fuel; reflexivity. Qed.

Lemma repr_in_represents (p : pyobj) :
  forall (fuel : nat) (h : list Store.obj) (active : list nat) (v : Store.val),
    represents h v p ->
    (forall b, In b active ->
               exists pb, represents h (Store.HRef b) pb /\ depth p < depth pb) ->
    NoDup active ->
    List.length h <= fuel + List.length active ->
    Store.repr_in fuel h active v = Ok (repr p).
Proof.
  induction p as [| b | z | s | l IH | d IH] using pyobj_nested_ind;
    intros fuel h active v Hv Hactive Hnd Hfuel.
  1-4: cbn in Hv; subst v; destruct fuel; try reflexivity;
    match goal with x : bool |- _ => destruct x; reflexivity end.
  - pose proof Hv as Hv'. apply represents_list in Hv.
    destruct Hv as (a & items & -> & Ha & Hitems).
    rewrite repr_in_ref, Ha.
    assert (Hnew : ~ In a active).
    { intro Hin. destruct (Hactive a Hin) as (pb & Hpb & Hdepth).
      rewrite (represents_one _ _ _ _ Hpb Hv') in Hdepth. lia. }
    assert (Hguard : existsb (Nat.eqb a) active = false).
    { destruct (existsb (Nat.eqb a) active) eqn:E; [|reflexivity].
      apply existsb_exists in E. destruct E as (x & Hx & Hax).
      apply Nat.eqb_eq in Hax. subst x. contradiction. }
    rewrite Hguard.
    assert (Hnd' : NoDup (a :: active)) by now constructor.
    assert (Hbelow : forall x, In x (a :: active) -> x < List.length h).
    { intros x [<-|Hx]; [eapply represents_container_below; exact Hv'|].
      destruct (Hactive x Hx) as (pb & Hpb & _).
      eapply represents_container_below; exact Hpb. }
    pose proof (distinct_below _ _ Hnd' Hbelow) as Hcount. cbn [List.length] in Hcount.
    destruct fuel as [|fuel]; [lia|].
    cbn [bind]. rewrite (mapM_all _ repr items l); [reflexivity|].
    apply (Forall2_impl_in _ _ _ _ Hitems). intros x y Hy Hxy.
    rewrite Forall_forall in IH. apply (IH y Hy); auto.
    + intros b [<-|Hb].
      * exists (VList l). split; [exact Hv'|]. now apply depth_element.
      * destruct (Hactive b Hb) as (pb & Hpb & Hdepth). exists pb.
        split; [exact Hpb|]. pose proof (depth_element y l Hy). lia.
    + cbn [List.length]. lia.
  - pose proof Hv as Hv'. apply represents_dict in Hv.
    destruct Hv as (a & bs & -> & Ha & Hbs).
    rewrite repr_in_ref, Ha.
    assert (Hnew : ~ In a active).
    { intro Hin. destruct (Hactive a Hin) as (pb & Hpb & Hdepth).
      rewrite (represents_one _ _ _ _ Hpb Hv') in Hdepth. lia. }
    assert (Hguard : existsb (Nat.eqb a) active = false).
    { destruct (existsb (Nat.eqb a) active) eqn:E; [|reflexivity].
      apply existsb_exists in E. destruct E as (x & Hx & Hax).
      apply Nat.eqb_eq in Hax. subst x. contradiction. }
    rewrite Hguard.
    assert (Hnd' : NoDup (a :: active)) by now constructor.
    assert (Hbelow : forall x, In x (a :: active) -> x < List.length h).
    { intros x [<-|Hx]; [eapply represents_container_below; exact Hv'|].
      destruct (Hactive x Hx) as (pb & Hpb & _).
      eapply represents_container_below; exact Hpb. }
    pose proof (distinct_below _ _ Hnd' Hbelow) as Hcount. cbn [List.length] in Hcount.
    destruct fuel as [|fuel]; [lia|].
    cbn [repr].
    rewrite (mapM_all _ (fun kv : string * pyobj =>
                           let '(k, x) := kv in repr_str k ++ ": " ++ repr x) bs d);
      [reflexivity|].
    apply (Forall2_impl_in _ _ _ _ Hbs). intros [k x] [k' y] Hy [Hk Hxy].
    cbn in Hk, Hxy. subst k'. rewrite Forall_forall in IH. cbn [fst snd].
    assert (Hx : Store.repr_in fuel h (a :: active) x = Ok (repr y)).
    { apply (IH (k, y) Hy); auto.
      - intros b [<-|Hb].
        + exists (VDict d). split; [exact Hv'|]. exact (depth_binding _ _ Hy).
        + destruct (Hactive b Hb) as (pb & Hpb & Hdepth). exists pb.
          split; [exact Hpb|]. pose proof (depth_binding _ _ Hy). cbn [snd] in *. lia.
      - cbn [List.length]. lia. }
    now rewrite Hx.
Qed.

Lemma py_str_rep (sk s : Store.store) (v : Store.val) (p : pyobj) :
  unchanged sk s -> represents (Store.objects sk) v p ->
  Store.py_str v s = (Ok (py_str p), s).
Proof.
  intros Hu H. apply (represents_unchanged _ _ _ _ Hu) in H.
  unfold Store.py_str, Store.reading. f_equal.
  assert (Hrepr : Store.repr_in (List.length (Store.objects s)) (Store.objects s) [] v
                  = Ok (repr p)).
  { apply repr_in_represents; auto using NoDup_nil; [easy|cbn; lia]. }
  destruct p as [| b | z | t | l | d]; try (cbn in H; subst v; exact Hrepr).
  - cbn in H. now subst v.
  - apply represents_list in H. destruct H as (a & items & -> & _). exact Hrepr.
  - apply represents_dict in H. destruct H as (a & items & -> & _). exact Hrepr.
Qed.

(** ** The steps of a statement against the steps of its counterpart *)

Lemma rep_str (h : list Store.obj) (t : string) : represents h (Store.HStr t) (VStr t).
Proof. reflexivity. Qed.

Lemma rep_int (h : list Store.obj) (z : Z) : represents h (Store.HInt z) (VInt z).
Proof. reflexivity. Qed.

Lemma rep_none (h : list Store.obj) : represents h Store.HNone VNone.
Proof. reflexivity. Qed.

Section Steps.

Variable sk : Store.store.

Local Notation "'rep'" := (represents (Store.objects sk)) (at level 0).
Local Notation "'near'" := (stands (Store.objects sk)) (at level 0).

Context {A' B' : Type}.
Variable own : list nat.
Variable R : Store.store -> A' -> B' -> Prop.

Lemma simulates_after {A B : Type}
  (R1 : Store.store -> A -> B -> Prop)
  (m : Store.M A) (k : A -> Store.M A') (p : result B) (pk : B -> result B')
  (s : Store.store) :
  simulates [] R1 m p s ->
  (forall a b s1, unchanged s s1 -> R1 s1 a b -> simulates own R (k a) (pk b) s1) ->
  simulates own R (Store.bind m k) (x <- p ;; pk x) s.
Proof.
  intros (r & s1 & Hm & Hf & Hr) Hk. apply frame_unchanged in Hf.
  destruct p as [b|e|]; cbn in Hr.
  - destruct Hr as (a & -> & Hab).
    destruct (Hk a b s1 Hf Hab) as (r2 & s2 & Hk2 & Hf2 & Hr2).
    exists r2, s2. rewrite (bind_ok _ _ _ _ _ Hm).
    split; [exact Hk2|]. split; [|exact Hr2].
    exact (frame_trans _ _ _ _ (unchanged_frame own _ _ Hf) Hf2).
  - subst r. exists (Raise e), s1. rewrite (bind_raise _ _ _ _ _ Hm).
    split; [reflexivity|]. split; [now apply unchanged_frame|reflexivity].
  - subst r. exists OutOfFuel, s1. rewrite (bind_out_of_fuel _ _ _ _ Hm).
    split; [reflexivity|]. split; [now apply unchanged_frame|reflexivity].
Qed.

Lemma step_get (s : Store.store) (v : Store.val) (p : pyobj) (k : string)
  (K : Store.val -> Store.M A') (PK : pyobj -> result B') :
  unchanged sk s -> near s v p ->
  (forall x px, rep x px -> simulates own R (K x) (PK px) s) ->
  simulates own R (Store.bind (Store.get v k) K) (px <- get p k ;; PK px) s.
Proof. intros Hu Hv. apply simulates_reads. now apply get_rep. Qed.

Lemma step_get_or (s : Store.store) (v d : Store.val) (p pd : pyobj) (k : string)
  (K : Store.val -> Store.M A') (PK : pyobj -> result B') :
  unchanged sk s -> near s v p -> rep d pd ->
  (forall x px, rep x px -> simulates own R (K x) (PK px) s) ->
  simulates own R (Store.bind (Store.get_or v k d) K) (px <- get_or p k pd ;; PK px) s.
Proof. intros Hu Hv Hd. apply simulates_reads. now apply get_or_rep. Qed.

Lemma step_truthy (s : Store.store) (v : Store.val) (p : pyobj)
  (K : bool -> Store.M A') (P : result B') :
  unchanged sk s -> near s v p ->
  simulates own R (K (truthy p)) P s ->
  simulates own R (Store.bind (Store.truthy v) K) P s.
Proof.
  intros Hu Hv. apply simulates_known.
  unfold Store.truthy, Store.reading. now rewrite (near_truthy sk s v p Hu Hv).
Qed.

Lemma or_val_rep (s : Store.store) (x y : Store.val) (px py : pyobj) :
  unchanged sk s -> near s x px -> rep y py ->
  exists v, Store.or_val x y s = (Ok v, s) /\ rep v (py_or px py).
Proof.
  intros Hu Hx Hy. unfold Store.or_val, Store.reading, py_or.
  rewrite (near_truthy sk s x px Hu Hx).
  destruct (truthy px) eqn:E; eauto using near_rep.
Qed.

Lemma step_or_val (s : Store.store) (x y : Store.val) (px py : pyobj)
  (K : Store.val -> Store.M A') (P : result B') :
  unchanged sk s -> near s x px -> rep y py ->
  (forall v, rep v (py_or px py) -> simulates own R (K v) P s) ->
  simulates own R (Store.bind (Store.or_val x y) K) P s.
Proof.
  intros Hu Hx Hy HK. destruct (or_val_rep s x y px py Hu Hx Hy) as (v & Hv & Hrep).
  eapply simulates_known; eauto.
Qed.

Lemma or_new_near (s : Store.store) (x : Store.val) (px : pyobj)
  (o : Store.obj) (po : pyobj) :
  (o = Store.OList [] /\ po = VList []) \/ (o = Store.ODict [] /\ po = VDict []) ->
  unchanged sk s -> near s x px ->
  exists v s1, Store.or_new x o s = (Ok v, s1) /\ unchanged s s1
               /\ near s1 v (py_or px po).
Proof.
  intros Ho Hu Hx. unfold Store.or_new, py_or.
  rewrite (near_truthy sk s x px Hu Hx). destruct (truthy px) eqn:E.
  - exists x, s. repeat split; auto.
  - eexists _, _. split; [reflexivity|]. split; [apply unchanged_new|].
    right. eexists. split; [reflexivity|]. cbn.
    rewrite nth_error_snoc_new. destruct Ho as [[-> ->]|[-> ->]]; auto.
Qed.

Lemma step_or_new_list (s : Store.store) (x : Store.val) (px : pyobj)
  (K : Store.val -> Store.M A') (P : result B') :
  unchanged sk s -> near s x px ->
  (forall v s1, unchanged s s1 -> near s1 v (py_or px (VList [])) ->
                simulates own R (K v) P s1) ->
  simulates own R (Store.bind (Store.or_new x (Store.OList [])) K) P s.
Proof.
  intros Hu Hx HK.
  destruct (or_new_near s x px (Store.OList []) (VList []) (or_introl (conj eq_refl eq_refl))
              Hu Hx) as (v & s1 & Hrun & Hu1 & Hv).
  eapply simulates_step; eauto using unchanged_frame.
Qed.

Lemma step_or_new_dict (s : Store.store) (x : Store.val) (px : pyobj)
  (K : Store.val -> Store.M A') (P : result B') :
  unchanged sk s -> near s x px ->
  (forall v s1, unchanged s s1 -> near s1 v (py_or px (VDict [])) ->
                simulates own R (K v) P s1) ->
  simulates own R (Store.bind (Store.or_new x (Store.ODict [])) K) P s.
Proof.
  intros Hu Hx HK.
  destruct (or_new_near s x px (Store.ODict []) (VDict []) (or_intror (conj eq_refl eq_refl))
              Hu Hx) as (v & s1 & Hrun & Hu1 & Hv).
  eapply simulates_step; eauto using unchanged_frame.
Qed.

Lemma step_is_dict (s : Store.store) (v : Store.val) (p : pyobj)
  (K : bool -> Store.M A') (P : result B') :
  unchanged sk s -> near s v p ->
  simulates own R (K (is_dict p)) P s ->
  simulates own R (Store.bind (Store.is_dict v) K) P s.
Proof. intros Hu Hv. apply simulates_known. now apply (near_is_dict sk). Qed.

Lemma step_is_list (s : Store.store) (v : Store.val) (p : pyobj)
  (K : bool -> Store.M A') (P : result B') :
  unchanged sk s -> near s v p ->
  simulates own R (K (is_list p)) P s ->
  simulates own R (Store.bind (Store.is_list v) K) P s.
Proof. intros Hu Hv. apply simulates_known. now apply (near_is_list sk). Qed.

Lemma step_iterate (s : Store.store) (v : Store.val) (p : pyobj)
  (K : list Store.val -> Store.M A') (PK : list pyobj -> result B') :
  unchanged sk s -> near s v p ->
  (forall items pitems, Forall2 rep items pitems ->
                        simulates own R (K items) (PK pitems) s) ->
  simulates own R (Store.bind (Store.iterate v) K) (x <- iterate p ;; PK x) s.
Proof. intros Hu Hv. apply simulates_reads. now apply iterate_near. Qed.

Lemma step_iterate_list (s : Store.store) (v : Store.val) (l : list pyobj)
  (K : list Store.val -> Store.M A') (P : result B') :
  unchanged sk s -> rep v (VList l) ->
  (forall items, Forall2 rep items l -> simulates own R (K items) P s) ->
  simulates own R (Store.bind (Store.iterate v) K) P s.
Proof.
  intros Hu Hv HK.
  destruct (iterate_near sk s v (VList l) Hu (rep_near sk s _ _ Hv))
    as (r & Hrun & items & -> & Hitems).
  eapply simulates_known; eauto.
Qed.

Lemma step_index0 (s : Store.store) (v : Store.val) (p : pyobj)
  (K : Store.val -> Store.M A') (PK : pyobj -> result B') :
  unchanged sk s -> near s v p ->
  (forall x px, rep x px -> simulates own R (K x) (PK px) s) ->
  simulates own R (Store.bind (Store.index0 v) K) (x <- index0 p ;; PK x) s.
Proof. intros Hu Hv. apply simulates_reads. now apply index0_near. Qed.

Lemma step_in_strs (s : Store.store) (v : Store.val) (p : pyobj) (l : list string)
  (K : bool -> Store.M A') (PK : bool -> result B') :
  unchanged sk s -> rep v p ->
  (forall b, simulates own R (K b) (PK b) s) ->
  simulates own R (Store.bind (Store.in_strs v l) K) (x <- in_strs p l ;; PK x) s.
Proof.
  intros Hu Hv HK. eapply simulates_reads; [now apply (in_strs_rep sk)|].
  intros a b <-. apply HK.
Qed.

Lemma step_pure {A : Type} (s : Store.store) (r p : result A)
  (K : A -> Store.M A') (PK : A -> result B') :
  r = p ->
  (forall a, simulates own R (K a) (PK a) s) ->
  simulates own R (Store.bind (Store.pure r) K) (x <- p ;; PK x) s.
Proof.
  intros Hr HK. subst r. apply (simulates_reads own eq).
  - exists p. split; [reflexivity|]. destruct p; cbn; eauto.
  - intros a b <-. apply HK.
Qed.

Lemma step_py_str (s : Store.store) (v : Store.val) (p : pyobj)
  (K : string -> Store.M A') (P : result B') :
  unchanged sk s -> rep v p ->
  simulates own R (K (py_str p)) P s ->
  simulates own R (Store.bind (Store.py_str v) K) P s.
Proof. intros Hu Hv. apply simulates_known. now apply (py_str_rep sk). Qed.

Lemma step_new (s : Store.store) (o : Store.obj)
  (K : Store.val -> Store.M A') (P : result B') :
  (forall s1, unchanged s s1 ->
              nth_error (Store.objects s1) (List.length (Store.objects s)) = Some o ->
              simulates own R (K (Store.HRef (List.length (Store.objects s)))) P s1) ->
  simulates own R (Store.bind (Store.new o) K) P s.
Proof.
  intro HK. eapply simulates_step; [reflexivity|apply frame_new|].
  apply HK; [apply unchanged_new|]. cbn. apply nth_error_snoc_new.
Qed.

End Steps.

Lemma simulates_map_m (sk : Store.store)
  (f : Store.val -> Store.M Store.val) (pf : pyobj -> result pyobj)
  (items : list Store.val) (pitems : list pyobj) :
  Forall2 (represents (Store.objects sk)) items pitems ->
  (forall x px s, unchanged sk s -> In px pitems ->
                  represents (Store.objects sk) x px ->
                  simulates [] (fun _ => represents (Store.objects sk)) (f x) (pf px) s) ->
  forall s, unchanged sk s ->
  simulates [] (fun _ => Forall2 (represents (Store.objects sk)))
    (Store.map_m f items) (mapM pf pitems) s.
Proof.
  induction 1 as [|x px items pitems Hx Hitems IH]; intros Hf s Hu.
  - apply simulates_ret. constructor.
  - cbn [Store.map_m mapM].
    eapply simulates_bind; [apply Hf; auto; now left|].
    intros a b s1 Hf1 Hab. apply frame_unchanged in Hf1.
    eapply simulates_bind.
    + apply IH; [|eauto using unchanged_trans].
      intros x' px' s' Hu' Hin. apply Hf; auto. now right.
    + intros parts pparts s2 _ Hparts. apply simulates_ret. now constructor.
Qed.

Lemma step_map_m {A' B' : Type} (sk : Store.store) (own : list nat)
  (R : Store.store -> A' -> B' -> Prop)
  (f : Store.val -> Store.M Store.val) (pf : pyobj -> result pyobj)
  (items : list Store.val) (pitems : list pyobj)
  (K : list Store.val -> Store.M A') (PK : list pyobj -> result B')
  (s : Store.store) :
  unchanged sk s ->
  Forall2 (represents (Store.objects sk)) items pitems ->
  (forall x px s', unchanged sk s' -> In px pitems ->
                   represents (Store.objects sk) x px ->
                   simulates [] (fun _ => represents (Store.objects sk)) (f x) (pf px) s') ->
  (forall parts pparts s1, unchanged s s1 ->
                           Forall2 (represents (Store.objects sk)) parts pparts ->
                           simulates own R (K parts) (PK pparts) s1) ->
  simulates own R (Store.bind (Store.map_m f items) K) (x <- mapM pf pitems ;; PK x) s.
Proof.
  intros Hu Hitems Hf HK.
  eapply simulates_after; [now apply (simulates_map_m sk)|].
  intros parts pparts s1 Hu1 Hparts. now apply HK.
Qed.

(** ** The functions that only read *)

#[local] Create HintDb store.
#[local] Hint Resolve rep_near rep_str rep_int rep_none unchanged_refl unchanged_trans
  : store.

Ltac atom := solve [ eassumption | exact eq_refl | eauto with store ].

(** One statement of the store against its counterpart. *)
Ltac step0_in sk :=
  lazymatch goal with
  | |- simulates _ _ (Store.bind (Store.get _ _) _) _ _ =>
      eapply (step_get sk); [atom | atom | ]
  | |- simulates _ _ (Store.bind (Store.get_or _ _ _) _) _ _ =>
      eapply (step_get_or sk); [atom | atom | atom | ]
  | |- simulates _ _ (Store.bind (Store.truthy _) _) _ _ =>
      eapply (step_truthy sk); [atom | atom | ]
  | |- simulates _ _ (Store.bind (Store.or_val _ _) _) _ _ =>
      eapply (step_or_val sk); [atom | atom | atom | ]
  | |- simulates _ _ (Store.bind (Store.or_new _ (Store.OList [])) _) _ _ =>
      eapply (step_or_new_list sk); [atom | atom | ]
  | |- simulates _ _ (Store.bind (Store.or_new _ (Store.ODict [])) _) _ _ =>
      eapply (step_or_new_dict sk); [atom | atom | ]
  | |- simulates _ _ (Store.bind (Store.is_dict _) _) _ _ =>
      eapply (step_is_dict sk); [atom | atom | ]
  | |- simulates _ _ (Store.bind (Store.is_list _) _) _ _ =>
      eapply (step_is_list sk); [atom | atom | ]
  | |- simulates _ _ (Store.bind (Store.iterate _) _) (bind (iterate _) _) _ =>
      eapply (step_iterate sk); [atom | atom | ]
  | |- simulates _ _ (Store.bind (Store.index0 _) _) _ _ =>
      eapply (step_index0 sk); [atom | atom | ]
  | |- simulates _ _ (Store.bind (Store.in_strs _ _) _) _ _ =>
      eapply (step_in_strs sk); [atom | atom | ]
  | |- simulates _ _ (Store.bind (Store.py_str _) _) _ _ =>
      eapply (step_py_str sk); [atom | atom | ]
  | |- simulates _ _ (Store.ret _) (Ok _) _ =>
      apply simulates_ret; try atom
  end.

Ltac step_in sk := step0_in sk; intros.

(** The two sides test the same value. *)
Ltac by_truthy :=
  match goal with
  | |- simulates _ _ _ ?P _ =>
      match P with context [truthy ?p] => destruct (truthy p) eqn:? end
  end.

(** The comparisons with a string literal, read on the value. *)
Ltac literals :=
  repeat match goal with
    | H : represents _ ?v _ |- context [Store.eq_str ?v _] =>
        rewrite !(rep_eq_str _ _ _ _ H)
    end.

Section ReadOnly.

Variable sk : Store.store.

Local Notation "'rep'" := (represents (Store.objects sk)) (at level 0).
Local Notation "'near'" := (stands (Store.objects sk)) (at level 0).
Local Notation "'by_value'" := (fun _ : Store.store => represents (Store.objects sk))
  (at level 0).

Local Ltac step := step_in sk.
Local Ltac step0 := step0_in sk.

Lemma simulates_or_val (own : list nat) (s : Store.store)
  (x y : Store.val) (px py : pyobj) :
  unchanged sk s -> near s x px -> rep y py ->
  simulates own by_value (Store.or_val x y) (Ok (py_or px py)) s.
Proof.
  intros Hu Hx Hy. destruct (or_val_rep sk s x y px py Hu Hx Hy) as (v & Hv & Hrep).
  exists (Ok v), s. split; [exact Hv|]. split; [apply frame_refl|].
  now apply agrees_ok.
Qed.

Lemma collect_text_body_sim
  (ct : Store.val -> Store.M Store.val) (pct : pyobj -> result pyobj)
  (node : Store.val) (pnode : pyobj) (s : Store.store) :
  (forall x px s', unchanged sk s' -> rep x px -> simulates [] by_value (ct x) (pct px) s') ->
  unchanged sk s -> rep node pnode ->
  simulates [] by_value (Store.collect_text_body ct node) (collect_text_body pct pnode) s.
Proof.
  intros IH Hu Hnode. unfold Store.collect_text_body, collect_text_body.
  eapply (step_is_dict sk); eauto using rep_near.
  destruct (is_dict pnode); cbn [negb]; [|apply simulates_ret; apply rep_str].
  eapply step_get; eauto using rep_near. intros node_type pnode_type Htype.
  rewrite !(rep_eq_str sk _ _ _ Htype).
  destruct (eq_str pnode_type "text").
  { eapply step_get; eauto using rep_near. intros text ptext Htext.
    apply simulates_or_val; auto using rep_near. apply rep_str. }
  destruct (eq_str pnode_type "hardBreak"); [apply simulates_ret; apply rep_str|].
  eapply step_in_strs; eauto. intros [|].
  - eapply step_get; eauto using rep_near. intros a pa Ha.
    eapply step_or_new_dict; eauto using rep_near. intros attrs s1 Hu1 Hattrs.
    pose proof (unchanged_trans _ _ _ Hu Hu1) as Hu'.
    eapply step_get; eauto. intros text ptext Htext.
    eapply step_get; eauto. intros short_name pshort_name Hshort.
    eapply step_or_val; eauto using rep_near; [apply rep_str|]. intros rest Hrest.
    apply simulates_or_val; auto using rep_near.
  - eapply step_get; eauto using rep_near. intros content pcontent Hcontent.
    eapply step_is_list; eauto using rep_near.
    destruct pcontent as [| | | |children|]; cbn [is_list];
      try (apply simulates_ret; apply rep_str).
    eapply step_iterate_list; eauto. intros items Hitems.
    eapply step_map_m; eauto. intros parts pparts s1 Hu1 Hparts.
    apply step_pure; [now apply (join_parts_rep sk)|]. intro text.
    apply simulates_ret. apply rep_str.
Qed.

Lemma collect_text_sim (fuel : nat) :
  forall (node : Store.val) (pnode : pyobj) (s : Store.store),
    unchanged sk s -> rep node pnode ->
    simulates [] by_value (Store._collect_text fuel node) (_collect_text fuel pnode) s.
Proof.
  induction fuel as [|fuel IH]; intros node pnode s Hu Hnode.
  - exists OutOfFuel, s. repeat split; auto.
  - cbn [Store._collect_text _collect_text]. now apply collect_text_body_sim.
Qed.


Lemma simulates_pure {A : Type} (own : list nat) (s : Store.store) (r p : result A) :
  r = p -> simulates own (fun _ => eq) (Store.pure r) p s.
Proof.
  intros ->. exists p, s. split; [reflexivity|]. split; [apply frame_refl|].
  destruct p; cbn; eauto.
Qed.

Lemma any_code_mark_sim (marks : list Store.val) (pmarks : list pyobj) (s : Store.store) :
  unchanged sk s -> Forall2 rep marks pmarks ->
  simulates [] (fun _ => eq) (Store.any_code_mark marks) (any_code_mark pmarks) s.
Proof.
  intros Hu H. induction H as [|mark pmark marks pmarks Hmark _ IH].
  - now apply simulates_ret.
  - cbn [Store.any_code_mark any_code_mark]. step. literals.
    destruct (eq_str px "code"); [now apply simulates_ret|exact IH].
Qed.

Lemma wrap_mark_rep (value : string) (t : Store.val) (pt : pyobj) :
  rep t pt -> Store.wrap_mark value t = wrap_mark value pt.
Proof. intro H. unfold Store.wrap_mark, wrap_mark. now literals. Qed.

Lemma wrap_marks_sim (marks : list Store.val) (pmarks : list pyobj) (s : Store.store) :
  unchanged sk s -> Forall2 rep marks pmarks ->
  forall value,
    simulates [] (fun _ => eq) (Store.wrap_marks marks value) (wrap_marks pmarks value) s.
Proof.
  intros Hu H. induction H as [|mark pmark marks pmarks Hmark _ IH]; intro v.
  - now apply simulates_ret.
  - cbn [Store.wrap_marks wrap_marks]. step.
    rewrite (wrap_mark_rep v _ _ H). apply IH.
Qed.

Lemma first_link_sim (marks : list Store.val) (pmarks : list pyobj) (s : Store.store) :
  unchanged sk s -> Forall2 rep marks pmarks ->
  simulates [] by_value (Store.first_link marks) (first_link pmarks) s.
Proof.
  intros Hu H. induction H as [|mark pmark marks pmarks Hmark _ IH].
  - now apply simulates_ret.
  - cbn [Store.first_link first_link]. step. literals.
    destruct (eq_str px "link"); [now apply simulates_ret|exact IH].
Qed.

Lemma apply_link_sim (marks : list Store.val) (pmarks : list pyobj)
  (v : string) (s : Store.store) :
  unchanged sk s -> Forall2 rep marks pmarks ->
  simulates [] (fun _ => eq) (Store.apply_link marks v) (apply_link pmarks v) s.
Proof.
  intros Hu H. unfold Store.apply_link, apply_link.
  eapply simulates_after; [now apply first_link_sim|].
  intros link plink s1 Hu1 Hlink. cbn beta in Hlink.
  pose proof (unchanged_trans _ _ _ Hu Hu1) as Hu'.
  step. destruct (truthy plink); [|now apply simulates_ret].
  step. step. pose proof (unchanged_trans _ _ _ Hu' H1) as Hu''.
  step. step. destruct (truthy px0); [|now apply simulates_ret].
  step. now apply simulates_ret.
Qed.

Lemma apply_marks_sim (text marks : Store.val) (ptext pmarks : pyobj) (s : Store.store) :
  unchanged sk s -> rep text ptext -> near s marks pmarks ->
  simulates [] (fun _ => eq) (Store._apply_marks text marks) (_apply_marks ptext pmarks) s.
Proof.
  intros Hu Htext Hmarks. unfold Store._apply_marks, _apply_marks.
  step. destruct (truthy pmarks); cbn [negb].
  2: { apply simulates_pure. now apply (escape_markdown_rep sk). }
  step. eapply simulates_after; [now apply any_code_mark_sim|].
  intros code pcode s1 Hu1 <-.
  pose proof (unchanged_trans _ _ _ Hu Hu1) as Hu'.
  destruct code.
  - destruct ptext; cbn in Htext; subst;
      try (apply simulates_pure; reflexivity);
      try (destruct Htext as (? & ? & -> & _); apply simulates_pure; reflexivity).
  - apply step_pure; [now apply (escape_markdown_rep sk)|]. intro escaped.
    eapply simulates_after; [now apply wrap_marks_sim|].
    intros wrapped pwrapped s2 Hu2 <-.
    apply apply_link_sim; eauto with store.
Qed.

Lemma render_inline_body_sim
  (ri : Store.val -> Store.M Store.val) (pri : pyobj -> result pyobj)
  (node : Store.val) (pnode : pyobj) (s : Store.store) :
  (forall x px s', unchanged sk s' -> rep x px ->
                   simulates [] by_value (ri x) (pri px) s') ->
  unchanged sk s -> rep node pnode ->
  simulates [] by_value (Store.render_inline_body ri node) (render_inline_body pri pnode) s.
Proof.
  intros IH Hu Hnode. unfold Store.render_inline_body, render_inline_body.
  step. literals.
  destruct (eq_str px "text").
  { do 4 step. eapply simulates_after; [apply apply_marks_sim; atom|].
    intros text ptext s2 Hu2 <-. step. }
  destruct (eq_str px "emoji").
  { do 5 step. apply simulates_or_val; atom. }
  destruct (eq_str px "mention").
  { do 9 step. by_truthy; repeat step. }
  destruct (eq_str px "inlineCard").
  { do 5 step. by_truthy; repeat step. }
  destruct (eq_str px "status").
  { do 5 step. by_truthy; [|step].
    apply step_pure; [apply (escape_markdown_rep sk); atom|]. intro escaped. step. }
  destruct (eq_str px "date").
  { do 5 step. apply simulates_or_val; atom. }
  destruct (eq_str px "hardBreak"); [step|].
  do 2 step.
  match goal with
  | |- context [is_list ?c] => destruct c as [| | | |children|]; cbn [is_list]
  end.
  5: { eapply (step_iterate_list sk); [atom|atom|]. intros items Hitems.
       eapply step_map_m; eauto. intros parts pparts s1 Hu1 Hparts.
       apply step_pure; [now apply (join_parts_rep sk)|]. intro text. step. }
  all: do 2 step; by_truthy; [repeat step|];
    do 4 step; by_truthy; repeat step.
Qed.

Lemma render_inline_sim (fuel : nat) (self : nat) :
  forall (node : Store.val) (pnode : pyobj) (s : Store.store),
    unchanged sk s -> rep node pnode ->
    simulates [] by_value (Store._render_inline fuel self node)
      (_render_inline fuel pnode) s.
Proof.
  induction fuel as [|fuel IH]; intros node pnode s Hu Hnode.
  - exists OutOfFuel, s. repeat split; auto.
  - cbn [Store._render_inline _render_inline]. now apply render_inline_body_sim.
Qed.

Lemma rep_is_none (v : Store.val) (p : pyobj) :
  rep v p ->
  match v with Store.HNone => false | _ => true end
  = match p with VNone => false | _ => true end.
Proof.
  destruct p; cbn; intro H; subst; try reflexivity;
    destruct H as (a & ? & -> & _); reflexivity.
Qed.

Lemma extract_doc_sim (value0 : Store.val) (pvalue : pyobj) (s : Store.store) :
  unchanged sk s -> rep value0 pvalue ->
  simulates [] by_value (Store._extract_doc value0) (_extract_doc pvalue) s.
Proof.
  intros Hu Hvalue. unfold Store._extract_doc, _extract_doc.
  step. destruct (is_dict pvalue); cbn [negb]; [|step].
  step. literals. destruct (eq_str px "doc"); [step|].
  do 2 step.
  eapply simulates_after with (R1 := fun _ => eq).
  { match goal with |- context [is_dict ?b] => destruct (is_dict b) end;
      [step; literals; now apply simulates_ret|now apply simulates_ret]. }
  intros b pb s1 Hu1 <-. destruct b; [step|].
  do 2 step.
  eapply simulates_after with (R1 := fun _ => eq).
  { match goal with |- context [is_dict ?b] => destruct (is_dict b) end;
      [step; literals; now apply simulates_ret|now apply simulates_ret]. }
  intros b pb s2 Hu2 <-. destruct b; [step|].
  do 2 step.
  eapply simulates_after with (R1 := fun _ => eq).
  { match goal with |- context [is_list ?b] => destruct (is_list b) end;
      [step; apply simulates_ret; now apply rep_is_none|now apply simulates_ret]. }
  intros b pb s3 Hu3 <-. destruct b; step.
Qed.

End ReadOnly.

(** ** Lists changed in place *)

Lemma write_rewrites (a : nat) (o o0 : Store.obj) (s : Store.store) :
  nth_error (Store.objects s) a = Some o0 ->
  rewrites a o s (snd (Store.write a o s)).
Proof.
  intro Ha. split; [|split]; cbn.
  - apply update_same. apply nth_error_Some. congruence.
  - intros b Hb. apply update_other. congruence.
  - reflexivity.
Qed.

Lemma rewrites_frame (own : list nat) (a : nat) (o : Store.obj) (s s1 : Store.store) :
  In a own -> rewrites a o s s1 -> frame own s s1.
Proof.
  intros Hin (_ & Hother & Hren). split.
  - intros b x Hb Hx. rewrite Hother; [exact Hx|]. intros ->. contradiction.
  - intros r attrs. now rewrite Hren.
Qed.

Lemma rewrites_unchanged (sk : Store.store) (a : nat) (o : Store.obj)
  (s s1 : Store.store) :
  nth_error (Store.objects sk) a = None ->
  unchanged sk s -> rewrites a o s s1 -> unchanged sk s1.
Proof.
  intros Hfresh [Hobj Hren] (_ & Hother & Hren1). split.
  - intros b x Hb. rewrite Hother; [auto|]. congruence.
  - intros r attrs. rewrite Hren1. auto.
Qed.

Lemma rewrites_other (a b : nat) (o x : Store.obj) (s s1 : Store.store) :
  rewrites a o s s1 -> b <> a ->
  nth_error (Store.objects s) b = Some x -> nth_error (Store.objects s1) b = Some x.
Proof. intros (_ & Hother & _) Hb Hx. now rewrite Hother. Qed.

Lemma append_run (a : nat) (items : list Store.val) (x : Store.val) (s : Store.store) :
  nth_error (Store.objects s) a = Some (Store.OList items) ->
  Store.append (Store.HRef a) x s
  = Store.write a (Store.OList (items ++ [x])) s.
Proof. intro Ha. unfold Store.append. now rewrite Ha. Qed.

Lemma extend_run (a : nat) (items more : list Store.val) (v : Store.val)
  (s : Store.store) :
  nth_error (Store.objects s) a = Some (Store.OList items) ->
  Store.iterate_in (Store.objects s) v = Ok more ->
  Store.extend (Store.HRef a) v s
  = Store.write a (Store.OList (items ++ more)) s.
Proof. intros Ha Hv. unfold Store.extend. now rewrite Ha, Hv. Qed.

Lemma last_map {A B : Type} (f : A -> B) (l : list A) (d : A) (d' : B) :
  l <> [] -> last (map f l) d' = f (last l d).
Proof.
  induction l as [|x l IH]; [easy|]. intros _.
  destruct l as [|y l]; [reflexivity|].
  change (last (f y :: map f l) d' = f (last (y :: l) d)).
  rewrite <- IH by discriminate. reflexivity.
Qed.

Lemma removelast_map {A B : Type} (f : A -> B) (l : list A) :
  removelast (map f l) = map f (removelast l).
Proof.
  induction l as [|x l IH]; [reflexivity|].
  destruct l as [|y l]; [reflexivity|].
  cbn [map removelast] in *. now rewrite IH.
Qed.

Lemma last_item_run (a : nat) (acc : list string) (s : Store.store) :
  nth_error (Store.objects s) a = Some (Store.OList (map Store.HStr acc)) ->
  acc <> [] ->
  Store.last_item (Store.HRef a) s = (Ok (Store.HStr (last_line acc)), s).
Proof.
  intros Ha Hacc. unfold Store.last_item, Store.reading. rewrite Ha.
  destruct acc as [|x acc]; [easy|]. cbn [map].
  change (Store.HStr x :: map Store.HStr acc) with (map Store.HStr (x :: acc)).
  now rewrite (last_map Store.HStr (x :: acc) "").
Qed.

Lemma set_last_run (a : nat) (acc : list string) (t : string) (s : Store.store) :
  nth_error (Store.objects s) a = Some (Store.OList (map Store.HStr acc)) ->
  acc <> [] ->
  Store.set_last (Store.HRef a) (Store.HStr t) s
  = Store.write a (Store.OList (map Store.HStr (set_last_line acc t))) s.
Proof.
  intros Ha Hacc. unfold Store.set_last. rewrite Ha.
  destruct acc as [|x acc]; [easy|]. cbn [map].
  change (Store.HStr x :: map Store.HStr acc) with (map Store.HStr (x :: acc)).
  unfold set_last_line. now rewrite removelast_map, map_app.
Qed.

Lemma simulates_assoc {A B C B' : Type} (own : list nat)
  (R : Store.store -> C -> B' -> Prop)
  (m : Store.M A) (k : A -> Store.M B) (k' : B -> Store.M C) (p : result B')
  (s : Store.store) :
  simulates own R (Store.bind m (fun x => Store.bind (k x) k')) p s ->
  simulates own R (Store.bind (Store.bind m k) k') p s.
Proof.
  intros (r & s' & Hrun & H). exists r, s'. split; [|exact H].
  rewrite <- Hrun. unfold Store.bind. destruct (m s) as [[x|e|] s1]; reflexivity.
Qed.

(** A write to a list of the statement's own. *)
Lemma step_write {A' B' : Type} (own : list nat)
  (R : Store.store -> A' -> B' -> Prop)
  (m : Store.M unit) (a : nat) (o o0 : Store.obj)
  (K : unit -> Store.M A') (P : result B') (s : Store.store) :
  In a own ->
  nth_error (Store.objects s) a = Some o0 ->
  m s = Store.write a o s ->
  (forall s1, rewrites a o s s1 -> simulates own R (K tt) P s1) ->
  simulates own R (Store.bind m K) P s.
Proof.
  intros Hin Ha Hm HK. pose proof (write_rewrites a o o0 s Ha) as Hw.
  eapply simulates_step.
  - rewrite Hm. reflexivity.
  - eapply rewrites_frame; eauto.
  - apply HK. exact Hw.
Qed.

(** A new list that the rest of the statement changes in place. *)
Lemma step_new_own {A' B' : Type} (own : list nat)
  (R : Store.store -> A' -> B' -> Prop) (o : Store.obj)
  (K : Store.val -> Store.M A') (P : result B') (s : Store.store) :
  (forall s1, unchanged s s1 ->
              nth_error (Store.objects s1) (List.length (Store.objects s)) = Some o ->
              simulates (List.length (Store.objects s) :: own) R
                (K (Store.HRef (List.length (Store.objects s)))) P s1) ->
  simulates own R (Store.bind (Store.new o) K) P s.
Proof.
  intro HK.
  destruct (HK (snd (Store.new o s)) (unchanged_new s o)) as (r & s2 & Hrun & Hf & Hr).
  { cbn. apply nth_error_snoc_new. }
  exists r, s2. split; [exact Hrun|]. split; [|exact Hr].
  destruct Hf as [Hf Hf']. split.
  - intros b x Hb Hx. apply Hf.
    + intros [<-|Hin]; [|contradiction].
      rewrite nth_error_fresh in Hx. discriminate.
    + cbn. now apply nth_error_snoc_old.
  - intros r0 attrs H. apply Hf'. exact H.
Qed.

Lemma simulates_then_ret {A A' B B' : Type} (own : list nat)
  (R1 : Store.store -> A -> B -> Prop) (R : Store.store -> A' -> B' -> Prop)
  (m : Store.M A) (p : result B) (f : A -> A') (g : B -> B') (s : Store.store) :
  simulates own R1 m p s ->
  (forall a b s1, frame own s s1 -> R1 s1 a b -> R s1 (f a) (g b)) ->
  simulates own R (Store.bind m (fun a => Store.ret (f a))) (x <- p ;; Ok (g x)) s.
Proof.
  intros Hm HR. eapply simulates_bind; [exact Hm|].
  intros a b s1 Hf Hab. apply simulates_ret. now apply HR.
Qed.

Lemma bind_ok_id {A : Type} (p : result A) : (x <- p ;; Ok x) = p.
Proof. now destruct p. Qed.

(** [v.get(k, {})] *)
Lemma step_get_or_new_dict {A' B' : Type} (sk : Store.store) (own : list nat)
  (R : Store.store -> A' -> B' -> Prop)
  (v : Store.val) (p : pyobj) (k : string)
  (K : Store.val -> Store.M A') (PK : pyobj -> result B') (s : Store.store) :
  unchanged sk s -> represents (Store.objects sk) v p ->
  (forall attrs pattrs s1, unchanged s s1 ->
                           stands (Store.objects sk) s1 attrs pattrs ->
                           simulates own R (K attrs) (PK pattrs) s1) ->
  simulates own R (Store.bind (Store.get_or_new v k (Store.ODict [])) K)
    (x <- get_or p k (VDict []) ;; PK x) s.
Proof.
  intros Hu Hv HK. unfold Store.get_or_new.
  apply simulates_assoc.
  destruct (get_rep sk s v p k Hu (rep_near sk s v p Hv)) as (r & Hrun & Hr).
  destruct (get p k) as [x|e|] eqn:Hget.
  - destruct Hr as (x0 & -> & _).
    eapply simulates_known; [exact Hrun|].
    apply simulates_assoc. apply step_new. intros s1 Hu1 Hnew.
    eapply simulates_reads.
    + apply (get_or_near sk s1 v _ p (VDict []) k).
      * eauto using unchanged_trans.
      * now apply rep_near.
      * right. eexists. split; [reflexivity|]. right. split; [reflexivity|exact Hnew].
    + intros attrs pattrs Hattrs. now apply HK.
  - cbn in Hr. subst r.
    destruct p; try discriminate; cbn in Hget; injection Hget as <-;
      exists (Raise AttributeError), s;
      rewrite (bind_raise _ _ _ _ _ Hrun); repeat split; auto.
  - destruct p; discriminate.
Qed.

(** ** Paragraphs and headings *)

Section Lines.

Variable sk : Store.store.

Local Notation "'rep'" := (represents (Store.objects sk)) (at level 0).
Local Notation "'near'" := (stands (Store.objects sk)) (at level 0).
Local Notation "'by_value'" := (fun _ : Store.store => represents (Store.objects sk))
  (at level 0).

Local Ltac step := step_in sk.
Local Ltac step0 := step0_in sk.

Variable ri : Store.val -> Store.M Store.val.
Variable pri : pyobj -> result pyobj.
Hypothesis ri_sim :
  forall x px s, unchanged sk s -> rep x px -> simulates [] by_value (ri x) (pri px) s.

Lemma iadd_str_reads (cur : string) (piece : Store.val) (ppiece : pyobj)
  (s : Store.store) :
  rep piece ppiece ->
  reads (fun v t => v = Store.HStr t) (Store.iadd (Store.HStr cur) piece)
    (str_add cur ppiece) s.
Proof.
  intro H. cbn [Store.iadd]. unfold reads, Store.pure.
  rewrite (str_add_rep sk cur _ _ H). eexists. split; [reflexivity|].
  destruct (str_add cur ppiece); cbn; eauto.
Qed.

Lemma paragraph_loop_sim (a : nat) (children : list Store.val) (pchildren : list pyobj) :
  nth_error (Store.objects sk) a = None ->
  Forall2 rep children pchildren ->
  forall (s : Store.store) (acc : list string),
    unchanged sk s -> acc <> [] ->
    nth_error (Store.objects s) a = Some (Store.OList (map Store.HStr acc)) ->
    simulates [a]
      (fun s' _ lines =>
         nth_error (Store.objects s') a = Some (Store.OList (map Store.HStr lines)))
      (Store.for_each children (Store.paragraph_step ri (Store.HRef a)))
      (paragraph_loop pri pchildren acc) s.
Proof.
  intros Hfresh H. induction H as [|child pchild children pchildren Hchild _ IH];
    intros s acc Hu Hacc Ha.
  - now apply simulates_ret.
  - cbn [Store.for_each paragraph_loop]. unfold Store.paragraph_step.
    apply simulates_assoc. step. literals.
    destruct (eq_str px "hardBreak").
    + apply simulates_assoc.
      eapply simulates_known; [apply (last_item_run a acc); assumption|].
      apply simulates_assoc. eapply simulates_known; [reflexivity|].
      apply simulates_assoc.
      eapply step_write; [now left|exact Ha|apply (set_last_run a acc); assumption|].
      intros s1 Hw1.
      eapply step_write; [now left|apply Hw1|apply append_run; apply Hw1|].
      intros s2 Hw2. apply IH.
      * eauto using rewrites_unchanged.
      * now destruct (set_last_line acc (rstrip (last_line acc) ++ "  ")).
      * rewrite map_app. apply Hw2.
    + apply simulates_assoc.
      eapply simulates_known; [apply (last_item_run a acc); assumption|].
      apply simulates_assoc.
      eapply simulates_after; [now apply ri_sim|].
      intros piece ppiece s1 Hu1 Hpiece. cbn beta in Hpiece.
      apply simulates_assoc.
      eapply simulates_reads; [exact (iadd_str_reads (last_line acc) _ _ s1 Hpiece)|].
      intros line t ->.
      eapply step_write;
        [now left|apply Hu1; exact Ha
        |apply (set_last_run a acc); [apply Hu1; exact Ha|assumption]|].
      intros s2 Hw2. apply IH.
      * eauto using rewrites_unchanged, unchanged_trans.
      * unfold set_last_line. now destruct (removelast acc).
      * apply Hw2.
Qed.

Lemma render_paragraph_lines_sim (node : Store.val) (pnode : pyobj) (s : Store.store) :
  unchanged sk s -> rep node pnode ->
  simulates [] (fun s' => strings_of s s')
    (Store._render_paragraph_lines ri node) (_render_paragraph_lines pri pnode) s.
Proof.
  intros Hu Hnode. unfold Store._render_paragraph_lines, _render_paragraph_lines.
  apply step_new_own. intros s1 Hu1 Ha.
  assert (Hfresh : nth_error (Store.objects sk) (List.length (Store.objects s)) = None)
    by (eapply unchanged_fresh; [exact Hu|apply nth_error_fresh]).
  step. step0; intros content s2 Hu2 Hcontent. step.
  match goal with
  | |- simulates _ _ _ ?P _ => rewrite <- (bind_ok_id P)
  end.
  eapply simulates_then_ret with (f := fun _ => _).
  - apply paragraph_loop_sim; eauto with store; [discriminate|]. apply Hu2. exact Ha.
  - intros u lines s3 Hf Hlines. cbn beta in Hlines. eexists. split; [reflexivity|].
    split; [apply nth_error_fresh|exact Hlines].
Qed.

Lemma render_heading_sim (node : Store.val) (pnode : pyobj) (s : Store.store) :
  unchanged sk s -> rep node pnode ->
  simulates [] (fun _ => eq) (Store._render_heading ri node) (_render_heading pri pnode) s.
Proof.
  intros Hu Hnode. unfold Store._render_heading, _render_heading.
  eapply (step_get_or_new_dict sk); [atom|atom|]. intros attrs pattrs s1 Hu1 Hattrs.
  step.
  apply step_pure; [apply (py_int_rep sk); atom|]. intro level.
  step. step0; intros content s2 Hu2 Hcontent. step.
  eapply (step_map_m sk); [atom|eassumption|intros; now apply ri_sim|].
  intros parts pparts s3 Hu3 Hparts.
  apply step_pure; [now apply (join_parts_rep sk)|]. intro text.
  now apply simulates_ret.
Qed.

End Lines.

(** ** Lists the code has made *)

Lemma truthy_list (b : nat) (items : list Store.val) (s : Store.store) :
  nth_error (Store.objects s) b = Some (Store.OList items) ->
  Store.truthy (Store.HRef b) s
  = (Ok (match items with [] => false | _ => true end), s).
Proof.
  intro Hb. unfold Store.truthy, Store.reading. cbn. rewrite Hb.
  now destruct items.
Qed.

Lemma iterate_list (b : nat) (items : list Store.val) (s : Store.store) :
  nth_error (Store.objects s) b = Some (Store.OList items) ->
  Store.iterate (Store.HRef b) s = (Ok items, s).
Proof. intro Hb. unfold Store.iterate, Store.reading. cbn. now rewrite Hb. Qed.

Lemma py_join_list (hk : list Store.obj) (sep : string) (b : nat)
  (items : list Store.val) (pl : list pyobj) (s : Store.store) :
  nth_error (Store.objects s) b = Some (Store.OList items) ->
  Forall2 (represents hk) items pl ->
  Store.py_join sep (Store.HRef b) s = (py_join sep pl, s).
Proof.
  intros Hb Hitems. unfold Store.py_join, Store.reading. cbn. rewrite Hb. cbn [bind].
  unfold Store.join_parts, py_join.
  assert (Has : Store.as_strs items = as_strs pl).
  { clear Hb. induction Hitems as [|x px items pl Hx _ IH]; [reflexivity|].
    destruct px; cbn in Hx; subst; cbn; try reflexivity.
    - now rewrite IH.
    - destruct Hx as (a & ? & -> & _). reflexivity.
    - destruct Hx as (a & ? & -> & _). reflexivity. }
  now rewrite Has.
Qed.

Lemma as_strs_strings_store (ls : list string) :
  Store.as_strs (map Store.HStr ls) = Ok ls.
Proof. induction ls as [|x ls IH]; [reflexivity|]. cbn. now rewrite IH. Qed.

Lemma py_join_strings_store (sep : string) (b : nat) (ls : list string)
  (s : Store.store) :
  nth_error (Store.objects s) b = Some (Store.OList (map Store.HStr ls)) ->
  Store.py_join sep (Store.HRef b) s = (Ok (join sep ls), s).
Proof.
  intro Hb. unfold Store.py_join, Store.reading. cbn. rewrite Hb. cbn [bind].
  unfold Store.join_parts. now rewrite as_strs_strings_store.
Qed.

Lemma index0_list (b : nat) (x : Store.val) (items : list Store.val) (s : Store.store) :
  nth_error (Store.objects s) b = Some (Store.OList (x :: items)) ->
  Store.index0 (Store.HRef b) s = (Ok x, s).
Proof. intro Hb. unfold Store.index0, Store.reading. now rewrite Hb. Qed.

Lemma slice_from_list (n b : nat) (items : list Store.val) (s : Store.store) :
  nth_error (Store.objects s) b = Some (Store.OList items) ->
  Store.slice_from n (Store.HRef b) s = Store.new (Store.OList (skipn n items)) s.
Proof. intro Hb. unfold Store.slice_from, Store.list_at. now rewrite Hb. Qed.

Lemma py_len_list (b : nat) (items : list Store.val) (s : Store.store) :
  nth_error (Store.objects s) b = Some (Store.OList items) ->
  Store.py_len (Store.HRef b) s = (Ok (List.length items), s).
Proof. intro Hb. unfold Store.py_len, Store.reading. now rewrite Hb. Qed.

Lemma list_add_lists (a b : nat) (xs ys : list Store.val) (s : Store.store) :
  nth_error (Store.objects s) a = Some (Store.OList xs) ->
  nth_error (Store.objects s) b = Some (Store.OList ys) ->
  Store.list_add (Store.HRef a) (Store.HRef b) s
  = Store.new (Store.OList (xs ++ ys)) s.
Proof. intros Ha Hb. unfold Store.list_add, Store.list_at. now rewrite Ha, Hb. Qed.

(** A new list as the result of a function entered in [s0]. *)
Lemma simulates_new_strings (own : list nat) (s0 s : Store.store) (ls : list string) :
  unchanged s0 s ->
  simulates own (fun s' => strings_of s0 s')
    (Store.new (Store.OList (map Store.HStr ls))) (Ok ls) s.
Proof.
  intro Hu. eexists _, _. split; [reflexivity|]. split; [apply frame_new|].
  apply agrees_ok. eexists. split; [reflexivity|]. split.
  - eapply unchanged_fresh; [exact Hu|apply nth_error_fresh].
  - cbn. apply nth_error_snoc_new.
Qed.

Lemma simulates_new_lines (hk : list Store.obj) (own : list nat) (s0 s : Store.store)
  (items : list Store.val) (pl : list pyobj) :
  unchanged s0 s -> Forall2 (represents hk) items pl ->
  simulates own (fun s' => lines_of hk s0 s') (Store.new (Store.OList items)) (Ok pl) s.
Proof.
  intros Hu Hitems. eexists _, _. split; [reflexivity|]. split; [apply frame_new|].
  apply agrees_ok. eexists _, _. split; [reflexivity|]. split; [|split].
  - eapply unchanged_fresh; [exact Hu|apply nth_error_fresh].
  - cbn. apply nth_error_snoc_new.
  - exact Hitems.
Qed.

Lemma strings_lines (hk : list Store.obj) (s s' : Store.store) (v : Store.val)
  (ls : list string) :
  strings_of s s' v ls -> lines_of hk s s' v (map VStr ls).
Proof.
  intros (b & -> & Hfresh & Hb). exists b, (map Store.HStr ls).
  repeat split; auto. clear. induction ls; constructor; auto. reflexivity.
Qed.

Lemma simulates_map_result {A B B' : Type} (own : list nat)
  (R1 : Store.store -> A -> B -> Prop) (R : Store.store -> A -> B' -> Prop)
  (m : Store.M A) (p : result B) (g : B -> B') (s : Store.store) :
  simulates own R1 m p s ->
  (forall s' a b, frame own s s' -> R1 s' a b -> R s' a (g b)) ->
  simulates own R m (x <- p ;; Ok (g x)) s.
Proof.
  intros (r & s' & Hrun & Hf & Hr) HR. exists r, s'. split; [exact Hrun|].
  split; [exact Hf|]. destruct p as [b|e|]; cbn in *; auto.
  destruct Hr as (a & -> & Hab). eauto.
Qed.

(** A function entered in [s] that changed only lists it made leaves [s]
    as it was. *)
Lemma frame_fresh (own : list nat) (s s1 s2 : Store.store) :
  (forall a, In a own -> nth_error (Store.objects s) a = None) ->
  unchanged s s1 -> frame own s1 s2 -> unchanged s s2.
Proof. intros Hfresh Hu Hf. eapply frame_keeps; eauto. Qed.

(** A step that leaves the store and has its counterpart's very outcome. *)
Lemma step_same {A A' B' : Type} (own : list nat)
  (R : Store.store -> A' -> B' -> Prop)
  (m : Store.M A) (p : result A) (K : A -> Store.M A') (PK : A -> result B')
  (s : Store.store) :
  m s = (p, s) ->
  (forall a, simulates own R (K a) (PK a) s) ->
  simulates own R (Store.bind m K) (x <- p ;; PK x) s.
Proof.
  intros Hm HK. apply (simulates_reads own eq).
  - exists p. split; [exact Hm|]. destruct p; cbn; eauto.
  - intros a b <-. apply HK.
Qed.

Lemma step_slice_list {A' B' : Type} (own : list nat)
  (R : Store.store -> A' -> B' -> Prop) (n b : nat) (items : list Store.val)
  (K : Store.val -> Store.M A') (P : result B') (s : Store.store) :
  nth_error (Store.objects s) b = Some (Store.OList items) ->
  (forall s1, unchanged s s1 ->
              nth_error (Store.objects s1) (List.length (Store.objects s))
              = Some (Store.OList (skipn n items)) ->
              simulates own R (K (Store.HRef (List.length (Store.objects s)))) P s1) ->
  simulates own R (Store.bind (Store.slice_from n (Store.HRef b)) K) P s.
Proof.
  intros Hb HK. eapply simulates_step.
  - rewrite (slice_from_list n b items s Hb). reflexivity.
  - apply frame_new.
  - apply HK; [apply unchanged_new|]. cbn. apply nth_error_snoc_new.
Qed.

Lemma or_new_list_run (b : nat) (items : list Store.val) (o : Store.obj)
  (s : Store.store) :
  nth_error (Store.objects s) b = Some (Store.OList items) ->
  Store.or_new (Store.HRef b) o s
  = match items with
    | [] => Store.new o s
    | _ => (Ok (Store.HRef b), s)
    end.
Proof. intro Hb. unfold Store.or_new. cbn. rewrite Hb. now destruct items. Qed.

(** The result of a call made later is also new for the caller. *)
Lemma tail_strings (own : list nat) (s s1 : Store.store)
  (m : Store.M Store.val) (p : result (list string)) :
  unchanged s s1 ->
  simulates [] (fun s' => strings_of s1 s') m p s1 ->
  simulates own (fun s' => strings_of s s') m p s1.
Proof.
  intros Hu H. apply simulates_own with (own := []); [easy|].
  eapply simulates_weaken; [|exact H].
  intros s' v ls _ (b & -> & Hfresh & Hb). exists b. repeat split; auto.
  eapply unchanged_fresh; eauto.
Qed.

Lemma tail_lines (hk : list Store.obj) (own : list nat) (s s1 : Store.store)
  (m : Store.M Store.val) (p : result (list pyobj)) :
  unchanged s s1 ->
  simulates [] (fun s' => lines_of hk s1 s') m p s1 ->
  simulates own (fun s' => lines_of hk s s') m p s1.
Proof.
  intros Hu H. apply simulates_own with (own := []); [easy|].
  eapply simulates_weaken; [|exact H].
  intros s' v ls _ (b & items & -> & Hfresh & Hb & Hitems). exists b, items.
  repeat split; auto. eapply unchanged_fresh; eauto.
Qed.

Lemma map_m_quote_items (ls : list string) (s : Store.store) :
  Store.map_m Store.quote_item (map Store.HStr ls) s
  = (Ok (map Store.HStr (map quote_line ls)), s).
Proof.
  induction ls as [|t ls IH]; [reflexivity|].
  cbn [map Store.map_m].
  assert (Hq : Store.quote_item (Store.HStr t) s = (Ok (Store.HStr (quote_line t)), s))
    by reflexivity.
  rewrite (bind_ok _ _ _ _ _ Hq), (bind_ok _ _ _ _ _ IH). reflexivity.
Qed.

(** What is known of one store, carried to a later one. *)
Ltac forward Hu :=
  match type of Hu with
  | unchanged ?s ?s' =>
      repeat match goal with
        | H : nth_error (Store.objects s) _ = Some _ |- _ => apply (proj1 Hu) in H
        | H : unchanged ?x s |- _ => apply (fun X => unchanged_trans x s s' X Hu) in H
        | H : stands _ s _ _ |- _ => apply (near_unchanged _ s s' _ _ Hu) in H
        end
  end.

(** ** Blocks *)

Section Blocks.

Variable sk : Store.store.

Local Notation "'rep'" := (represents (Store.objects sk)) (at level 0).
Local Notation "'near'" := (stands (Store.objects sk)) (at level 0).
Local Notation "'by_value'" := (fun _ : Store.store => represents (Store.objects sk))
  (at level 0).

Local Ltac step := step_in sk.
Local Ltac step0 := step0_in sk.

Variable rb : Store.val -> nat -> Store.M Store.val.
Variable prb : pyobj -> nat -> result (list pyobj).
Hypothesis rb_sim :
  forall x px level s, unchanged sk s -> rep x px ->
                       simulates [] (fun s' => lines_of (Store.objects sk) s s')
                         (rb x level) (prb px level) s.

Variable ri : Store.val -> Store.M Store.val.
Variable pri : pyobj -> result pyobj.
Hypothesis ri_sim :
  forall x px s, unchanged sk s -> rep x px -> simulates [] by_value (ri x) (pri px) s.

Variable ct : Store.val -> Store.M Store.val.
Variable pct : pyobj -> result pyobj.
Hypothesis ct_sim :
  forall x px s, unchanged sk s -> rep x px -> simulates [] by_value (ct x) (pct px) s.

Lemma block_loop_sim (a level : nat) (nodes : list Store.val) (pnodes : list pyobj) :
  nth_error (Store.objects sk) a = None ->
  Forall2 rep nodes pnodes ->
  forall (s : Store.store) (acc : list string),
    unchanged sk s ->
    nth_error (Store.objects s) a = Some (Store.OList (map Store.HStr acc)) ->
    simulates [a]
      (fun s' _ more =>
         nth_error (Store.objects s') a
         = Some (Store.OList (map Store.HStr (acc ++ more))))
      (Store.for_each nodes (Store.block_step rb (Store.HRef a) level))
      (block_strings prb pnodes level) s.
Proof.
  intros Hfresh H. induction H as [|node pnode nodes pnodes Hnode _ IH];
    intros s acc Hu Ha.
  - apply simulates_ret. now rewrite app_nil_r.
  - cbn [Store.for_each block_strings]. unfold Store.block_step at 1.
    apply simulates_assoc.
    eapply simulates_after; [now apply rb_sim|].
    intros lines plines s1 Hu1 (b & items & -> & Hnew & Hb & Hitems).
    assert (Hu' : unchanged sk s1) by eauto using unchanged_trans.
    apply Hu1 in Ha.
    apply simulates_assoc.
    eapply simulates_known; [now apply (truthy_list b items)|].
    destruct Hitems as [|x px items pl Hx Hitems]; cbn [negb].
    + eapply simulates_known; [reflexivity|]. now apply IH.
    + apply simulates_assoc.
      eapply step_same;
        [apply (py_join_list (Store.objects sk) LF b (x :: items) (px :: pl) s1 Hb);
         now constructor|].
      intro block. cbn beta.
      eapply step_write; [now left|exact Ha|apply append_run; exact Ha|].
      intros s2 Hw.
      eapply simulates_map_result.
      * apply (IH s2 (acc ++ [block])%list).
        -- eauto using rewrites_unchanged.
        -- rewrite map_app. apply Hw.
      * intros s' u more _ Hmore. cbn beta in Hmore.
        now rewrite <- app_assoc in Hmore.
Qed.

Lemma render_inner_blocks_sim (nodes : Store.val) (pnodes : pyobj)
  (level : nat) (tight : bool) (s : Store.store) :
  unchanged sk s -> near s nodes pnodes ->
  simulates [] (fun s' => strings_of s s')
    (Store._render_inner_blocks rb nodes level tight)
    (_render_inner_blocks prb pnodes level tight) s.
Proof.
  intros Hu Hnodes. unfold Store._render_inner_blocks, _render_inner_blocks.
  apply step_new_own. intros s1 Hu1 Ha.
  assert (Hfresh : nth_error (Store.objects sk) (List.length (Store.objects s)) = None)
    by (eapply unchanged_fresh; [exact Hu|apply nth_error_fresh]).
  assert (Hnodes1 : near s1 nodes pnodes) by eauto using near_unchanged.
  step.
  eapply simulates_bind.
  { apply (block_loop_sim _ level _ _ Hfresh H s1 []); eauto with store. }
  intros u blocks s2 Hf Hblocks. cbn beta in Hblocks. cbn [app] in Hblocks.
  assert (Hu2 : unchanged s s2).
  { eapply frame_fresh; [|exact Hu1|exact Hf].
    intros a [<-|[]]. apply nth_error_fresh. }
  eapply simulates_known; [now apply (truthy_list _ _ _ Hblocks)|].
  destruct blocks as [|block blocks]; cbn [map negb].
  - apply (simulates_new_strings _ s s2 []). exact Hu2.
  - change (Store.HStr block :: map Store.HStr blocks)
      with (map Store.HStr (block :: blocks)) in Hblocks.
    eapply simulates_known; [exact (py_join_strings_store _ _ _ _ Hblocks)|].
    cbn [Store.splitlines_of]. now apply simulates_new_strings.
Qed.

Lemma render_blockquote_sim (node : Store.val) (pnode : pyobj)
  (level : nat) (s : Store.store) :
  unchanged sk s -> rep node pnode ->
  simulates [] (fun s' => strings_of s s')
    (Store._render_blockquote rb node level) (_render_blockquote prb pnode level) s.
Proof.
  intros Hu Hnode. unfold Store._render_blockquote, _render_blockquote.
  step. step0; intros content s1 Hu1 Hcontent. forward Hu1.
  eapply simulates_after; [now apply render_inner_blocks_sim|].
  intros inner pinner s2 Hu2 (b & -> & Hnew & Hb). forward Hu2.
  eapply simulates_known; [exact (truthy_list _ _ _ Hb)|].
  destruct pinner as [|line pinner]; cbn [map negb].
  - now apply (simulates_new_strings _ s s2 [">"]).
  - change (Store.HStr line :: map Store.HStr pinner)
      with (map Store.HStr (line :: pinner)) in *.
    eapply simulates_known; [exact (iterate_list _ _ _ Hb)|].
    eapply simulates_known; [apply map_m_quote_items|].
    now apply simulates_new_strings.
Qed.

Lemma render_panel_sim (node : Store.val) (pnode : pyobj)
  (level : nat) (s : Store.store) :
  unchanged sk s -> rep node pnode ->
  simulates [] (fun s' => strings_of s s')
    (Store._render_panel rb node level) (_render_panel prb pnode level) s.
Proof.
  intros Hu Hnode. unfold Store._render_panel, _render_panel.
  step. step0; intros attrs s1 Hu1 Hattrs. forward Hu1.
  step0; intros t pt Ht. step.
  assert (Htitle :
    forall K P s',
      unchanged sk s' ->
      simulates [] (fun s'' => strings_of s s'')
        (K (if truthy pt then "**" ++ escape_str (py_str pt) ++ "** " else "")) P s' ->
      simulates [] (fun s'' => strings_of s s'')
        (Store.bind
           (if truthy pt
            then Store.bind (Store.py_str t)
                   (fun shown => Store.ret ("**" ++ escape_str shown ++ "** "))
            else Store.ret "") K) P s').
  { intros K P s' Hu' HK. destruct (truthy pt).
    - apply simulates_assoc. eapply (step_py_str sk); [atom|atom|].
      eapply simulates_known; [reflexivity|exact HK].
    - eapply simulates_known; [reflexivity|exact HK]. }
  match goal with
  | |- simulates _ _ (Store.bind _ ?K) _ _ => apply (Htitle K)
  end; [atom|]. clear Htitle.
  set (title := if truthy pt then "**" ++ escape_str (py_str pt) ++ "** " else "").
  step. step0; intros content s2 Hu2 Hcontent. forward Hu2.
  eapply simulates_after; [now apply render_inner_blocks_sim|].
  intros inner pinner s3 Hu3 (b & -> & Hnew & Hb). forward Hu3.
  eapply simulates_known; [exact (truthy_list _ _ _ Hb)|].
  destruct pinner as [|line0 rest]; cbn [map negb].
  - now apply (simulates_new_strings _ s s3 [_]).
  - eapply simulates_known; [exact (index0_list _ _ _ _ Hb)|].
    eapply simulates_known; [reflexivity|].
    apply step_new. intros s4 Hu4 Hfirst. forward Hu4.
    eapply step_slice_list; [exact Hb|]. intros s5 Hu5 Htail. cbn [skipn] in Htail.
    forward Hu5.
    eapply simulates_known; [exact (iterate_list _ _ _ Htail)|].
    eapply simulates_known; [apply map_m_quote_items|].
    apply step_new. intros s6 Hu6 Hrest. forward Hu6.
    eexists _, _. split; [apply (list_add_lists _ _ _ _ _ Hfirst Hrest)|].
    split; [apply frame_new|].
    apply agrees_ok. eexists. split; [reflexivity|]. split.
    + eapply unchanged_fresh; [|apply nth_error_fresh]. eauto with store.
    + cbn. rewrite nth_error_snoc_new. reflexivity.
Qed.

Lemma render_cell_sim (node : Store.val) (pnode : pyobj) (s : Store.store) :
  unchanged sk s -> rep node pnode ->
  simulates [] (fun s' => strings_of s s')
    (Store._render_cell rb node) (_render_cell prb pnode) s.
Proof.
  intros Hu Hnode. unfold Store._render_cell, _render_cell.
  step. step0; intros content s1 Hu1 Hcontent. forward Hu1.
  apply tail_strings; [exact Hu1|]. now apply render_inner_blocks_sim.
Qed.

Lemma render_code_block_sim (node : Store.val) (pnode : pyobj) (s : Store.store) :
  unchanged sk s -> rep node pnode ->
  simulates [] (fun s' => strings_of s s')
    (Store._render_code_block ct node) (_render_code_block pct pnode) s.
Proof.
  intros Hu Hnode. unfold Store._render_code_block, _render_code_block.
  step. step0; intros attrs s1 Hu1 Hattrs. forward Hu1.
  step0; intros l pl Hl. step0; intros language Hlanguage.
  eapply simulates_after; [now apply ct_sim|].
  intros code pcode s2 Hu2 Hcode. cbn beta in Hcode. forward Hu2.
  step.
  assert (Hfence :
    forall K P,
      simulates [] (fun s'' => strings_of s s'')
        (K (if truthy (py_or pl (VStr ""))
            then "```" ++ py_str (py_or pl (VStr "")) else "```")) P s2 ->
      simulates [] (fun s'' => strings_of s s'')
        (Store.bind
           (if truthy (py_or pl (VStr ""))
            then Store.bind (Store.py_str language)
                   (fun shown => Store.ret ("```" ++ shown))
            else Store.ret "```") K) P s2).
  { intros K P HK. destruct (truthy (py_or pl (VStr ""))).
    - apply simulates_assoc. eapply (step_py_str sk); [atom|atom|].
      eapply simulates_known; [reflexivity|exact HK].
    - eapply simulates_known; [reflexivity|exact HK]. }
  match goal with
  | |- simulates _ _ (Store.bind _ ?K) _ _ => apply (Hfence K)
  end. clear Hfence.
  set (fence := if truthy (py_or pl (VStr ""))
                then "```" ++ py_str (py_or pl (VStr "")) else "```").
  assert (Hraise : forall K : Store.val -> Store.M Store.val,
             simulates [] (fun s'' => strings_of s s'')
               (Store.bind (Store.pure (Raise AttributeError)) K)
               (Raise AttributeError) s2).
  { intro K. exists (Raise AttributeError), s2. repeat split; auto. }
  destruct pcode as [| | |t|l0|d0];
    [cbn in Hcode; subst code; apply Hraise ..
    |cbn in Hcode; subst code
    |destruct Hcode as (a & ? & -> & _); apply Hraise
    |destruct Hcode as (a & ? & -> & _); apply Hraise].
  clear Hraise. cbn [Store.splitlines_of].
  apply step_new. intros s3 Hu3 Hsplit. forward Hu3.
  destruct (splitlines t) as [|line lines] eqn:Hlines; cbn [map] in Hsplit.
  - eapply simulates_step;
      [rewrite (or_new_list_run _ _ _ _ Hsplit); reflexivity|apply frame_new|].
    eapply simulates_known;
      [apply (iterate_list _ [Store.HStr ""]); cbn; apply nth_error_snoc_new|].
    apply (simulates_new_strings [] s _ [fence; ""; "```"]).
    eapply unchanged_trans; [exact Hu1|apply unchanged_new].
  - eapply simulates_known; [rewrite (or_new_list_run _ _ _ _ Hsplit); reflexivity|].
    eapply simulates_known; [exact (iterate_list _ _ _ Hsplit)|].
    replace (Store.HStr fence :: (Store.HStr line :: map Store.HStr lines)
               ++ [Store.HStr "```"])%list
      with (map Store.HStr (fence :: (line :: lines) ++ ["```"])%list)
      by (cbn [map app]; now rewrite map_app).
    now apply simulates_new_strings.
Qed.

End Blocks.

(** ** Tables *)

Lemma lists_hold_kept (s s' : Store.store) (refs : list Store.val)
  (rows : list (list string)) :
  (forall b o, In (Store.HRef b) refs ->
               nth_error (Store.objects s) b = Some o ->
               nth_error (Store.objects s') b = Some o) ->
  lists_hold s refs rows -> lists_hold s' refs rows.
Proof.
  intros Hkeep H. induction H as [|ref cells refs rows (b & -> & Hb) _ IH].
  - constructor.
  - constructor.
    + exists b. split; [reflexivity|]. apply Hkeep; [now left|exact Hb].
    + apply IH. intros b' o Hin. apply Hkeep. now right.
Qed.

Lemma lists_hold_unchanged (s s' : Store.store) (refs : list Store.val)
  (rows : list (list string)) :
  unchanged s s' -> lists_hold s refs rows -> lists_hold s' refs rows.
Proof. intros [Hu _]. apply lists_hold_kept. intros b o _. apply Hu. Qed.

Lemma lists_hold_in (s : Store.store) (refs : list Store.val)
  (rows : list (list string)) (b : nat) :
  lists_hold s refs rows -> In (Store.HRef b) refs ->
  exists o, nth_error (Store.objects s) b = Some o.
Proof.
  intros H. induction H as [|ref cells refs rows (b' & -> & Hb) _ IH]; [easy|].
  intros [[= <-]|Hin]; eauto.
Qed.

(** A list that is new in [s] is none of the lists [s] holds. *)
Lemma lists_hold_apart (s : Store.store) (refs : list Store.val)
  (rows : list (list string)) (a : nat) :
  lists_hold s refs rows -> nth_error (Store.objects s) a = None ->
  forall b, In (Store.HRef b) refs -> b <> a.
Proof.
  intros H Ha b Hin ->. destruct (lists_hold_in _ _ _ _ H Hin) as (o & Ho).
  congruence.
Qed.

Lemma lists_hold_frame (own : list nat) (s s' : Store.store)
  (refs : list Store.val) (rows : list (list string)) :
  frame own s s' ->
  (forall b, In (Store.HRef b) refs -> ~ In b own) ->
  lists_hold s refs rows -> lists_hold s' refs rows.
Proof.
  intros [Hf _] Hout. apply lists_hold_kept. intros b o Hin. apply Hf. now apply Hout.
Qed.

Lemma lists_hold_rewrites (a : nat) (o : Store.obj) (s s' : Store.store)
  (refs : list Store.val) (rows : list (list string)) :
  rewrites a o s s' ->
  (forall b, In (Store.HRef b) refs -> b <> a) ->
  lists_hold s refs rows -> lists_hold s' refs rows.
Proof.
  intros Hw Hout. apply lists_hold_kept. intros b x Hin Hx.
  eapply rewrites_other; eauto.
Qed.

Lemma lists_hold_snoc (s : Store.store) (refs : list Store.val)
  (rows : list (list string)) (b : nat) (cells : list string) :
  lists_hold s refs rows ->
  nth_error (Store.objects s) b = Some (Store.OList (map Store.HStr cells)) ->
  lists_hold s (refs ++ [Store.HRef b]) (rows ++ [cells]).
Proof.
  intros H Hb. apply Forall2_app; [exact H|]. constructor; [|constructor]. eauto.
Qed.

Lemma lists_hold_skipn (k : nat) (s : Store.store) (refs : list Store.val)
  (rows : list (list string)) :
  lists_hold s refs rows -> lists_hold s (skipn k refs) (skipn k rows).
Proof.
  intro H. revert k. induction H as [|ref cells refs rows Hb Hrest IH]; intro k.
  - rewrite !skipn_nil. constructor.
  - destruct k as [|k]; cbn [skipn]; [now constructor|]. apply IH.
Qed.

Lemma in_skipn {A : Type} (k : nat) (l : list A) (x : A) :
  In x (skipn k l) -> In x l.
Proof.
  revert k. induction l as [|y l IH]; intros k H.
  - now rewrite skipn_nil in H.
  - destruct k as [|k]; [exact H|]. right. eapply IH, H.
Qed.

Lemma map_m_len (s : Store.store) (refs : list Store.val) (rows : list (list string)) :
  lists_hold s refs rows ->
  Store.map_m Store.py_len refs s = (Ok (map (@List.length string) rows), s).
Proof.
  intro H. induction H as [|ref cells refs rows (b & -> & Hb) _ IH]; [reflexivity|].
  cbn [Store.map_m map].
  rewrite (bind_ok _ _ _ _ _ (py_len_list _ _ _ Hb)), (bind_ok _ _ _ _ _ IH).
  now rewrite length_map.
Qed.

Lemma max_len_lengths (rows : list (list string)) :
  fold_right Nat.max 0%nat (map (@List.length string) rows) = max_len rows.
Proof. induction rows as [|row rows IH]; [reflexivity|]. cbn. now rewrite IH. Qed.

Lemma padded_line_run (n b : nat) (cells : list string) (s : Store.store) :
  nth_error (Store.objects s) b = Some (Store.OList (map Store.HStr cells)) ->
  exists s', Store.padded_line n (Store.HRef b) s
             = (Ok (Store.HStr (pipe_line (pad_row n cells))), s')
             /\ unchanged s s'.
Proof.
  intro Hb. unfold Store.padded_line.
  rewrite (bind_ok _ _ _ _ _ (py_len_list _ _ _ Hb)), length_map.
  unfold Store.list_repeat.
  set (padding := Store.OList (repeat (Store.HStr "") (n - List.length cells))).
  pose proof (unchanged_new s padding) as Hu1.
  rewrite (bind_ok _ _ s (snd (Store.new padding s)) (Store.HRef (List.length (Store.objects s))))
    by reflexivity.
  set (s1 := snd (Store.new padding s)) in *.
  assert (Hpad : nth_error (Store.objects s1) (List.length (Store.objects s)) = Some padding)
    by (cbn; apply nth_error_snoc_new).
  apply Hu1 in Hb.
  rewrite (bind_ok _ _ s1
             (snd (Store.new (Store.OList (map Store.HStr (pad_row n cells))) s1))
             (Store.HRef (List.length (Store.objects s1)))).
  2:{ rewrite (list_add_lists _ _ _ _ _ Hb Hpad). unfold pad_row.
      now rewrite map_app, map_repeat. }
  set (s2 := snd (Store.new _ s1)).
  assert (Hrow : nth_error (Store.objects s2) (List.length (Store.objects s1))
                 = Some (Store.OList (map Store.HStr (pad_row n cells))))
    by (cbn; apply nth_error_snoc_new).
  rewrite (bind_ok _ _ _ _ _ (py_join_strings_store " | " _ _ _ Hrow)).
  exists s2. split; [reflexivity|].
  eapply unchanged_trans; [exact Hu1|apply unchanged_new].
Qed.

Lemma step_padded_line {A' B' : Type} (own : list nat)
  (R : Store.store -> A' -> B' -> Prop) (n b : nat) (cells : list string)
  (K : Store.val -> Store.M A') (P : result B') (s : Store.store) :
  nth_error (Store.objects s) b = Some (Store.OList (map Store.HStr cells)) ->
  (forall s1, unchanged s s1 ->
              simulates own R (K (Store.HStr (pipe_line (pad_row n cells)))) P s1) ->
  simulates own R (Store.bind (Store.padded_line n (Store.HRef b)) K) P s.
Proof.
  intros Hb HK. destruct (padded_line_run n b cells s Hb) as (s1 & Hrun & Hu1).
  eapply simulates_step; [exact Hrun|now apply unchanged_frame|now apply HK].
Qed.

(** The loop of [_render_table] over the rendered rows. *)
Lemma padded_lines_sim (n a : nat) (refs : list Store.val)
  (rows : list (list string)) :
  forall (s : Store.store) (acc : list string),
    lists_hold s refs rows ->
    (forall b, In (Store.HRef b) refs -> b <> a) ->
    nth_error (Store.objects s) a = Some (Store.OList (map Store.HStr acc)) ->
    simulates [a]
      (fun s' _ lines =>
         nth_error (Store.objects s') a = Some (Store.OList (map Store.HStr lines)))
      (Store.for_each refs
         (fun row => Store.bind (Store.padded_line n row)
                       (fun line => Store.append (Store.HRef a) line)))
      (Ok (acc ++ map (fun row => pipe_line (pad_row n row)) rows)%list) s.
Proof.
  revert rows.
  induction refs as [|ref refs IH]; intros rows s acc Hrows Hapart Ha.
  - inversion Hrows; subst. apply simulates_ret. cbn [map]. now rewrite app_nil_r.
  - inversion Hrows as [|? cells ? rows' (b & -> & Hb) Hrest]; subst.
    cbn [Store.for_each map]. apply simulates_assoc.
    eapply step_padded_line; [exact Hb|]. intros s1 Hu1.
    apply Hu1 in Ha.
    eapply step_write; [now left|exact Ha|apply append_run; exact Ha|].
    intros s2 Hw.
    replace (acc ++ pipe_line (pad_row n cells)
               :: map (fun row => pipe_line (pad_row n row)) rows')%list
      with ((acc ++ [pipe_line (pad_row n cells)])
              ++ map (fun row => pipe_line (pad_row n row)) rows')%list
      by (now rewrite <- app_assoc).
    apply IH.
    + eapply lists_hold_rewrites; [exact Hw|intros; apply Hapart; now right|].
      eapply lists_hold_unchanged; eauto.
    + intros b' Hin. apply Hapart. now right.
    + rewrite map_app. apply Hw.
Qed.

(** [if header_row: lines.append("| " + " | ".join(["---"] * col_count) + " |")] *)
Lemma step_header_line {A' B' : Type} (own : list nat)
  (R : Store.store -> A' -> B' -> Prop) (header_row : bool) (a col_count : nat)
  (acc : list string) (K : unit -> Store.M A') (P : result B') (s : Store.store) :
  In a own ->
  nth_error (Store.objects s) a = Some (Store.OList (map Store.HStr acc)) ->
  (forall s1,
      nth_error (Store.objects s1) a
      = Some (Store.OList
                (map Store.HStr
                   (if header_row
                    then (acc ++ [pipe_line (repeat "---" col_count)])%list
                    else acc))) ->
      (forall b o, b <> a -> nth_error (Store.objects s) b = Some o ->
                   nth_error (Store.objects s1) b = Some o) ->
      simulates own R (K tt) P s1) ->
  simulates own R
    (Store.bind
       (if header_row then
          Store.bind (Store.list_repeat (Store.HStr "---") col_count)
            (fun dashes =>
               Store.bind (Store.py_join " | " dashes)
                 (fun joined =>
                    Store.append (Store.HRef a) (Store.HStr ("| " ++ joined ++ " |"))))
        else Store.ret tt) K) P s.
Proof.
  intros Hin Ha HK. destruct header_row.
  - apply simulates_assoc. unfold Store.list_repeat. apply step_new.
    intros s1 Hu1 Hd. rewrite <- map_repeat in Hd. apply simulates_assoc.
    eapply simulates_known; [exact (py_join_strings_store _ _ _ _ Hd)|].
    apply Hu1 in Ha.
    eapply step_write; [exact Hin|exact Ha|apply append_run; exact Ha|].
    intros s2 Hw. apply HK.
    + rewrite map_app. apply Hw.
    + intros b o Hb Ho. eapply rewrites_other; [exact Hw|exact Hb|].
      apply Hu1. exact Ho.
  - eapply simulates_known; [reflexivity|]. apply HK; auto.
Qed.

Lemma simulates_bind_own {A B A' B' : Type} (own1 own : list nat)
  (R1 : Store.store -> A -> B -> Prop) (R2 : Store.store -> A' -> B' -> Prop)
  (m : Store.M A) (k : A -> Store.M A') (p : result B) (pk : B -> result B')
  (s : Store.store) :
  incl own1 own ->
  simulates own1 R1 m p s ->
  (forall a b s1, frame own1 s s1 -> R1 s1 a b ->
                  simulates own R2 (k a) (pk b) s1) ->
  simulates own R2 (Store.bind m k) (x <- p ;; pk x) s.
Proof.
  intros Hincl (r & s1 & Hm & Hf & Hr) Hk.
  assert (Hf0 : frame own s s1).
  { destruct Hf as [Hf Hf']. split; [|exact Hf'].
    intros b o Hb. apply Hf. intro Hin. apply Hb, Hincl, Hin. }
  destruct p as [b|e|]; cbn in Hr.
  - destruct Hr as (a & -> & Hab).
    destruct (Hk a b s1 Hf Hab) as (r2 & s2 & Hk2 & Hf2 & Hr2).
    exists r2, s2. rewrite (bind_ok _ _ _ _ _ Hm).
    repeat split; auto; apply (frame_trans _ _ _ _ Hf0 Hf2).
  - subst r. exists (Raise e), s1. rewrite (bind_raise _ _ _ _ _ Hm).
    repeat split; auto; apply Hf0.
  - subst r. exists OutOfFuel, s1. rewrite (bind_out_of_fuel _ _ _ _ Hm).
    repeat split; auto; apply Hf0.
Qed.

Section Tables.

Variable sk : Store.store.

Local Notation "'rep'" := (represents (Store.objects sk)) (at level 0).
Local Notation "'near'" := (stands (Store.objects sk)) (at level 0).

Local Ltac step := step_in sk.
Local Ltac step0 := step0_in sk.

Variable rb : Store.val -> nat -> Store.M Store.val.
Variable prb : pyobj -> nat -> result (list pyobj).
Hypothesis rb_sim :
  forall x px level s, unchanged sk s -> rep x px ->
                       simulates [] (fun s' => lines_of (Store.objects sk) s s')
                         (rb x level) (prb px level) s.

Lemma table_cells_sim (a : nat) (cells : list Store.val) (pcells : list pyobj) :
  nth_error (Store.objects sk) a = None ->
  Forall2 rep cells pcells ->
  forall (s : Store.store) (acc : list string) (header_row : bool),
    unchanged sk s ->
    nth_error (Store.objects s) a = Some (Store.OList (map Store.HStr acc)) ->
    simulates [a]
      (fun s' h rc =>
         h = snd rc
         /\ nth_error (Store.objects s') a
            = Some (Store.OList (map Store.HStr (acc ++ fst rc))))
      (Store.table_cells rb (Store.HRef a) cells header_row)
      (table_cells prb pcells header_row) s.
Proof.
  intros Hfresh H. induction H as [|cell pcell cells pcells Hcell _ IH];
    intros s acc header_row Hu Ha.
  - apply simulates_ret. cbn. now rewrite app_nil_r.
  - cbn [Store.table_cells table_cells]. step. literals.
    eapply simulates_after; [now apply (render_cell_sim sk rb prb rb_sim)|].
    intros cell_lines pcell_lines s1 Hu1 (b & -> & Hnew & Hb). forward Hu1.
    eapply simulates_known; [exact (py_join_strings_store _ _ _ _ Hb)|].
    eapply step_write; [now left|exact Ha|apply append_run; exact Ha|].
    intros s2 Hw.
    eapply simulates_map_result.
    + apply (IH s2 (acc ++ [strip (join "<br>" pcell_lines)])%list).
      * eauto using rewrites_unchanged.
      * rewrite map_app. apply Hw.
    + intros s' h rc _ [-> Hrc]. cbn [fst snd]. split; [reflexivity|].
      now rewrite <- app_assoc in Hrc.
Qed.

Lemma table_rows_sim (a : nat) (rows : list Store.val) (prows : list pyobj) :
  nth_error (Store.objects sk) a = None ->
  Forall2 rep rows prows ->
  forall (s : Store.store) (refs : list Store.val) (acc : list (list string))
         (header_row : bool),
    unchanged sk s ->
    nth_error (Store.objects s) a = Some (Store.OList refs) ->
    lists_hold s refs acc ->
    (forall b, In (Store.HRef b) refs -> b <> a) ->
    simulates [a]
      (fun s' h rr =>
         h = snd rr
         /\ exists refs',
             nth_error (Store.objects s') a = Some (Store.OList refs')
             /\ lists_hold s' refs' (acc ++ fst rr)
             /\ (forall b, In (Store.HRef b) refs' -> b <> a))
      (Store.table_rows rb (Store.HRef a) rows header_row)
      (table_rows prb prows header_row) s.
Proof.
  intros Hfresh H. induction H as [|row prow rows prows Hrow _ IH];
    intros s refs acc header_row Hu Ha Hrows Hapart.
  - apply simulates_ret. cbn. rewrite app_nil_r. eauto.
  - cbn [Store.table_rows table_rows]. step. step0; intros content s1 Hu1 Hcontent.
    pose proof (lists_hold_unchanged _ _ _ _ Hu1 Hrows) as Hrows1.
    forward Hu1.
    apply step_new_own. intros s2 Hu2 Hc.
    assert (Hc1 : nth_error (Store.objects s1) (List.length (Store.objects s1)) = None)
      by apply nth_error_fresh.
    assert (Hck : nth_error (Store.objects sk) (List.length (Store.objects s1)) = None)
      by (eapply unchanged_fresh; [|exact Hc1]; atom).
    assert (Hca : List.length (Store.objects s1) <> a) by (intros E; congruence).
    pose proof (lists_hold_apart _ _ _ _ Hrows1 Hc1) as Hrc.
    pose proof (lists_hold_unchanged _ _ _ _ Hu2 Hrows1) as Hrows2.
    forward Hu2.
    step0; intros items pitems Hitems.
    eapply (simulates_bind_own [List.length (Store.objects s1)]).
    { intros a0 [<-|[]]. now left. }
    { apply (table_cells_sim _ _ _ Hck Hitems s2 [] header_row); [atom|exact Hc]. }
    intros h rc s3 Hf [-> Hcells]. cbn [app] in Hcells.
    assert (Hu3 : unchanged sk s3).
    { eapply frame_keeps; [|  |exact Hf]; [|atom]. intros a0 [<-|[]]. exact Hck. }
    assert (Ha3 : nth_error (Store.objects s3) a = Some (Store.OList refs)).
    { apply Hf; [|exact Ha]. intros [E|[]]. congruence. }
    assert (Hrows3 : lists_hold s3 refs acc).
    { eapply lists_hold_frame; [exact Hf| |exact Hrows2].
      intros b Hin [<-|[]]. now apply (Hrc _ Hin). }
    eapply step_write; [right; now left|exact Ha3|apply append_run; exact Ha3|].
    intros s4 Hw.
    eapply simulates_map_result.
    + apply simulates_own with (own := [a]); [intros a0 [<-|[]]; right; now left|].
      apply (IH s4 (refs ++ [Store.HRef (List.length (Store.objects s1))])%list
               (acc ++ [fst rc])%list (snd rc)).
      * eauto using rewrites_unchanged.
      * apply Hw.
      * apply lists_hold_snoc.
        -- eapply lists_hold_rewrites; [exact Hw|exact Hapart|exact Hrows3].
        -- eapply rewrites_other; [exact Hw|exact Hca|exact Hcells].
      * intros b Hin. apply in_app_or in Hin.
        destruct Hin as [Hin|[[= <-]|[]]]; auto.
    + intros s' h rr _ [-> (refs' & Hr & Hl & Hap)]. cbn [fst snd].
      split; [reflexivity|]. exists refs'. split; [exact Hr|].
      split; [|exact Hap]. now rewrite <- app_assoc in Hl.
Qed.

Lemma render_table_sim (node : Store.val) (pnode : pyobj) (s : Store.store) :
  unchanged sk s -> rep node pnode ->
  simulates [] (fun s' => strings_of s s')
    (Store._render_table rb node) (_render_table prb pnode) s.
Proof.
  intros Hu Hnode. unfold Store._render_table, _render_table.
  step0; intros c pc Hc. step0; intros rows s1 Hu1 Hrows. forward Hu1.
  step0. cbn zeta.
  destruct (truthy (py_or pc (VList []))) eqn:Hsome; cbn [negb];
    [|now apply (simulates_new_strings _ s s1 [])].
  assert (Hr1 : nth_error (Store.objects s1) (List.length (Store.objects s1)) = None)
    by apply nth_error_fresh.
  assert (Hrk : nth_error (Store.objects sk) (List.length (Store.objects s1)) = None)
    by (eapply unchanged_fresh; [|exact Hr1]; atom).
  assert (Hrs : nth_error (Store.objects s) (List.length (Store.objects s1)) = None)
    by (eapply unchanged_fresh; [exact Hu1|exact Hr1]).
  apply step_new_own. intros s2 Hu2 Hr. forward Hu2.
  step0; intros row_nodes prow_nodes Hrow_nodes.
  eapply simulates_bind.
  { apply (table_rows_sim _ _ _ Hrk Hrow_nodes s2 [] [] false);
      [atom|exact Hr|constructor|intros b []]. }
  intros h [rendered_rows header_row] s3 Hf (-> & refs & Href & Hhold & Hapart).
  cbn [app fst snd] in *.
  assert (Hu3 : unchanged s s3).
  { eapply frame_fresh; [|exact Hu1|exact Hf]. intros a0 [<-|[]]. exact Hrs. }
  eapply simulates_known; [exact (truthy_list _ _ _ Href)|].
  destruct rendered_rows as [|first_row rest].
  { inversion Hhold; subst. cbn [negb]. now apply (simulates_new_strings _ s s3 []). }
  inversion Hhold as [|ref ? refs0 ? (b0 & -> & Hb0) Hrest]; subst. cbn [negb].
  eapply simulates_known; [exact (iterate_list _ _ _ Href)|].
  eapply simulates_known; [exact (map_m_len _ _ _ Hhold)|].
  cbn [map]. eapply simulates_known; [reflexivity|].
  change (fold_right Nat.max 0%nat
            (List.length first_row :: map (@List.length string) rest))
    with (fold_right Nat.max 0%nat (map (@List.length string) (first_row :: rest))).
  rewrite max_len_lengths.
  set (col_count := max_len (first_row :: rest)).
  eapply simulates_known; [exact (index0_list _ _ _ _ Href)|].
  eapply step_padded_line; [exact Hb0|]. intros s4 Hu4.
  pose proof (lists_hold_unchanged _ _ _ _ Hu4 Hhold) as Hhold4.
  apply (proj1 Hu4) in Href.
  assert (Hl4 : nth_error (Store.objects s4) (List.length (Store.objects s4)) = None)
    by apply nth_error_fresh.
  assert (Hls : nth_error (Store.objects s) (List.length (Store.objects s4)) = None).
  { eapply unchanged_fresh; [|exact Hl4]. eauto using unchanged_trans. }
  pose proof (lists_hold_apart _ _ _ _ Hhold4 Hl4) as Hla.
  assert (Hlr : List.length (Store.objects s1) <> List.length (Store.objects s4))
    by (intro E; rewrite <- E in Hl4; congruence).
  apply step_new_own. intros s5 Hu5 Hl.
  pose proof (lists_hold_unchanged _ _ _ _ Hu5 Hhold4) as Hhold5.
  apply (proj1 Hu5) in Href.
  eapply (step_header_line _ _ header_row _ col_count
            [pipe_line (pad_row col_count first_row)]);
    [now left|exact Hl|].
  intros s6 Hl6 Hkeep.
  assert (Hhold6 : lists_hold s6 (Store.HRef b0 :: refs0) (first_row :: rest)).
  { eapply lists_hold_kept; [|exact Hhold5]. intros b o Hin. apply Hkeep.
    now apply Hla. }
  apply Hkeep in Href; [|exact Hlr].
  eapply step_slice_list; [exact Href|]. intros s7 Hu7 Hbody.
  eapply simulates_known; [exact (iterate_list _ _ _ Hbody)|].
  apply (proj1 Hu7) in Hl6.
  match goal with
  | |- simulates _ _ _ (Ok ?ls) _ =>
      replace ls
        with ((if header_row
               then [pipe_line (pad_row col_count first_row)]
                      ++ [pipe_line (repeat "---" col_count)]
               else [pipe_line (pad_row col_count first_row)])
                ++ map (fun row => pipe_line (pad_row col_count row))
                     (skipn (if header_row then 1 else 0) (first_row :: rest)))%list
        by (now destruct header_row)
  end.
  match goal with
  | |- simulates _ _ _ ?P _ => rewrite <- (bind_ok_id P)
  end.
  eapply simulates_then_ret with (f := fun _ => _).
  - apply simulates_own with (own := [List.length (Store.objects s4)]).
    { intros a0 [<-|[]]. now left. }
    apply padded_lines_sim.
    + apply lists_hold_skipn. eapply lists_hold_unchanged; [exact Hu7|exact Hhold6].
    + intros b Hin. apply Hla. eapply in_skipn, Hin.
    + exact Hl6.
  - intros u lines s8 _ Hlines. cbn beta in Hlines. eexists. split; [reflexivity|].
    split; [exact Hls|exact Hlines].
Qed.

End Tables.

(** ** Lists *)

(** A statement that runs to its end on its own lists. *)
Lemma simulates_run {A B : Type} (own : list nat)
  (R : Store.store -> A -> B -> Prop) (m : Store.M A) (a : A) (b : B)
  (s s' : Store.store) :
  m s = (Ok a, s') -> frame own s s' -> R s' a b -> simulates own R m (Ok b) s.
Proof.
  intros Hm Hf HR. exists (Ok a), s'. split; [exact Hm|]. split; [exact Hf|].
  now apply agrees_ok.
Qed.

(** A write as the last statement. *)
Lemma simulates_write {B : Type} (own : list nat)
  (R : Store.store -> unit -> B -> Prop) (m : Store.M unit) (a : nat)
  (o o0 : Store.obj) (b : B) (s : Store.store) :
  In a own ->
  nth_error (Store.objects s) a = Some o0 ->
  m s = Store.write a o s ->
  (forall s1, rewrites a o s s1 -> R s1 tt b) ->
  simulates own R m (Ok b) s.
Proof.
  intros Hin Ha Hm HR. pose proof (write_rewrites a o o0 s Ha) as Hw.
  eapply simulates_run; [rewrite Hm; reflexivity| |apply HR, Hw].
  eapply rewrites_frame; eauto.
Qed.

Lemma represents_strings (hk : list Store.obj) (ls : list string) :
  Forall2 (represents hk) (map Store.HStr ls) (map VStr ls).
Proof. induction ls; constructor; auto. reflexivity. Qed.

(** [for line in more: lines.append(prefix + line)] *)
Lemma prefix_lines_run (a : nat) (prefix : string) (ls : list string) :
  forall (s : Store.store) (acc : list string),
    nth_error (Store.objects s) a = Some (Store.OList (map Store.HStr acc)) ->
    exists s',
      Store.for_each (map Store.HStr ls)
        (fun line => Store.bind (Store.pure (Store.str_add prefix line))
                       (fun t => Store.append (Store.HRef a) (Store.HStr t))) s
      = (Ok tt, s')
      /\ frame [a] s s'
      /\ nth_error (Store.objects s') a
         = Some (Store.OList
                   (map Store.HStr (acc ++ map (fun line => prefix ++ line) ls))).
Proof.
  induction ls as [|line ls IH]; intros s acc Ha.
  - exists s. cbn [map]. rewrite app_nil_r. repeat split; auto.
  - cbn [map Store.for_each].
    pose proof (write_rewrites a
                  (Store.OList (map Store.HStr acc ++ [Store.HStr (prefix ++ line)]))
                  _ s Ha) as Hw.
    set (s1 := snd (Store.write a
                      (Store.OList (map Store.HStr acc ++ [Store.HStr (prefix ++ line)]))
                      s)) in *.
    destruct (IH s1 (acc ++ [(prefix ++ line)%string])%list) as (s2 & Hrun & Hf & H2).
    { rewrite map_app. apply Hw. }
    exists s2. split; [|split].
    + erewrite bind_ok; [exact Hrun|].
      erewrite bind_ok by reflexivity. rewrite (append_run _ _ _ _ Ha). reflexivity.
    + eapply frame_trans; [|exact Hf]. eapply rewrites_frame; [now left|exact Hw].
    + now rewrite <- app_assoc in H2.
Qed.

(** [v[1:]] and the loop over it. *)
Lemma step_slice_iterate {A' B' : Type} (sk : Store.store) (own : list nat)
  (R : Store.store -> A' -> B' -> Prop) (v : Store.val) (p : pyobj)
  (K : list Store.val -> Store.M A') (PK : list pyobj -> result B')
  (s : Store.store) :
  unchanged sk s -> stands (Store.objects sk) s v p ->
  (forall items pitems s1,
      unchanged s s1 -> Forall2 (represents (Store.objects sk)) items pitems ->
      simulates own R (K items) (PK pitems) s1) ->
  simulates own R
    (Store.bind (Store.slice_from 1 v) (fun rest => Store.bind (Store.iterate rest) K))
    (x <- slice_from1 p ;; PK x) s.
Proof.
  intros Hu Hv HK.
  assert (Hraise : forall e,
             Store.slice_from 1 v s = (Raise e, s) ->
             simulates own R
               (Store.bind (Store.slice_from 1 v)
                  (fun rest => Store.bind (Store.iterate rest) K))
               (Raise e) s).
  { intros e He. exists (Raise e), s. rewrite (bind_raise _ _ _ _ _ He).
    repeat split; auto. }
  destruct (near_shape sk s v p Hu Hv) as [| | |t|a items l Ha Hitems|a bs d Ha Hbs].
  - now apply Hraise.
  - now apply Hraise.
  - now apply Hraise.
  - eapply simulates_known; [reflexivity|].
    eapply simulates_known; [reflexivity|].
    apply HK; [apply unchanged_refl|].
    destruct t as [|c t]; [constructor|]. apply rep_chars.
  - eapply step_slice_list; [exact Ha|]. intros s1 Hu1 Hrest.
    eapply simulates_known; [exact (iterate_list _ _ _ Hrest)|].
    apply HK; [exact Hu1|]. destruct Hitems; [constructor|assumption].
  - apply Hraise. unfold Store.slice_from, Store.list_at. now rewrite Ha.
Qed.

Section Lists.

Variable sk : Store.store.

Local Notation "'rep'" := (represents (Store.objects sk)) (at level 0).
Local Notation "'near'" := (stands (Store.objects sk)) (at level 0).
Local Notation "'by_value'" := (fun _ : Store.store => represents (Store.objects sk))
  (at level 0).

Local Ltac step := step_in sk.
Local Ltac step0 := step0_in sk.

Variable rb : Store.val -> nat -> Store.M Store.val.
Variable prb : pyobj -> nat -> result (list pyobj).
Hypothesis rb_sim :
  forall x px level s, unchanged sk s -> rep x px ->
                       simulates [] (fun s' => lines_of (Store.objects sk) s s')
                         (rb x level) (prb px level) s.

Variable ri : Store.val -> Store.M Store.val.
Variable pri : pyobj -> result pyobj.
Hypothesis ri_sim :
  forall x px s, unchanged sk s -> rep x px -> simulates [] by_value (ri x) (pri px) s.

Lemma prefixed_agree (prefix : string) (items : list Store.val) (pl : list pyobj) :
  Forall2 rep items pl ->
  agrees (Forall2 rep)
    (mapM (fun line => s <- Store.str_add prefix line ;; Ok (Store.HStr s)) items)
    (mapM (fun line => s <- str_add prefix line ;; Ok (VStr s)) pl).
Proof.
  induction 1 as [|x px items pl Hx _ IH]; [apply agrees_ok; constructor|].
  cbn [mapM]. rewrite (str_add_rep sk prefix x px Hx).
  destruct (str_add prefix px) as [t|e|]; cbn [bind]; [|reflexivity..].
  destruct (mapM _ pl) as [ts|e|]; cbn in IH.
  - destruct IH as (hs & -> & Hhs). apply agrees_ok. constructor; [reflexivity|exact Hhs].
  - now rewrite IH.
  - now rewrite IH.
Qed.

Lemma render_block_in_list_sim (node : Store.val) (pnode : pyobj)
  (level : nat) (prefix : string) (s : Store.store) :
  unchanged sk s -> rep node pnode ->
  simulates [] (fun s' => lines_of (Store.objects sk) s s')
    (Store._render_block_in_list rb node level prefix)
    (_render_block_in_list prb pnode level prefix) s.
Proof.
  intros Hu Hnode. unfold Store._render_block_in_list, _render_block_in_list.
  step0; intros node_type pnode_type Htype. step0; intros nested.
  destruct nested; [now apply rb_sim|].
  eapply simulates_after; [now apply rb_sim|].
  intros lines pl s1 Hu1 (b & items & -> & Hnew & Hb & Hitems).
  eapply simulates_known; [exact (iterate_list _ _ _ Hb)|].
  match goal with
  | |- simulates _ _ _ ?P _ => rewrite <- (bind_ok_id P)
  end.
  eapply simulates_reads.
  - eexists. split; [reflexivity|]. apply prefixed_agree. exact Hitems.
  - intros prefixed pprefixed Hprefixed. now apply simulates_new_lines.
Qed.

Lemma blocks_in_list_sim (a level : nat) (prefix : string)
  (blocks : list Store.val) (pblocks : list pyobj) :
  nth_error (Store.objects sk) a = None ->
  Forall2 rep blocks pblocks ->
  forall (s : Store.store) (acc : list Store.val) (pacc : list pyobj),
    unchanged sk s ->
    nth_error (Store.objects s) a = Some (Store.OList acc) ->
    Forall2 rep acc pacc ->
    simulates [a]
      (fun s' _ more =>
         exists items, nth_error (Store.objects s') a = Some (Store.OList items)
                       /\ Forall2 rep items (pacc ++ more))
      (Store.for_each blocks
         (fun block =>
            Store.bind (Store._render_block_in_list rb block level prefix)
              (fun block_lines => Store.extend (Store.HRef a) block_lines)))
      (blocks_in_list prb pblocks level prefix) s.
Proof.
  intros Hfresh H. induction H as [|block pblock blocks pblocks Hblock _ IH];
    intros s acc pacc Hu Ha Hacc.
  - apply simulates_ret. exists acc. rewrite app_nil_r. auto.
  - cbn [Store.for_each blocks_in_list]. apply simulates_assoc.
    eapply simulates_after; [now apply render_block_in_list_sim|].
    intros lines pl s1 Hu1 (b & items & -> & Hnew & Hb & Hitems).
    apply Hu1 in Ha.
    eapply step_write;
      [now left|exact Ha
      |eapply (extend_run _ _ items); [exact Ha|cbn; now rewrite Hb]|].
    intros s2 Hw.
    eapply simulates_map_result.
    + apply (IH s2 (acc ++ items)%list (pacc ++ pl)%list).
      * eapply rewrites_unchanged; [exact Hfresh| |exact Hw].
        eauto using unchanged_trans.
      * apply Hw.
      * now apply Forall2_app.
    + intros s' u more _ (items' & Hi & Hrep). exists items'. split; [exact Hi|].
      now rewrite <- app_assoc in Hrep.
Qed.

Lemma render_list_item_sim (node : Store.val) (pnode : pyobj)
  (level : nat) (ordered : bool) (index : Z) (s : Store.store) :
  unchanged sk s -> rep node pnode ->
  simulates [] (fun s' => lines_of (Store.objects sk) s s')
    (Store._render_list_item rb ri node level ordered index)
    (_render_list_item prb pri pnode level ordered index) s.
Proof.
  intros Hu Hnode. unfold Store._render_list_item, _render_list_item. cbn zeta.
  set (bullet_prefix := str_repeat INDENT level
                          ++ (if ordered then decimal index ++ "." else "-") ++ " ").
  set (prefix := str_repeat " " (String.length bullet_prefix)).
  step0; intros c pc Hc. step0; intros content s1 Hu1 Hcontent. forward Hu1.
  step0.
  destruct (truthy (py_or pc (VList []))) eqn:Hsome; cbn [negb].
  2:{ apply (simulates_new_lines _ _ s s1 [_] [_]); [exact Hu1|].
      constructor; [reflexivity|constructor]. }
  apply (near_rep sk) in Hcontent; [|exact Hsome].
  assert (Ha1 : nth_error (Store.objects s1) (List.length (Store.objects s1)) = None)
    by apply nth_error_fresh.
  assert (Hak : nth_error (Store.objects sk) (List.length (Store.objects s1)) = None)
    by (eapply unchanged_fresh; [|exact Ha1]; atom).
  assert (Has : nth_error (Store.objects s) (List.length (Store.objects s1)) = None)
    by (eapply unchanged_fresh; [exact Hu1|exact Ha1]).
  apply step_new_own. intros s2 Hu2 Ha. forward Hu2.
  step0; intros first pfirst Hfirst. step0; intros first_type pfirst_type Hft.
  literals.
  eapply simulates_bind
    with (R1 := fun s' (_ : unit) lines =>
                  exists items,
                    nth_error (Store.objects s') (List.length (Store.objects s1))
                    = Some (Store.OList items)
                    /\ Forall2 rep items lines).
  { destruct (eq_str pfirst_type "paragraph").
    - eapply simulates_after;
        [apply (render_paragraph_lines_sim sk ri pri ri_sim); [atom|exact Hfirst]|].
      intros pls ppls s3 Hu3 (b & -> & Hnew & Hb).
      assert (Hba : b <> List.length (Store.objects s1)) by (intros ->; congruence).
      apply (proj1 Hu3) in Ha.
      eapply simulates_known; [exact (truthy_list _ _ _ Hb)|].
      destruct ppls as [|line0 rest]; cbn [map].
      + eapply simulates_write; [now left|exact Ha|apply append_run; exact Ha|].
        intros s4 Hw. eexists. split; [apply Hw|]. cbn [app].
        constructor; [reflexivity|constructor].
      + eapply simulates_known; [exact (index0_list _ _ _ _ Hb)|].
        eapply simulates_known; [reflexivity|].
        eapply step_write; [now left|exact Ha|apply append_run; exact Ha|].
        intros s4 Hw. cbn [app] in Hw.
        eapply step_slice_list; [eapply rewrites_other; [exact Hw|exact Hba|exact Hb]|].
        intros s5 Hu5 Hrest. cbn [skipn] in Hrest.
        eapply simulates_known; [exact (iterate_list _ _ _ Hrest)|].
        destruct (prefix_lines_run (List.length (Store.objects s1)) prefix rest s5
                    [bullet_prefix ++ line0])
          as (s6 & Hrun & Hf6 & H6); [apply Hu5; apply Hw|].
        eapply simulates_run; [exact Hrun|exact Hf6|].
        eexists. split; [exact H6|].
        rewrite <- (map_map (fun line => prefix ++ line) VStr).
        apply (represents_strings _ ((bullet_prefix ++ line0) :: _)).
    - eapply step_write; [now left|exact Ha|apply append_run; exact Ha|].
      intros s3 Hw. cbn [app] in Hw.
      eapply simulates_after.
      { apply render_block_in_list_sim; [|exact Hfirst].
        eapply rewrites_unchanged; [exact Hak| |exact Hw]. atom. }
      intros bl pbl s4 Hu4 (b & items & -> & Hnew & Hb & Hitems).
      eapply simulates_write;
        [now left|apply Hu4, Hw
        |eapply (extend_run _ _ items); [apply Hu4, Hw|cbn; now rewrite Hb]|].
      intros s5 Hw5. eexists. split; [apply Hw5|]. cbn [app].
      constructor; [reflexivity|exact Hitems]. }
  intros u lines s3 Hf (items & Hitems & Hrep).
  assert (Hu3 : unchanged sk s3).
  { eapply frame_keeps; [|  |exact Hf]; [|atom]. intros a0 [<-|[]]. exact Hak. }
  eapply (step_slice_iterate sk); [exact Hu3|now apply rep_near|].
  intros blocks pblocks s4 Hu4 Hblocks.
  eapply simulates_then_ret with (f := fun _ => _).
  - apply (blocks_in_list_sim _ _ _ _ _ Hak Hblocks s4 items lines);
      [eauto using unchanged_trans|apply Hu4; exact Hitems|exact Hrep].
  - intros u' more s5 _ (items' & Hi & Hrep'). eexists _, _.
    split; [reflexivity|]. split; [exact Has|]. split; [exact Hi|exact Hrep'].
Qed.

Lemma list_items_sim (a level : nat) (ordered : bool)
  (items : list Store.val) (pitems : list pyobj) :
  nth_error (Store.objects sk) a = None ->
  Forall2 rep items pitems ->
  forall (s : Store.store) (index : Z) (acc : list Store.val) (pacc : list pyobj),
    unchanged sk s ->
    nth_error (Store.objects s) a = Some (Store.OList acc) ->
    Forall2 rep acc pacc ->
    simulates [a]
      (fun s' _ more =>
         exists lines, nth_error (Store.objects s') a = Some (Store.OList lines)
                       /\ Forall2 rep lines (pacc ++ more))
      (Store.list_items rb ri (Store.HRef a) items level ordered index)
      (list_items prb pri pitems level ordered index) s.
Proof.
  intros Hfresh H. induction H as [|item pitem items pitems Hitem _ IH];
    intros s index acc pacc Hu Ha Hacc.
  - apply simulates_ret. exists acc. rewrite app_nil_r. auto.
  - cbn [Store.list_items list_items].
    eapply simulates_after; [now apply render_list_item_sim|].
    intros lines pl s1 Hu1 (b & more & -> & Hnew & Hb & Hmore).
    apply Hu1 in Ha.
    eapply step_write;
      [now left|exact Ha
      |eapply (extend_run _ _ more); [exact Ha|cbn; now rewrite Hb]|].
    intros s2 Hw.
    eapply simulates_map_result.
    + apply (IH s2 _ (acc ++ more)%list (pacc ++ pl)%list).
      * eapply rewrites_unchanged; [exact Hfresh| |exact Hw].
        eauto using unchanged_trans.
      * apply Hw.
      * now apply Forall2_app.
    + intros s' u rest _ (lines' & Hi & Hrep). exists lines'. split; [exact Hi|].
      now rewrite <- app_assoc in Hrep.
Qed.

Lemma render_list_sim (node : Store.val) (pnode : pyobj)
  (level : nat) (ordered : bool) (s : Store.store) :
  unchanged sk s -> rep node pnode ->
  simulates [] (fun s' => lines_of (Store.objects sk) s s')
    (Store._render_list rb ri node level ordered)
    (_render_list prb pri pnode level ordered) s.
Proof.
  intros Hu Hnode. unfold Store._render_list, _render_list.
  assert (Ha0 : nth_error (Store.objects s) (List.length (Store.objects s)) = None)
    by apply nth_error_fresh.
  assert (Hak : nth_error (Store.objects sk) (List.length (Store.objects s)) = None)
    by (eapply unchanged_fresh; [exact Hu|exact Ha0]).
  apply step_new_own. intros s1 Hu1 Ha. forward Hu1.
  eapply (step_get_or_new_dict sk); [atom|atom|]. intros attrs pattrs s2 Hu2 Hattrs.
  forward Hu2.
  step0; intros start pstart Hstart.
  apply step_pure; [destruct ordered; [now apply (py_int_rep sk)|reflexivity]|].
  intro index.
  step0; intros c pc Hc. step0; intros content s3 Hu3 Hcontent. forward Hu3.
  step0; intros items pitems Hitems.
  match goal with
  | |- simulates _ _ _ ?P _ => rewrite <- (bind_ok_id P)
  end.
  eapply simulates_then_ret with (f := fun _ => _).
  - apply (list_items_sim _ _ _ _ _ Hak Hitems s3 index [] []);
      [atom|exact Ha|constructor].
  - intros u more s4 _ (lines & Hi & Hrep). eexists _, _.
    split; [reflexivity|]. split; [exact Ha0|]. split; [exact Hi|exact Hrep].
Qed.

End Lists.

(** ** The renderer *)

Lemma agrees_eq {A : Type} (r p : result A) : agrees eq r p -> r = p.
Proof. destruct p as [b|e|]; cbn; [intros (x & -> & ->); reflexivity|auto..]. Qed.

Section Dispatch.

Variable sk : Store.store.

Local Notation "'rep'" := (represents (Store.objects sk)) (at level 0).
Local Notation "'near'" := (stands (Store.objects sk)) (at level 0).
Local Notation "'by_value'" := (fun _ : Store.store => represents (Store.objects sk))
  (at level 0).

Local Ltac step := step_in sk.
Local Ltac step0 := step0_in sk.

Section Body.

Variable rb : Store.val -> nat -> Store.M Store.val.
Variable prb : pyobj -> nat -> result (list pyobj).
Hypothesis rb_sim :
  forall x px level s, unchanged sk s -> rep x px ->
                       simulates [] (fun s' => lines_of (Store.objects sk) s s')
                         (rb x level) (prb px level) s.

Variable ri : Store.val -> Store.M Store.val.
Variable pri : pyobj -> result pyobj.
Hypothesis ri_sim :
  forall x px s, unchanged sk s -> rep x px -> simulates [] by_value (ri x) (pri px) s.

Variable ct : Store.val -> Store.M Store.val.
Variable pct : pyobj -> result pyobj.
Hypothesis ct_sim :
  forall x px s, unchanged sk s -> rep x px -> simulates [] by_value (ct x) (pct px) s.

(** A list of strings as the list of lines [_render_block] returns. *)
Lemma simulates_strings (m : Store.M Store.val) (p : result (list string))
  (s : Store.store) :
  simulates [] (fun s' => strings_of s s') m p s ->
  simulates [] (fun s' => lines_of (Store.objects sk) s s') m
    (lines <- p ;; Ok (map VStr lines)) s.
Proof.
  intro H. eapply simulates_map_result; [exact H|].
  intros s' v ls _. apply strings_lines.
Qed.

Lemma render_block_body_sim (node : Store.val) (pnode : pyobj) (level : nat)
  (s : Store.store) :
  unchanged sk s -> rep node pnode ->
  simulates [] (fun s' => lines_of (Store.objects sk) s s')
    (Store.render_block_body rb ri ct node level)
    (render_block_body prb pri pct pnode level) s.
Proof.
  intros Hu Hnode. unfold Store.render_block_body, render_block_body.
  step0; intros node_type pnode_type Htype. literals.
  destruct (eq_str pnode_type "paragraph").
  { apply simulates_strings. now apply (render_paragraph_lines_sim sk ri pri ri_sim). }
  destruct (eq_str pnode_type "heading").
  { eapply simulates_after; [now apply (render_heading_sim sk ri pri ri_sim)|].
    intros line pline s1 Hu1 <-.
    apply simulates_new_lines; [exact Hu1|]. constructor; [reflexivity|constructor]. }
  destruct (eq_str pnode_type "bulletList");
    [now apply (render_list_sim sk rb prb rb_sim ri pri ri_sim)|].
  destruct (eq_str pnode_type "orderedList");
    [now apply (render_list_sim sk rb prb rb_sim ri pri ri_sim)|].
  destruct (eq_str pnode_type "blockquote");
    [apply simulates_strings; now apply (render_blockquote_sim sk rb prb rb_sim)|].
  destruct (eq_str pnode_type "panel");
    [apply simulates_strings; now apply (render_panel_sim sk rb prb rb_sim)|].
  destruct (eq_str pnode_type "codeBlock");
    [apply simulates_strings; now apply (render_code_block_sim sk ct pct ct_sim)|].
  destruct (eq_str pnode_type "rule").
  { apply simulates_new_lines; [apply unchanged_refl|].
    constructor; [reflexivity|constructor]. }
  destruct (eq_str pnode_type "table");
    [apply simulates_strings; now apply (render_table_sim sk rb prb rb_sim)|].
  eapply simulates_after; [now apply ct_sim|].
  intros text ptext s1 Hu1 Htext. cbn beta in Htext.
  eapply (step_truthy sk);
    [eauto using unchanged_trans|apply (rep_near sk); exact Htext|].
  destruct (truthy ptext).
  - apply simulates_new_lines; [exact Hu1|]. constructor; [exact Htext|constructor].
  - apply simulates_new_lines; [exact Hu1|]. constructor.
Qed.

(** [render], given the renderer's [_render_block]. *)
Lemma render_body_sim (doc : Store.val) (pdoc : pyobj) (s : Store.store) :
  unchanged sk s -> rep doc pdoc ->
  simulates [] (fun _ => eq) (Store.render_body rb doc)
    (content <- get pdoc "content" ;;
     nodes <- iterate (py_or content (VList [])) ;;
     blocks <- block_strings prb nodes 0 ;;
     Ok (join (LF ++ LF) blocks)) s.
Proof.
  intros Hu Hdoc. unfold Store.render_body.
  assert (Hak : nth_error (Store.objects sk) (List.length (Store.objects s)) = None)
    by (eapply unchanged_fresh; [exact Hu|apply nth_error_fresh]).
  apply step_new_own. intros s1 Hu1 Ha. forward Hu1.
  step0; intros c pc Hc. step0; intros content s2 Hu2 Hcontent. forward Hu2.
  step0; intros nodes pnodes Hnodes.
  eapply simulates_bind.
  { apply (block_loop_sim sk rb prb rb_sim _ 0 _ _ Hak Hnodes s2 []); [atom|exact Ha]. }
  intros u blocks s3 Hf Hblocks. cbn beta in Hblocks. cbn [app] in Hblocks.
  eapply simulates_run;
    [exact (py_join_strings_store _ _ _ _ Hblocks)|apply frame_refl|reflexivity].
Qed.

End Body.

Lemma render_block_sim (fuel : nat) (self : nat) :
  forall (node : Store.val) (pnode : pyobj) (level : nat) (s : Store.store),
    unchanged sk s -> rep node pnode ->
    simulates [] (fun s' => lines_of (Store.objects sk) s s')
      (Store._render_block fuel self node level) (_render_block fuel pnode level) s.
Proof.
  induction fuel as [|fuel IH]; intros node pnode level s Hu Hnode.
  - exists OutOfFuel, s. repeat split; auto.
  - cbn [Store._render_block _render_block].
    apply render_block_body_sim; auto.
    + apply render_inline_sim.
    + apply collect_text_sim.
Qed.

Lemma render_sim (fuel : nat) (self : nat) (doc : Store.val) (pdoc : pyobj)
  (s : Store.store) :
  unchanged sk s -> rep doc pdoc ->
  simulates [] (fun _ => eq) (Store.render fuel self doc) (render fuel pdoc) s.
Proof.
  intros Hu Hdoc. unfold Store.render, render.
  apply render_body_sim; auto. intros. now apply render_block_sim.
Qed.

Lemma render_markdown_sim (fuel : nat) (value0 : Store.val) (pvalue : pyobj)
  (s : Store.store) :
  unchanged sk s -> rep value0 pvalue ->
  simulates [] (fun _ => eq) (Store.render_markdown fuel value0)
    (render_markdown fuel pvalue) s.
Proof.
  intros Hu Hvalue. unfold Store.render_markdown, render_markdown.
  eapply simulates_after; [now apply (extract_doc_sim sk)|].
  intros doc pdoc s1 Hu1 Hdoc. cbn beta in Hdoc.
  assert (Hk1 : unchanged sk s1) by eauto using unchanged_trans.
  eapply (step_truthy sk); [exact Hk1|apply (rep_near sk); exact Hdoc|].
  destruct (truthy pdoc); cbn [negb]; [|now apply simulates_ret].
  assert (Hnew : unchanged s1 (snd (Store.new_renderer s1))).
  { split; cbn; [auto|]. intros r attrs Hr. now apply nth_error_snoc_old. }
  eapply simulates_step; [reflexivity|now apply unchanged_frame|].
  apply render_sim; [eauto using unchanged_trans|exact Hdoc].
Qed.

End Dispatch.

(** A call in a store [s] where [value] stands for [doc]. *)
Lemma render_markdown_run (fuel : nat) (value0 : Store.val) (doc : pyobj)
  (s : Store.store) :
  represents (Store.objects s) value0 doc ->
  exists s1, Store.render_markdown fuel value0 s = (render_markdown fuel doc, s1)
             /\ unchanged s s1.
Proof.
  intro Hvalue.
  destruct (render_markdown_sim s fuel value0 doc s (unchanged_refl s) Hvalue)
    as (r & s1 & Hrun & Hf & Hr).
  apply agrees_eq in Hr. subst r. exists s1. split; [exact Hrun|].
  now apply frame_unchanged.
Qed.

(** ** Every value can be loaded *)

Lemma nth_error_kept {A : Type} (l more : list A) (a : nat) (x : A) :
  nth_error l a = Some x -> nth_error (l ++ more) a = Some x.
Proof.
  intro H. rewrite nth_error_app1; [exact H|]. apply nth_error_Some. congruence.
Qed.

Lemma represents_all_kept (h h' : list Store.obj)
  (items : list Store.val) (l : list pyobj) :
  (forall a o, nth_error h a = Some o -> nth_error h' a = Some o) ->
  Forall2 (represents h) items l -> Forall2 (represents h') items l.
Proof.
  intros Hh H. induction H; constructor; auto.
  eapply represents_unchanged_objects; eassumption.
Qed.

Lemma bindings_kept (h h' : list Store.obj)
  (bindings : list (string * Store.val)) (d : list (string * pyobj)) :
  (forall a o, nth_error h a = Some o -> nth_error h' a = Some o) ->
  Forall2 (same_binding h) bindings d -> Forall2 (same_binding h') bindings d.
Proof.
  intros Hh H. induction H as [|? ? ? ? [Hk Hr] _ IH]; constructor; auto.
  split; [exact Hk|]. eapply represents_unchanged_objects; eassumption.
Qed.

Lemma place_items (l : list pyobj) :
  Forall (fun x => forall h,
              (exists more, snd (place x h) = (h ++ more)%list)
              /\ represents (snd (place x h)) (fst (place x h)) x) l ->
  forall (items0 : list Store.val) (h0 : list Store.obj) (l0 : list pyobj),
    Forall2 (represents h0) items0 l0 ->
    let r := fold_left (fun acc x =>
                          let '(items, h) := acc in
                          let '(v, h') := place x h in
                          ((items ++ [v])%list, h'))
               l (items0, h0) in
    (exists more, snd r = (h0 ++ more)%list)
    /\ Forall2 (represents (snd r)) (fst r) (l0 ++ l)%list.
Proof.
  induction 1 as [|x l Hx _ IH]; intros items0 h0 l0 H0; cbn zeta.
  - cbn [fold_left fst snd]. split; [exists []|]; now rewrite app_nil_r.
  - cbn [fold_left]. destruct (Hx h0) as [(more & Hmore) Hv].
    destruct (place x h0) as [v h1]. cbn [fst snd] in Hmore, Hv.
    assert (H1 : Forall2 (represents h1) (items0 ++ [v])%list (l0 ++ [x])%list).
    { apply Forall2_app; [|now constructor]. subst h1.
      eapply represents_all_kept; [|exact H0]. intros a o. apply nth_error_kept. }
    destruct (IH _ _ _ H1) as [(more' & Hmore') Hall]. cbn zeta in *.
    split.
    + exists (more ++ more')%list. rewrite Hmore', Hmore. now rewrite app_assoc.
    + now rewrite <- app_assoc in Hall.
Qed.

Lemma place_bindings (d : list (string * pyobj)) :
  Forall (fun kv => forall h,
              (exists more, snd (place (snd kv) h) = (h ++ more)%list)
              /\ represents (snd (place (snd kv) h)) (fst (place (snd kv) h))
                   (snd kv)) d ->
  forall (bindings0 : list (string * Store.val)) (h0 : list Store.obj)
         (d0 : list (string * pyobj)),
    Forall2 (same_binding h0) bindings0 d0 ->
    let r := fold_left (fun acc kv =>
                          let '(bindings, h) := acc in
                          let '(v, h') := place (snd kv) h in
                          ((bindings ++ [(fst kv, v)])%list, h'))
               d (bindings0, h0) in
    (exists more, snd r = (h0 ++ more)%list)
    /\ Forall2 (same_binding (snd r)) (fst r) (d0 ++ d)%list.
Proof.
  induction 1 as [|kv d Hx _ IH]; intros bindings0 h0 d0 H0; cbn zeta.
  - cbn [fold_left fst snd]. split; [exists []|]; now rewrite app_nil_r.
  - cbn [fold_left]. destruct (Hx h0) as [(more & Hmore) Hv].
    destruct (place (snd kv) h0) as [v h1]. cbn [fst snd] in Hmore, Hv.
    assert (H1 : Forall2 (same_binding h1) (bindings0 ++ [(fst kv, v)])%list
                   (d0 ++ [kv])%list).
    { apply Forall2_app; [|constructor; [now split|constructor]]. subst h1.
      eapply bindings_kept; [|exact H0]. intros a o. apply nth_error_kept. }
    destruct (IH _ _ _ H1) as [(more' & Hmore') Hall]. cbn zeta in *.
    split.
    + exists (more ++ more')%list. rewrite Hmore', Hmore. now rewrite app_assoc.
    + now rewrite <- app_assoc in Hall.
Qed.

(** [place] adds to the objects it is given, and its result stands for the
    value placed. *)
Lemma place_represents (p : pyobj) :
  forall h, (exists more, snd (place p h) = (h ++ more)%list)
            /\ represents (snd (place p h)) (fst (place p h)) p.
Proof.
  induction p as [| b | z | t | l IH | d IH] using pyobj_nested_ind; intro h;
    try (cbn; split; [exists []; now rewrite app_nil_r|reflexivity]).
  - cbn [place].
    destruct (place_items l IH [] h [] (Forall2_nil _)) as [(more & Hmore) Hall].
    cbn zeta in Hmore, Hall.
    destruct (fold_left _ l ([], h)) as [items h1]. cbn [fst snd app] in *.
    split; [exists (more ++ [Store.OList items])%list; now rewrite Hmore, app_assoc|].
    apply represents_list. exists (List.length h1), items.
    split; [reflexivity|]. split; [apply nth_error_snoc_new|].
    eapply represents_all_kept; [|exact Hall]. intros a o. apply nth_error_kept.
  - cbn [place].
    destruct (place_bindings d IH [] h [] (Forall2_nil _)) as [(more & Hmore) Hall].
    cbn zeta in Hmore, Hall.
    destruct (fold_left _ d ([], h)) as [bindings h1]. cbn [fst snd app] in *.
    split; [exists (more ++ [Store.ODict bindings])%list; now rewrite Hmore, app_assoc|].
    apply represents_dict. exists (List.length h1), bindings.
    split; [reflexivity|]. split; [apply nth_error_snoc_new|].
    eapply bindings_kept; [|exact Hall]. intros a o. apply nth_error_kept.
Qed.

(** Whatever a store holds, the value can be loaded after it. *)
Lemma loaded_represents (p : pyobj) (h : list Store.obj) :
  represents (Store.objects (loaded p h)) (fst (place p h)) p.
Proof. apply place_represents. Qed.

(** With fuel beyond the depth of the value the call has an outcome, and the
    outcome is that of every such fuel. *)
Lemma render_markdown_any_fuel (fuel : nat) (value : pyobj) :
  depth value < fuel ->
  render_markdown fuel value = render_markdown (S (depth value)) value.
Proof.
  intro Hfuel.
  destruct (render_markdown_fuel_le (S (depth value)) fuel value Hfuel) as [E|E].
  - now elim (render_markdown_settled value).
  - now rewrite E.
Qed.

(** C8: [render_markdown] is deterministic and free of side effects, in the
    embedding where the store is explicit: every list and dict is an object
    at an address, the lists the code builds are changed in place, and each
    call makes its own renderer.  Let [value] stand for [doc] in a store
    [s].  A call on it has an outcome, a string or an exception, once it
    has fuel beyond the depth of [doc]; the outcome is the one of the
    embedding on values.  A second call on the same value, made in the
    store the first one left, and with whatever fuel beyond that depth, has
    the same outcome, byte for byte.  A call in any other store [s'] in
    which a value stands for the same [doc] has that outcome too, so that
    nothing a call reads depends on what else its store holds, and so on
    what other calls left there.  And no call changes an object or a
    renderer that its store held: all that a call adds to the store is
    new. *)
Theorem render_markdown_shares_no_state
  (doc : pyobj) (s s' : Store.store) (value value' : Store.val) (fuel fuel' : nat) :
  represents (Store.objects s) value doc ->
  represents (Store.objects s') value' doc ->
  depth doc < fuel -> depth doc < fuel' ->
  exists (out : result string) (s1 s2 s1' : Store.store),
    out <> OutOfFuel
    /\ out = render_markdown fuel doc
    /\ Store.render_markdown fuel value s = (out, s1)
    /\ Store.render_markdown fuel' value s1 = (out, s2)
    /\ Store.render_markdown fuel' value' s' = (out, s1')
    /\ unchanged s s1 /\ unchanged s1 s2 /\ unchanged s' s1'.
Proof.
  intros Hvalue Hvalue' Hfuel Hfuel'.
  destruct (render_markdown_run fuel value doc s Hvalue) as (s1 & Hrun1 & Hu1).
  destruct (render_markdown_run fuel' value doc s1
              (represents_unchanged s s1 value doc Hu1 Hvalue))
    as (s2 & Hrun2 & Hu2).
  destruct (render_markdown_run fuel' value' doc s' Hvalue') as (s1' & Hrun' & Hu').
  pose proof (render_markdown_any_fuel fuel doc Hfuel) as E.
  pose proof (render_markdown_any_fuel fuel' doc Hfuel') as E'.
  exists (render_markdown fuel doc), s1, s2, s1'.
  split; [rewrite E; apply render_markdown_settled|].
  split; [reflexivity|].
  split; [exact Hrun1|].
  split; [rewrite E, <- E'; exact Hrun2|].
  split; [rewrite E, <- E'; exact Hrun'|].
  auto.
Qed.

Lemma render_markdown_shares_no_state_witness :
  exists (out : result string) (s1 s2 s1' : Store.store),
    out <> OutOfFuel
    /\ out = render_markdown 13 a_document
    /\ Store.render_markdown 13 (fst (place a_document [])) (loaded a_document [])
       = (out, s1)
    /\ Store.render_markdown 15 (fst (place a_document [])) s1 = (out, s2)
    /\ Store.render_markdown 15
         (fst (place a_document [Store.OList [Store.HStr "left by another call"]]))
         (loaded a_document [Store.OList [Store.HStr "left by another call"]])
       = (out, s1')
    /\ unchanged (loaded a_document []) s1
    /\ unchanged s1 s2
    /\ unchanged
         (loaded a_document [Store.OList [Store.HStr "left by another call"]]) s1'.
Proof.
  apply (render_markdown_shares_no_state a_document _ _ _ _ 13 15).
  - vm_compute. repeat first [reflexivity | eexists | split].
  - vm_compute. repeat first [reflexivity | eexists | split].
  - vm_compute. lia.
  - vm_compute. lia.
Defined.
